(** * Flight Disruption Engine: the PL/pgSQL core, embedded and verified

    The engine lives in the database: [calculate_blast_radius],
    [reset_simulation], [update_flight_statuses], [initialize_flight_times] and
    [suggest_rebookings] are PL/pgSQL functions over the tables of
    [database/schema.sql]; the server calls them through [supabase.rpc] and
    reads the world state back with [fetchWorldState].  Tables are lists of
    rows (in heap order); an [UPDATE] maps over the rows, a [SELECT ... INTO]
    takes the first row of its result, a [FOR ... IN SELECT] loop runs over
    the rows its query produced when the loop was opened.

    Values follow PostgreSQL (14 or later, which the schema's
    [CREATE OR REPLACE TRIGGER] needs): a [TIMESTAMP] is a count of
    microseconds, [EXTRACT(EPOCH FROM ...)] of an interval is an exact
    [numeric] and its cast to [INT] rounds to the nearest integer, an [INT] is
    a 32-bit integer whose arithmetic raises "out of range" instead of
    wrapping, a nullable column is an [option].  [NOW()] is a parameter [now],
    read as a timestamp of the session's time zone.  The [status] columns
    carry a default and are only ever written with enum labels, so rows carry
    a status.  Text ([cause], names, airport codes) is carried as it is, with
    no account of column widths; the serial [id] and the [created_at] stamp of
    log and snapshot rows are left out (a table keeps its rows in insertion
    order).  Where SQL leaves the order of equal sort keys open, rows keep
    their table order.

    Around the core: [trigger_random_delay] with its three random draws as
    parameters, [save_simulation_snapshot] of
    [database/schema_extensions.sql], and the two loops of a chaos scenario
    (the server's [/api/simulate/scenario] and the edge function
    [chaos-simulator] run the same loops over the same catalog), for a scenario
    taken from the catalog and with the delay drawn for each departure as a
    parameter; a query of the server returns every row it selects, and the
    server's numbers are exact integers. *)

From Stdlib Require Import ZArith List String Bool Lia DecimalString.
From Stdlib Require Import Sorting.Sorted Sorting.Permutation.
Import ListNotations.
Local Open Scope Z_scope.

(* ================================================================= *)
(** ** SQL values *)

(** The error conditions the engine's statements can raise. *)
Inductive sql_error : Type :=
| numeric_value_out_of_range   (* 22003: integer out of range *)
| datetime_field_overflow      (* 22008: timestamp out of range *)
| foreign_key_violation.       (* 23503 *)

Inductive result (A : Type) : Type :=
| Ok (a : A)
| Err (e : sql_error).
Arguments Ok {A} a.
Arguments Err {A} e.

Definition rbind {A B} (r : result A) (k : A -> result B) : result B :=
  match r with
  | Ok a => k a
  | Err e => Err e
  end.

Declare Scope result_scope.
Delimit Scope result_scope with result.
Notation "x <- r ;; k" := (rbind r (fun x => k))
  (at level 61, r at next level, right associativity) : result_scope.

(** [COALESCE(x, d)]. *)
Definition COALESCE {A} (x : option A) (d : A) : A :=
  match x with
  | Some v => v
  | None => d
  end.

(** [INT]: 32-bit, arithmetic checked. *)
Definition int4_min : Z := -2147483648.
Definition int4_max : Z := 2147483647.
Definition in_int4 (n : Z) : bool := (int4_min <=? n) && (n <=? int4_max).

Definition to_int4 (n : Z) : result Z :=
  if in_int4 n then Ok n else Err numeric_value_out_of_range.

Definition int4pl (a b : Z) : result Z := to_int4 (a + b).

(** [TIMESTAMP]: microseconds since 2000-01-01, finite values only. *)
Definition timestamp : Type := Z.
Definition MIN_TIMESTAMP : Z := -211813488000000000.
Definition END_TIMESTAMP : Z := 9223371331200000000.
Definition USECS_PER_SEC : Z := 1000000.
Definition USECS_PER_MINUTE : Z := 60000000.

Definition IS_VALID_TIMESTAMP (t : Z) : bool :=
  (MIN_TIMESTAMP <=? t) && (t <? END_TIMESTAMP).

(** [t + (n || ' minutes')::INTERVAL]. *)
Definition timestamp_pl_minutes (t : timestamp) (n : Z) : result timestamp :=
  let r := t + n * USECS_PER_MINUTE in
  if IS_VALID_TIMESTAMP r then Ok r else Err datetime_field_overflow.

(** [NOW() + INTERVAL '30 minutes'] is only compared, never stored. *)
Definition plus_minutes (t : timestamp) (n : Z) : Z := t + n * USECS_PER_MINUTE.

(** A [numeric] with six decimals cast to [INT]: nearest integer, ties away
    from zero.  [us] is the value in millionths. *)
Definition numeric_round (us : Z) : Z :=
  if 0 <=? us
  then (2 * us + USECS_PER_SEC) / (2 * USECS_PER_SEC)
  else - ((2 * (- us) + USECS_PER_SEC) / (2 * USECS_PER_SEC)).

(** [t1 - t2], an interval in microseconds (64 bits). *)
Definition int8_min : Z := -9223372036854775808.
Definition int8_max : Z := 9223372036854775807.

Definition timestamp_mi (t1 t2 : timestamp) : result Z :=
  let d := t1 - t2 in
  if (int8_min <=? d) && (d <=? int8_max) then Ok d else Err datetime_field_overflow.

(** [EXTRACT(EPOCH FROM (t1 - t2))::INT / 60]: the cast binds tighter than the
    division, and integer division truncates toward zero. *)
Definition minutes_between (t1 t2 : timestamp) : result Z :=
  rbind (timestamp_mi t1 t2) (fun us =>
  rbind (to_int4 (numeric_round us)) (fun secs => Ok (Z.quot secs 60))).

(** [n::text] for an integer. *)
Definition int4out (n : Z) : string := NilZero.string_of_int (Z.to_int n).

Definition opt_Z_eqb (x : option Z) (v : Z) : bool :=
  match x with
  | Some a => a =? v
  | None => false
  end.

(* ================================================================= *)
(** ** Schema *)

Inductive flight_status : Type :=
| SCHEDULED | BOARDING | ACTIVE | LANDED | DELAYED | CANCELLED.

Inductive booking_status : Type :=
| CONFIRMED | MISSED_CONNECTION | REBOOKED | BOOKING_CANCELLED.

Definition flight_status_eqb (a b : flight_status) : bool :=
  match a, b with
  | SCHEDULED, SCHEDULED | BOARDING, BOARDING | ACTIVE, ACTIVE
  | LANDED, LANDED | DELAYED, DELAYED | CANCELLED, CANCELLED => true
  | _, _ => false
  end.

Definition booking_status_eqb (a b : booking_status) : bool :=
  match a, b with
  | CONFIRMED, CONFIRMED | MISSED_CONNECTION, MISSED_CONNECTION
  | REBOOKED, REBOOKED | BOOKING_CANCELLED, BOOKING_CANCELLED => true
  | _, _ => false
  end.

Module Aircraft.
Record row : Type := mk {
  id : Z;
  tail_number : string;
  model : string;
  capacity : Z
}.
End Aircraft.

Module Flight.
Record row : Type := mk {
  id : Z;
  flight_number : string;
  aircraft_id : option Z;
  origin_code : string;
  destination_code : string;
  scheduled_dep : timestamp;
  scheduled_arr : timestamp;
  actual_dep : option timestamp;
  actual_arr : option timestamp;
  delay_minutes : option Z;
  status : flight_status
}.

Definition set_status (s : flight_status) (f : row) : row :=
  mk (id f) (flight_number f) (aircraft_id f) (origin_code f)
     (destination_code f) (scheduled_dep f) (scheduled_arr f)
     (actual_dep f) (actual_arr f) (delay_minutes f) s.

Definition set_actual (d a : option timestamp) (f : row) : row :=
  mk (id f) (flight_number f) (aircraft_id f) (origin_code f)
     (destination_code f) (scheduled_dep f) (scheduled_arr f)
     d a (delay_minutes f) (status f).

Definition set_delay_minutes (m : option Z) (f : row) : row :=
  mk (id f) (flight_number f) (aircraft_id f) (origin_code f)
     (destination_code f) (scheduled_dep f) (scheduled_arr f)
     (actual_dep f) (actual_arr f) m (status f).

(** The effective times: [COALESCE(actual, scheduled)]. *)
Definition dep (f : row) : timestamp := COALESCE (actual_dep f) (scheduled_dep f).
Definition arr (f : row) : timestamp := COALESCE (actual_arr f) (scheduled_arr f).
End Flight.

Module Passenger.
Record row : Type := mk {
  id : Z;
  first_name : string;
  last_name : string
}.
End Passenger.

Module Booking.
Record row : Type := mk {
  id : Z;
  passenger_id : Z;
  flight_id : Z;
  next_booking_id : option Z;
  status : booking_status
}.

Definition set_status (s : booking_status) (b : row) : row :=
  mk (id b) (passenger_id b) (flight_id b) (next_booking_id b) s.
End Booking.

Module DisruptionLog.
Record row : Type := mk {
  flight_id : Z;
  delay_minutes : Z;
  cause : option string;
  cascaded_from_flight_id : option Z;
  passengers_impacted : Z;
  flights_impacted : Z
}.
End DisruptionLog.

(** The aggregate metrics, as snapshots store them and as the server reports
    them. *)
Module Metrics.
Record t : Type := mk {
  delayed_flights : Z;
  missed_connections : Z;
  total_delay_minutes : Z;
  impacted_passengers : Z
}.
End Metrics.

Module Snapshot.
Record row : Type := mk {
  label : string;
  flights_data : list Flight.row;
  metrics : Metrics.t
}.
End Snapshot.

(** A row [suggest_rebookings] returns. *)
Module Suggestion.
Record row : Type := mk {
  booking_id : Z;
  passenger_name : string;
  passenger_id : Z;
  missed_flight_number : string;
  missed_origin : string;
  missed_destination : string;
  suggested_flight_id : Z;
  suggested_flight_number : string;
  suggested_dep : timestamp;
  suggested_arr : timestamp;
  seats_available : Z;
  time_saved_minutes : Z
}.
End Suggestion.

(** What the server's [fetchWorldState] reads (coordinates, names and the
    cost estimate left out). *)
Module WorldState.
Record t : Type := mk {
  flights : list Flight.row;
  missedConnections : list Z;
  metrics : Metrics.t
}.
End WorldState.

(** The database the engine works on. *)
Record db : Type := mk_db {
  aircraft : list Aircraft.row;
  flights : list Flight.row;
  passengers : list Passenger.row;
  bookings : list Booking.row;
  disruption_log : list DisruptionLog.row;
  simulation_snapshots : list Snapshot.row
}.

Definition set_flights (fs : list Flight.row) (st : db) : db :=
  mk_db (aircraft st) fs (passengers st) (bookings st) (disruption_log st)
        (simulation_snapshots st).

Definition set_bookings (bs : list Booking.row) (st : db) : db :=
  mk_db (aircraft st) (flights st) (passengers st) bs (disruption_log st)
        (simulation_snapshots st).

Definition set_disruption_log (l : list DisruptionLog.row) (st : db) : db :=
  mk_db (aircraft st) (flights st) (passengers st) (bookings st) l
        (simulation_snapshots st).

(* ================================================================= *)
(** ** Statements *)

(** A statement run on a database returns, raises (the state is the one the
    failing statement saw: what had been written up to there), or, for the
    bounded model of the recursion, runs out of fuel. *)
Inductive outcome (A : Type) : Type :=
| Returned (a : A) (st : db)
| Raised (e : sql_error) (st : db)
| OutOfFuel.
Arguments Returned {A} a st.
Arguments Raised {A} e st.
Arguments OutOfFuel {A}.

Definition M (A : Type) : Type := db -> outcome A.

Definition ret {A} (a : A) : M A := fun st => Returned a st.

Definition bind {A B} (m : M A) (k : A -> M B) : M B :=
  fun st =>
    match m st with
    | Returned a st' => k a st'
    | Raised e st' => Raised e st'
    | OutOfFuel => OutOfFuel
    end.

Definition eval {A} (r : result A) : M A :=
  fun st =>
    match r with
    | Ok a => Returned a st
    | Err e => Raised e st
    end.

Definition query {A} (q : db -> A) : M A := fun st => Returned (q st) st.

Definition exec (u : db -> db) : M unit := fun st => Returned tt (u st).

Declare Scope stmt_scope.
Delimit Scope stmt_scope with stmt.
Notation "x <-- m ;; k" := (bind m (fun x => k))
  (at level 61, m at next level, right associativity) : stmt_scope.
Notation "m ;;; k" := (bind m (fun _ => k))
  (at level 61, right associativity) : stmt_scope.

(** [UPDATE t SET ... WHERE p] with a [SET] list that can raise. *)
Fixpoint update_where {A} (p : A -> bool) (set : A -> result A)
  (rows : list A) : result (list A) :=
  match rows with
  | [] => Ok []
  | r :: rest =>
      rbind (if p r then set r else Ok r) (fun r' =>
      rbind (update_where p set rest) (fun rest' => Ok (r' :: rest')))
  end.

(** [UPDATE t SET ... WHERE p] with a [SET] list of constants and columns. *)
Definition update_rows {A} (p : A -> bool) (set : A -> A) (rows : list A) : list A :=
  map (fun r => if p r then set r else r) rows.

(** [ORDER BY key ASC]: insertion sort, equal keys keep their order. *)
Fixpoint insert_by {A} (key : A -> Z) (x : A) (l : list A) : list A :=
  match l with
  | [] => [x]
  | y :: rest => if key x <=? key y then x :: l else y :: insert_by key x rest
  end.

Fixpoint order_by {A} (key : A -> Z) (l : list A) : list A :=
  match l with
  | [] => []
  | x :: rest => insert_by key x (order_by key rest)
  end.

Definition count_rows {A} (p : A -> bool) (rows : list A) : Z :=
  Z.of_nat (List.length (filter p rows)).

(* ================================================================= *)
(** ** The engine *)

Local Open Scope stmt_scope.

Definition is_null {A} (x : option A) : bool :=
  match x with
  | Some _ => false
  | None => true
  end.

(** *** initialize_flight_times *)

Definition initialize_flight_times : M unit :=
  exec (fun st =>
    set_flights
      (update_rows (fun f => is_null (Flight.actual_dep f))
         (fun f => Flight.set_actual (Some (Flight.scheduled_dep f))
                                     (Some (Flight.scheduled_arr f)) f)
         (flights st)) st).

(** *** calculate_blast_radius *)

Definition v_min_turnaround : Z := 45.
Definition v_min_connection : Z := 30.

(** STEP 1, the [SET] list of the [UPDATE]. *)
Definition delay_flight (p_delay_minutes : Z) (f : Flight.row) : result Flight.row :=
  (new_dep <- timestamp_pl_minutes (COALESCE (Flight.actual_dep f) (Flight.scheduled_dep f)) p_delay_minutes ;;
   new_arr <- timestamp_pl_minutes (COALESCE (Flight.actual_arr f) (Flight.scheduled_arr f)) p_delay_minutes ;;
   new_delay <- int4pl (COALESCE (Flight.delay_minutes f) 0) p_delay_minutes ;;
   Ok (Flight.mk (Flight.id f) (Flight.flight_number f) (Flight.aircraft_id f)
         (Flight.origin_code f) (Flight.destination_code f)
         (Flight.scheduled_dep f) (Flight.scheduled_arr f)
         (Some new_dep) (Some new_arr) (Some new_delay) DELAYED))%result.

Definition delay_target (p_flight_id p_delay_minutes : Z) : M unit :=
  fun st =>
    match update_where (fun f => Flight.id f =? p_flight_id)
                       (delay_flight p_delay_minutes) (flights st) with
    | Ok fs => Returned tt (set_flights fs st)
    | Err e => Raised e st
    end.

(** "Fetch updated values": [v_new_arr], [v_new_dep], [v_aircraft_id]; all
    three are NULL when no row has the id. *)
Definition fetch_updated (p_flight_id : Z) (st : db)
  : option timestamp * option timestamp * option Z :=
  match find (fun f => Flight.id f =? p_flight_id) (flights st) with
  | Some f => (Flight.actual_arr f, Flight.actual_dep f, Flight.aircraft_id f)
  | None => (None, None, None)
  end.

Definition not_landed_or_cancelled (s : flight_status) : bool :=
  negb (flight_status_eqb s LANDED || flight_status_eqb s CANCELLED).

(** STEP 2, the [WHERE] clause.  A comparison with NULL selects nothing. *)
Definition next_flight_where (v_aircraft_id : option Z) (p_flight_id : Z)
  (v_new_dep : option timestamp) (f : Flight.row) : bool :=
  match v_aircraft_id, v_new_dep with
  | Some a, Some d =>
      opt_Z_eqb (Flight.aircraft_id f) a
      && negb (Flight.id f =? p_flight_id)
      && (d <=? Flight.dep f)
      && not_landed_or_cancelled (Flight.status f)
  | _, _ => false
  end.

(** STEP 2, the query: [(v_next_flight_id, v_next_dep)]. *)
Definition next_flight (v_aircraft_id : option Z) (p_flight_id : Z)
  (v_new_dep : option timestamp) (st : db) : option (Z * timestamp) :=
  match order_by Flight.dep
          (filter (next_flight_where v_aircraft_id p_flight_id v_new_dep) (flights st)) with
  | f :: _ => Some (Flight.id f, Flight.dep f)
  | [] => None
  end.

(** [v_forced_delay]; NULL when [v_new_arr] is.  The quotient lies within
    36 million, so the subtraction stays in range. *)
Definition forced_delay (v_next_dep : timestamp) (v_new_arr : option timestamp)
  : result (option Z) :=
  match v_new_arr with
  | Some a => (m <- minutes_between v_next_dep a ;; Ok (Some (v_min_turnaround - m)))%result
  | None => Ok None
  end.

(** STEP 2, the decision: the recursive call to perform, if any. *)
Definition turnaround_cascade (next : option (Z * timestamp)) (v_new_arr : option timestamp)
  : result (option (Z * Z)) :=
  match next with
  | Some (v_next_flight_id, v_next_dep) =>
      (v_forced_delay <- forced_delay v_next_dep v_new_arr ;;
       match v_forced_delay with
       | Some d => if 0 <? d then Ok (Some (v_next_flight_id, d)) else Ok None
       | None => Ok None
       end)%result
  | None => Ok None
  end.

(** STEP 3, the loop's query: [(booking_id, next_booking_id)]. *)
Definition connecting_bookings (p_flight_id : Z) (st : db) : list (Z * Z) :=
  flat_map (fun b =>
    match Booking.next_booking_id b with
    | Some n =>
        if (Booking.flight_id b =? p_flight_id)
           && booking_status_eqb (Booking.status b) CONFIRMED
        then [(Booking.id b, n)] else []
    | None => []
    end) (bookings st).

(** [bookings b2 JOIN flights f ON b2.flight_id = f.id WHERE b2.id = n]. *)
Definition booking_flight (n : Z) (st : db) : list Flight.row :=
  flat_map (fun b2 =>
    if Booking.id b2 =? n
    then filter (fun f => Flight.id f =? Booking.flight_id b2) (flights st)
    else []) (bookings st).

(** STEP 3, [v_next_flight_dep]. *)
Definition connecting_departure (next_booking_id : Z) (st : db) : option timestamp :=
  match booking_flight next_booking_id st with
  | f :: _ => Some (Flight.dep f)
  | [] => None
  end.

(** STEP 3, the [IF]. *)
Definition connection_broken (v_next_flight_dep v_new_arr : option timestamp) : result bool :=
  match v_next_flight_dep, v_new_arr with
  | Some d, Some a => (m <- minutes_between d a ;; Ok (m <? v_min_connection))%result
  | _, _ => Ok false
  end.

Definition mark_missed (booking_id : Z) (st : db) : db :=
  set_bookings
    (update_rows (fun b => Booking.id b =? booking_id)
                 (Booking.set_status MISSED_CONNECTION) (bookings st)) st.

(** STEP 3, the loop body; returns the new [v_pax_impacted]. *)
Definition check_connection (v_new_arr : option timestamp) (v_booking : Z * Z)
  (v_pax_impacted : Z) : M Z :=
  v_next_flight_dep <-- query (connecting_departure (snd v_booking)) ;;
  broken <-- eval (connection_broken v_next_flight_dep v_new_arr) ;;
  if broken : bool then
    exec (mark_missed (fst v_booking)) ;;;
    exec (mark_missed (snd v_booking)) ;;;
    eval (int4pl v_pax_impacted 1)
  else ret v_pax_impacted.

Fixpoint connection_loop (v_new_arr : option timestamp) (rows : list (Z * Z))
  (v_pax_impacted : Z) : M Z :=
  match rows with
  | [] => ret v_pax_impacted
  | v_booking :: rest =>
      n <-- check_connection v_new_arr v_booking v_pax_impacted ;;
      connection_loop v_new_arr rest n
  end.

Definition connection_check (p_flight_id : Z) (v_new_arr : option timestamp) : M Z :=
  rows <-- query (connecting_bookings p_flight_id) ;;
  connection_loop v_new_arr rows 0.

Definition flight_exists (id : Z) (st : db) : bool :=
  existsb (fun f => Flight.id f =? id) (flights st).

(** STEP 4: the [INSERT], with the two foreign keys of [disruption_log]. *)
Definition insert_disruption_log (r : DisruptionLog.row) : M unit :=
  fun st =>
    if flight_exists (DisruptionLog.flight_id r) st
       && match DisruptionLog.cascaded_from_flight_id r with
          | Some c => flight_exists c st
          | None => true
          end
    then Returned tt (set_disruption_log (disruption_log st ++ [r]) st)
    else Raised foreign_key_violation st.

Definition turnaround_cause (p_flight_id : Z) : string :=
  ("Aircraft turnaround from flight " ++ int4out p_flight_id)%string.

(** The function.  PL/pgSQL recurses through [PERFORM]; the model recurses on
    [fuel], one unit per activation. *)
Fixpoint calculate_blast_radius (fuel : nat) (p_flight_id p_delay_minutes : Z)
  (p_cause : option string) (p_cascaded_from : option Z) (p_depth : Z) : M unit :=
  match fuel with
  | O => fun _ => OutOfFuel
  | S fuel' =>
      if 20 <? p_depth then ret tt
      else
        delay_target p_flight_id p_delay_minutes ;;;
        updated <-- query (fetch_updated p_flight_id) ;;
        let '(v_new_arr, v_new_dep, v_aircraft_id) := updated in
        next <-- query (next_flight v_aircraft_id p_flight_id v_new_dep) ;;
        cascade <-- eval (turnaround_cascade next v_new_arr) ;;
        v_flights_impacted <--
          match cascade with
          | Some (v_next_flight_id, v_forced_delay) =>
              calculate_blast_radius fuel' v_next_flight_id v_forced_delay
                (Some (turnaround_cause p_flight_id)) (Some p_flight_id) (p_depth + 1) ;;;
              ret 1
          | None => ret 0
          end ;;
        v_pax_impacted <-- connection_check p_flight_id v_new_arr ;;
        insert_disruption_log
          (DisruptionLog.mk p_flight_id p_delay_minutes p_cause p_cascaded_from
             v_pax_impacted v_flights_impacted)
  end.

(** Activations nest at most to depth 21, so this much fuel is never used up. *)
Definition enough_fuel (p_depth : Z) : nat := S (Z.to_nat (21 - p_depth)).

(** A call from outside is one transaction: what a failed call wrote is
    rolled back. *)
Definition commit {A} (st : db) (o : outcome A) : db :=
  match o with
  | Returned _ st' => st'
  | Raised _ _ => st
  | OutOfFuel => st
  end.

(** [supabase.rpc('calculate_blast_radius', {..., p_cascaded_from: null,
    p_depth: 0})], as every caller issues it. *)
Definition trigger_delay (flightId delayMinutes : Z) (cause : option string) : M unit :=
  calculate_blast_radius (enough_fuel 0) flightId delayMinutes cause None 0.

Definition rpc_trigger_delay (st : db) (call : Z * Z * option string) : db :=
  let '(flightId, delayMinutes, cause) := call in
  commit st (trigger_delay flightId delayMinutes cause st).

(** *** trigger_random_delay

    The three calls of [RANDOM()] are parameters: [choice] ranks the flight
    that [ORDER BY RANDOM() LIMIT 1] puts first, [u_delay] is
    [FLOOR(RANDOM() * 165)] and [u_cause] is [FLOOR(RANDOM() * 8)]. *)

Local Open Scope string_scope.
Definition v_causes : list string :=
  ["Weather delay"; "ATC congestion"; "Mechanical issue"; "Crew availability";
   "Late incoming aircraft"; "Security screening delay"; "Gate conflict";
   "Baggage handling delay"].
Local Close Scope string_scope.

Definition can_be_delayed (f : Flight.row) : bool :=
  flight_status_eqb (Flight.status f) SCHEDULED
  || flight_status_eqb (Flight.status f) ACTIVE
  || flight_status_eqb (Flight.status f) BOARDING.

Definition random_flight (choice : nat) (st : db) : option Flight.row :=
  let rows := filter can_be_delayed (flights st) in
  nth_error rows (choice mod List.length rows).

Definition trigger_random_delay (choice : nat) (u_delay : Z) (u_cause : nat)
  : M (option (Z * Z * option string)) :=
  picked <-- query (random_flight choice) ;;
  match picked with
  | Some f =>
      let v_flight_id := Flight.id f in
      let v_delay := 15 + u_delay in
      let v_cause := nth_error v_causes u_cause in
      calculate_blast_radius (enough_fuel 0) v_flight_id v_delay v_cause None 0 ;;;
      ret (Some (v_flight_id, v_delay, v_cause))
  | None => ret None
  end.

(** *** reset_simulation *)

Definition reset_flight (f : Flight.row) : Flight.row :=
  Flight.mk (Flight.id f) (Flight.flight_number f) (Flight.aircraft_id f)
    (Flight.origin_code f) (Flight.destination_code f)
    (Flight.scheduled_dep f) (Flight.scheduled_arr f)
    (Some (Flight.scheduled_dep f)) (Some (Flight.scheduled_arr f)) (Some 0) SCHEDULED.

Definition reset_simulation : M unit :=
  exec (fun st => set_flights (map reset_flight (flights st)) st) ;;;
  exec (fun st => set_bookings (map (Booking.set_status CONFIRMED) (bookings st)) st) ;;;
  exec (set_disruption_log []).

(** *** update_flight_statuses

    [now] is [NOW()], the same in the three statements. *)

Definition to_boarding (now : timestamp) (f : Flight.row) : bool :=
  flight_status_eqb (Flight.status f) SCHEDULED
  && (Flight.dep f <=? plus_minutes now 30)
  && (now <? Flight.dep f).

Definition to_active (now : timestamp) (f : Flight.row) : bool :=
  (flight_status_eqb (Flight.status f) BOARDING
   || flight_status_eqb (Flight.status f) DELAYED)
  && (Flight.dep f <=? now)
  && (now <? Flight.arr f).

Definition to_landed (now : timestamp) (f : Flight.row) : bool :=
  flight_status_eqb (Flight.status f) ACTIVE
  && (Flight.arr f <=? now).

Definition update_flight_statuses (now : timestamp) : M unit :=
  exec (fun st => set_flights
          (update_rows (to_boarding now) (Flight.set_status BOARDING) (flights st)) st) ;;;
  exec (fun st => set_flights
          (update_rows (to_active now) (Flight.set_status ACTIVE) (flights st)) st) ;;;
  exec (fun st => set_flights
          (update_rows (to_landed now) (Flight.set_status LANDED) (flights st)) st).

(** *** suggest_rebookings

    Read-only; [now] is [NOW()]. *)

Local Open Scope result_scope.

(** The outer loop's query: the stranded bookings, joined with their
    passenger; each row with the passenger's name. *)
Definition stranded_bookings (st : db) : list (Booking.row * string) :=
  flat_map (fun b =>
    flat_map (fun p =>
      if (Booking.passenger_id b =? Passenger.id p)
         && booking_status_eqb (Booking.status b) MISSED_CONNECTION
         && negb (is_null (Booking.next_booking_id b))
      then [(b, (Passenger.first_name p ++ " " ++ Passenger.last_name p)%string)]
      else []) (passengers st)) (bookings st).

(** The inner loop's [WHERE] clause. *)
Definition candidate_where (v_missed_flight : Flight.row) (now : timestamp)
  (f : Flight.row) : bool :=
  String.eqb (Flight.origin_code f) (Flight.origin_code v_missed_flight)
  && String.eqb (Flight.destination_code f) (Flight.destination_code v_missed_flight)
  && (now <? Flight.dep f)
  && not_landed_or_cancelled (Flight.status f)
  && negb (Flight.id f =? Flight.id v_missed_flight).

(** [flights f JOIN aircraft a ON f.aircraft_id = a.id WHERE ...]: a flight
    with its aircraft's capacity. *)
Definition candidate_rows (v_missed_flight : Flight.row) (now : timestamp) (st : db)
  : list (Flight.row * Z) :=
  flat_map (fun f =>
    flat_map (fun a =>
      if opt_Z_eqb (Flight.aircraft_id f) (Aircraft.id a)
         && candidate_where v_missed_flight now f
      then [(f, Aircraft.capacity a)] else []) (aircraft st)) (flights st).

Definition candidate_dep (c : Flight.row * Z) : timestamp := Flight.dep (fst c).

(** The inner loop's query: [ORDER BY dep ASC LIMIT 3]. *)
Definition rebooking_candidates (v_missed_flight : Flight.row) (now : timestamp) (st : db)
  : list (Flight.row * Z) :=
  firstn 3 (order_by candidate_dep (candidate_rows v_missed_flight now st)).

Definition v_booked_seats (flight_id : Z) (st : db) : Z :=
  count_rows (fun b =>
    (Booking.flight_id b =? flight_id)
    && (booking_status_eqb (Booking.status b) CONFIRMED
        || booking_status_eqb (Booking.status b) REBOOKED)) (bookings st).

Definition available (c : Flight.row * Z) (st : db) : Z :=
  snd c - v_booked_seats (Flight.id (fst c)) st.

(** The inner loop: [RETURN NEXT] and [EXIT] at the first candidate with a
    free seat. *)
Fixpoint first_available (v_booking : Booking.row * string) (v_missed_flight : Flight.row)
  (candidates : list (Flight.row * Z)) (st : db) : result (option Suggestion.row) :=
  match candidates with
  | [] => Ok None
  | v_suggested :: rest =>
      if 0 <? available v_suggested st then
        saved <- minutes_between (Flight.arr v_missed_flight) (Flight.arr (fst v_suggested)) ;;
        Ok (Some (Suggestion.mk
              (Booking.id (fst v_booking)) (snd v_booking)
              (Booking.passenger_id (fst v_booking))
              (Flight.flight_number v_missed_flight)
              (Flight.origin_code v_missed_flight)
              (Flight.destination_code v_missed_flight)
              (Flight.id (fst v_suggested))
              (Flight.flight_number (fst v_suggested))
              (Flight.dep (fst v_suggested))
              (Flight.arr (fst v_suggested))
              (available v_suggested st)
              saved))
      else first_available v_booking v_missed_flight rest st
  end.

(** One pass of the outer loop. *)
Definition suggest_for (now : timestamp) (st : db) (v_booking : Booking.row * string)
  : result (option Suggestion.row) :=
  match Booking.next_booking_id (fst v_booking) with
  | Some n =>
      match booking_flight n st with
      | v_missed_flight :: _ =>
          first_available v_booking v_missed_flight
            (rebooking_candidates v_missed_flight now st) st
      | [] => Ok None
      end
  | None => Ok None
  end.

Fixpoint suggest_loop (now : timestamp) (st : db) (rows : list (Booking.row * string))
  : result (list Suggestion.row) :=
  match rows with
  | [] => Ok []
  | v_booking :: rest =>
      s <- suggest_for now st v_booking ;;
      l <- suggest_loop now st rest ;;
      Ok (match s with
          | Some r => r :: l
          | None => l
          end)
  end.

Definition suggest_rebookings (now : timestamp) (st : db) : result (list Suggestion.row) :=
  suggest_loop now st (stranded_bookings st).

(** *** fetchWorldState (server) *)

Definition is_delayed (f : Flight.row) : bool := flight_status_eqb (Flight.status f) DELAYED.

Definition is_missed (b : Booking.row) : bool :=
  booking_status_eqb (Booking.status b) MISSED_CONNECTION.

Definition fetchWorldState (st : db) : WorldState.t :=
  WorldState.mk
    (flights st)
    (map Booking.id
       (filter (fun b => is_missed b && negb (is_null (Booking.next_booking_id b)))
               (bookings st)))
    (Metrics.mk
       (count_rows is_delayed (flights st))
       (count_rows is_missed (bookings st))
       (fold_left (fun s f => s + COALESCE (Flight.delay_minutes f) 0)
                  (filter is_delayed (flights st)) 0)
       (Z.of_nat (List.length
          (nodup Z.eq_dec (map Booking.passenger_id (filter is_missed (bookings st))))))).

(** *** save_simulation_snapshot (schema_extensions.sql) *)

(** An element of [missed_connections_data]. *)
Module MissedConnection.
Record row : Type := mk {
  booking_id : Z;
  passenger_name : string;
  from_flight : string;
  missed_flight : option string
}.
End MissedConnection.

(** [LEFT JOIN]: the matching rows, or one row of NULLs. *)
Definition left_join {A} (matches : list A) : list (option A) :=
  match matches with
  | [] => [None]
  | _ => map Some matches
  end.

(** "Capture missed connections": [bookings b JOIN passengers p JOIN flights
    f1 LEFT JOIN bookings b2 LEFT JOIN flights f2 WHERE b.status =
    'MISSED_CONNECTION']. *)
Definition snapshot_missed_connections (st : db) : list MissedConnection.row :=
  flat_map (fun b =>
    if is_missed b then
      flat_map (fun p =>
        flat_map (fun f1 =>
          flat_map (fun b2 =>
            map (fun f2 =>
                   MissedConnection.mk (Booking.id b)
                     (Passenger.first_name p ++ " " ++ Passenger.last_name p)%string
                     (Flight.flight_number f1)
                     (option_map Flight.flight_number f2))
                (left_join
                   match b2 with
                   | Some b2 => filter (fun f => Flight.id f =? Booking.flight_id b2) (flights st)
                   | None => []
                   end))
            (left_join
               match Booking.next_booking_id b with
               | Some n => filter (fun x => Booking.id x =? n) (bookings st)
               | None => []
               end))
          (filter (fun f => Flight.id f =? Booking.flight_id b) (flights st)))
        (filter (fun p => Passenger.id p =? Booking.passenger_id b) (passengers st))
    else []) (bookings st).

(** [SUM]: over the values that are not NULL; NULL when there is none. *)
Fixpoint sql_sum (xs : list (option Z)) : option Z :=
  match xs with
  | [] => None
  | x :: rest =>
      match x, sql_sum rest with
      | Some v, Some s => Some (v + s)
      | Some v, None => Some v
      | None, r => r
      end
  end.

(** "Compute metrics". *)
Definition snapshot_metrics (st : db) : Metrics.t :=
  Metrics.mk
    (count_rows is_delayed (flights st))
    (count_rows is_missed (bookings st))
    (COALESCE (sql_sum (map Flight.delay_minutes (filter is_delayed (flights st)))) 0)
    (Z.of_nat (List.length
       (nodup Z.eq_dec (map Booking.passenger_id (filter is_missed (bookings st)))))).

(** The function: the snapshot row of the model keeps the label, the flights
    and the metrics; [snapshot_missed_connections] is what is stored beside
    them. *)
Definition save_simulation_snapshot (p_label : string) : M unit :=
  exec (fun st =>
    mk_db (aircraft st) (flights st) (passengers st) (bookings st) (disruption_log st)
          (simulation_snapshots st
           ++ [Snapshot.mk p_label (flights st) (snapshot_metrics st)])).

(** *** Scenarios (server, [/api/simulate/scenario]; the edge function
    [chaos-simulator] has the same catalog and the same two loops) *)

Module Scenario.
Record config : Type := mk {
  label : string;
  airport : string;
  delays : list Z;
  cause : string
}.
End Scenario.

Local Open Scope string_scope.
Definition SCENARIOS : list (string * Scenario.config) :=
  [("snowstorm_jfk",
    Scenario.mk "Snowstorm at JFK" "JFK" [120; 180; 240]
      "Heavy snowstorm — JFK ground stop");
   ("crew_strike_lhr",
    Scenario.mk "Crew Strike at LHR" "LHR" [90; 150; 200]
      "Cabin crew industrial action — LHR");
   ("fog_cdg",
    Scenario.mk "Dense Fog at CDG" "CDG" [60; 90; 120]
      "Dense fog — CDG low visibility operations");
   ("atc_failure_fra",
    Scenario.mk "ATC System Failure at FRA" "FRA" [100; 140; 180]
      "ATC radar system failure — FRA ground stop");
   ("typhoon_hnd",
    Scenario.mk "Typhoon near HND" "HND" [180; 240; 300]
      "Typhoon approach — HND departures suspended")].
Local Close Scope string_scope.

(** The flights one phase of a scenario calls on: those leaving (or reaching)
    the airport whose status is SCHEDULED, BOARDING or ACTIVE, all of them,
    in the order of the table. *)
Definition scenario_departures (config : Scenario.config) (st : db) : list Flight.row :=
  filter (fun f => String.eqb (Flight.origin_code f) (Scenario.airport config)
                   && can_be_delayed f) (flights st).

Definition scenario_arrivals (config : Scenario.config) (st : db) : list Flight.row :=
  filter (fun f => String.eqb (Flight.destination_code f) (Scenario.airport config)
                   && can_be_delayed f) (flights st).

(** [config.delays[Math.floor(Math.random() * config.delays.length)]]; [draw]
    stands for the index drawn. *)
Definition pick_delay (delays : list Z) (draw : nat) : Z :=
  nth (draw mod List.length delays) delays 0.

(** [Math.floor(config.delays[0] * 0.5)]. *)
Definition arrival_hold (delays : list Z) : Z := hd 0 delays / 2.

(** One loop: a call per flight, each a transaction of its own; a call that
    fails is passed over, one that succeeds is pushed on [results]. *)
Fixpoint scenario_calls (cause : string) (calls : list (Flight.row * Z)) (st : db)
  : db * list (string * Z) :=
  match calls with
  | [] => (st, [])
  | (flight, delay) :: rest =>
      match trigger_delay (Flight.id flight) delay (Some cause) st with
      | Returned _ st' =>
          let '(st'', results) := scenario_calls cause rest st' in
          (st'', (Flight.flight_number flight, delay) :: results)
      | _ => scenario_calls cause rest st
      end
  end.

(** The two loops; [draws k] is the index drawn for the [k]-th departure. *)
Definition apply_scenario (config : Scenario.config) (draws : nat -> nat) (st : db)
  : db * list (string * Z) :=
  let affected := scenario_departures config st in
  let '(st1, results) :=
    scenario_calls (Scenario.cause config)
      (map (fun kf => (snd kf, pick_delay (Scenario.delays config) (draws (fst kf))))
           (combine (seq 0 (List.length affected)) affected)) st in
  let arrivals := scenario_arrivals config st1 in
  let '(st2, more) :=
    scenario_calls (Scenario.cause config ++ " (arrival hold)")%string
      (map (fun f => (f, arrival_hold (Scenario.delays config))) arrivals) st1 in
  (st2, results ++ more).

(** The endpoint, for a scenario of the catalog: the two loops, then the
    snapshot; the response carries [results]. *)
Definition simulate_scenario (config : Scenario.config) (draws : nat -> nat) (st : db)
  : db * list (string * Z) :=
  let '(st2, results) := apply_scenario config draws st in
  (commit st2 (save_simulation_snapshot ("Scenario: " ++ Scenario.label config)%string st2),
   results).

(** The log rows of the flights that were named from outside. *)
Definition root_rows (st : db) : list DisruptionLog.row :=
  filter (fun r => is_null (DisruptionLog.cascaded_from_flight_id r)) (disruption_log st).

(* ================================================================= *)
(** ** Reading the claims: predicates and sample databases *)

Local Close Scope result_scope.
Local Close Scope stmt_scope.

Definition minutes (n : Z) : Z := n * USECS_PER_MINUTE.

(** The cumulative delay of a flight, NULL read as 0 (as STEP 1 reads it). *)
Definition cumulative_delay (f : Flight.row) : Z := COALESCE (Flight.delay_minutes f) 0.

(** A flight the turnaround cascade may pick: same aircraft, another flight,
    neither landed nor cancelled, departing at or after [t]. *)
Definition turnaround_eligible (a p : Z) (t : timestamp) (f : Flight.row) : Prop :=
  Flight.aircraft_id f = Some a
  /\ Flight.id f <> p
  /\ Flight.status f <> LANDED
  /\ Flight.status f <> CANCELLED
  /\ t <= Flight.dep f.

(** The candidate as the specification words it: the earliest eligible flight
    departing at or after the updated flight's new ARRIVAL. *)
Definition spec_next_flight (v_aircraft_id : option Z) (p_flight_id : Z)
  (v_new_arr : option timestamp) (st : db) : option (Z * timestamp) :=
  next_flight v_aircraft_id p_flight_id v_new_arr st.

(** A sample flight on the route JFK to LHR, times in minutes. *)
Definition sample_flight (id : Z) (ac : option Z) (dep arr : Z) (s : flight_status)
  : Flight.row :=
  Flight.mk id "FL" ac "JFK" "LHR" (minutes dep) (minutes arr) None None None s.

(** One aircraft flying three legs; the second leaves 30 minutes after the
    first lands. *)
Definition rotation_db : db :=
  mk_db [Aircraft.mk 1 "N101" "A320" 180]
    [sample_flight 1 (Some 1) 0 120 SCHEDULED;
     sample_flight 2 (Some 1) 150 300 SCHEDULED;
     sample_flight 3 (Some 1) 400 500 SCHEDULED]
    [] [] [] [].

(** [rotation_db] once STEP 1 has delayed flight 1 by 60 minutes: it now
    leaves at minute 60 and lands at minute 180. *)
Definition rotation_db_delayed : db :=
  commit rotation_db (delay_target 1 60 rotation_db).

(** One aircraft, two legs: flight 1 lands at minute 120, flight 2 leaves
    [gap] minutes after minute 150 (where flight 1 lands once delayed by 30). *)
Definition turnaround_db (gap : Z) : db :=
  mk_db [Aircraft.mk 1 "N101" "A320" 180]
    [sample_flight 1 (Some 1) 0 120 SCHEDULED;
     sample_flight 2 (Some 1) (150 + gap) 400 SCHEDULED]
    [] [] [] [].

(** The log as (flight, delay, caused by, flights impacted). *)
Definition log_summary (st : db) : list (Z * Z * option Z * Z) :=
  map (fun r => (DisruptionLog.flight_id r, DisruptionLog.delay_minutes r,
                 DisruptionLog.cascaded_from_flight_id r,
                 DisruptionLog.flights_impacted r)) (disruption_log st).

Definition delays (st : db) : list (Z * option Z) :=
  map (fun f => (Flight.id f, Flight.delay_minutes f)) (flights st).

(** A passenger connecting from flight 1 (landing at minute 120, at minute
    150 once delayed by 30) to flight 2 of another aircraft, which leaves [gap]
    minutes after minute 150. *)
Definition connection_db (gap : Z) : db :=
  mk_db [Aircraft.mk 1 "N101" "A320" 180; Aircraft.mk 2 "N102" "B738" 160]
    [sample_flight 1 (Some 1) 0 120 SCHEDULED;
     sample_flight 2 (Some 2) (150 + gap) 400 SCHEDULED]
    [Passenger.mk 1 "Ada" "Byron"]
    [Booking.mk 1 1 1 (Some 2) CONFIRMED; Booking.mk 2 1 2 None CONFIRMED]
    [] [].

Definition booking_statuses (st : db) : list (Z * booking_status) :=
  map (fun b => (Booking.id b, Booking.status b)) (bookings st).

(** One aircraft flying 25 legs back to back, each leaving exactly 45 minutes
    after the one before lands: a delay of the first leg is handed down the
    whole rotation. *)
Definition chain_flight (k : nat) : Flight.row :=
  sample_flight (Z.of_nat k) (Some 1) (200 * Z.of_nat k) (200 * Z.of_nat k + 155) SCHEDULED.

Definition long_rotation_db : db :=
  mk_db [Aircraft.mk 1 "N101" "A320" 180] (map chain_flight (seq 1 25)) [] [] [] [].

(** Two legs of one aircraft with the same departure time: each is the
    other's next flight. *)
Definition cyclic_db : db :=
  mk_db [Aircraft.mk 1 "N101" "A320" 180]
    [sample_flight 1 (Some 1) 0 100 SCHEDULED;
     sample_flight 2 (Some 1) 0 100 SCHEDULED]
    [] [] [] [].

(** The lifecycle ticking at the times [ticks], one call after the other. *)
Definition run_ticks (ticks : list timestamp) (st : db) : db :=
  fold_left (fun s now => commit s (update_flight_statuses now s)) ticks st.

Definition flight_statuses (st : db) : list (Z * flight_status) :=
  map (fun f => (Flight.id f, Flight.status f)) (flights st).

(** Flight 1 is still SCHEDULED although its departure (minute 0) has passed;
    flight 2 leaves at minute 100, flight 3 is delayed and due at minute 20. *)
Definition overdue_db : db :=
  mk_db [Aircraft.mk 1 "N101" "A320" 180]
    [sample_flight 1 (Some 1) 0 120 SCHEDULED;
     sample_flight 2 (Some 1) 100 200 SCHEDULED;
     sample_flight 3 None 20 90 DELAYED]
    [] [] [] [].

(** A database in disorder: a delayed flight, a missed connection, a log row
    and a snapshot. *)
Definition disrupted_db : db :=
  mk_db [Aircraft.mk 1 "N101" "A320" 180]
    [Flight.mk 1 "FL1" (Some 1) "JFK" "LHR" (minutes 0) (minutes 120)
       (Some (minutes 60)) (Some (minutes 180)) (Some 60) DELAYED;
     sample_flight 2 None 150 300 LANDED]
    [Passenger.mk 1 "Ada" "Byron"]
    [Booking.mk 1 1 1 (Some 2) MISSED_CONNECTION; Booking.mk 2 1 2 None MISSED_CONNECTION]
    [DisruptionLog.mk 1 60 (Some "Weather delay"%string) None 1 0]
    [Snapshot.mk "Manual Delay: Weather delay" [] (Metrics.mk 1 2 60 1)].

(** The operations of the engine, each run as one transaction. *)
Inductive operation : Type :=
| TriggerDelay (flightId delayMinutes : Z) (cause : option string)
| TriggerRandomDelay (choice : nat) (u_delay : Z) (u_cause : nat)
| AdvanceLifecycle (now : timestamp)
| ResetSimulation
| InitializeFlightTimes.

Definition run_operation (st : db) (op : operation) : db :=
  match op with
  | TriggerDelay flightId delayMinutes cause =>
      rpc_trigger_delay st (flightId, delayMinutes, cause)
  | TriggerRandomDelay choice u_delay u_cause =>
      commit st (trigger_random_delay choice u_delay u_cause st)
  | AdvanceLifecycle now => commit st (update_flight_statuses now st)
  | ResetSimulation => commit st (reset_simulation st)
  | InitializeFlightTimes => commit st (initialize_flight_times st)
  end.

Definition run_operations (ops : list operation) (st : db) : db :=
  fold_left run_operation ops st.



(** The invariant of an initialized flight: the actual departure is the
    scheduled one plus the cumulative delay, and the flight takes as long as
    scheduled. *)
Definition flight_invariant (f : Flight.row) : Prop :=
  exists d a,
    Flight.actual_dep f = Some d
    /\ Flight.actual_arr f = Some a
    /\ d = Flight.scheduled_dep f + minutes (cumulative_delay f)
    /\ a - d = Flight.scheduled_arr f - Flight.scheduled_dep f.

(** [f'] is the flight [f] later on, and has the invariant if [f] had it. *)
Definition keeps_invariant (f f' : Flight.row) : Prop :=
  Flight.id f' = Flight.id f
  /\ Flight.scheduled_dep f' = Flight.scheduled_dep f
  /\ Flight.scheduled_arr f' = Flight.scheduled_arr f
  /\ (flight_invariant f -> flight_invariant f').

(** [f'] is the flight [f] later on, with no less delay. *)
Definition delay_grows (f f' : Flight.row) : Prop :=
  Flight.id f' = Flight.id f
  /\ cumulative_delay f <= cumulative_delay f'.

(** A flight offered in place of [missed]: same origin and destination,
    leaving after [now], neither landed nor cancelled, not [missed] itself. *)
Definition on_route (missed : Flight.row) (now : timestamp) (f : Flight.row) : Prop :=
  Flight.origin_code f = Flight.origin_code missed
  /\ Flight.destination_code f = Flight.destination_code missed
  /\ now < Flight.dep f
  /\ Flight.status f <> LANDED
  /\ Flight.status f <> CANCELLED
  /\ Flight.id f <> Flight.id missed.

(** A candidate: such a flight of the database, with the capacity of its
    aircraft. *)
Definition is_candidate (missed : Flight.row) (now : timestamp) (st : db)
  (c : Flight.row * Z) : Prop :=
  In (fst c) (flights st)
  /\ on_route missed now (fst c)
  /\ exists a, In a (aircraft st)
       /\ Flight.aircraft_id (fst c) = Some (Aircraft.id a)
       /\ snd c = Aircraft.capacity a.

Definition option_list {A} (o : option A) : list A :=
  match o with
  | Some a => [a]
  | None => []
  end.

(** A passenger who missed flight 20 (JFK to LHR, due in LHR at minute 500).
    At minute 150 four later flights on the route remain: 21 and 22 are full,
    23 has one seat left, 24 has five. *)
Definition rebooking_db : db :=
  mk_db
    [Aircraft.mk 1 "N101" "A320" 1; Aircraft.mk 2 "N102" "A320" 1;
     Aircraft.mk 3 "N103" "A321" 2; Aircraft.mk 4 "N104" "B738" 5]
    [Flight.mk 10 "FL10" (Some 4) "BOS" "JFK" (minutes 0) (minutes 60)
       (Some (minutes 90)) (Some (minutes 150)) (Some 90) DELAYED;
     Flight.mk 20 "FL20" (Some 1) "JFK" "LHR" (minutes 100) (minutes 500)
       None None None ACTIVE;
     Flight.mk 24 "FL24" (Some 4) "JFK" "LHR" (minutes 450) (minutes 950)
       None None None SCHEDULED;
     Flight.mk 23 "FL23" (Some 3) "JFK" "LHR" (minutes 400) (minutes 900)
       None None None SCHEDULED;
     Flight.mk 22 "FL22" (Some 2) "JFK" "LHR" (minutes 300) (minutes 700)
       None None None SCHEDULED;
     Flight.mk 21 "FL21" (Some 1) "JFK" "LHR" (minutes 200) (minutes 600)
       None None None SCHEDULED]
    [Passenger.mk 1 "Ada" "Byron"; Passenger.mk 2 "Alan" "Turing"]
    [Booking.mk 1 1 10 (Some 2) MISSED_CONNECTION;
     Booking.mk 2 1 20 None MISSED_CONNECTION;
     Booking.mk 3 2 21 None CONFIRMED;
     Booking.mk 4 2 22 None REBOOKED;
     Booking.mk 5 2 23 None CONFIRMED;
     Booking.mk 6 2 23 None BOOKING_CANCELLED]
    [] [].

(** Whether the check of one row of the loop finds the connection broken. *)
Definition broken_link (v_new_arr : option timestamp) (st : db) (v_booking : Z * Z) : bool :=
  match connection_broken (connecting_departure (snd v_booking) st) v_new_arr with
  | Ok true => true
  | _ => false
  end.

(** A booking row is hit by the loop over [rows] when a row of the loop with a
    broken connection names it, as the booking or as its forward link. *)
Definition hit_by (v_new_arr : option timestamp) (st : db) (rows : list (Z * Z))
  (b : Booking.row) : Prop :=
  exists v_booking, In v_booking rows
    /\ broken_link v_new_arr st v_booking = true
    /\ (Booking.id b = fst v_booking \/ Booking.id b = snd v_booking).

(** What STEP 3 may do to a booking row: nothing, or mark it. *)
Definition marked_or_kept (hit : Booking.row -> Prop) (b b' : Booking.row) : Prop :=
  b' = b \/ (b' = Booking.set_status MISSED_CONNECTION b /\ hit b).

(** What the join of STEP 3 reads of a booking. *)
Definition booking_key (b : Booking.row) : Z * Z := (Booking.id b, Booking.flight_id b).

(** The model had fuel enough. *)
Definition finished {A} (o : outcome A) : bool :=
  match o with
  | OutOfFuel => false
  | _ => true
  end.

(** One tick on one row. *)
Definition tick_flight (now : timestamp) (f : Flight.row) : Flight.row :=
  let f1 := if to_boarding now f then Flight.set_status BOARDING f else f in
  let f2 := if to_active now f1 then Flight.set_status ACTIVE f1 else f1 in
  if to_landed now f2 then Flight.set_status LANDED f2 else f2.

(** Rows in ascending order of a key. *)
Definition key_le {A} (key : A -> Z) (x y : A) : Prop := key x <= key y.

(** [connection_db 29] after STEP 1 (flight 1 delayed by 30 minutes, landing
    at minute 150), and after STEP 3. *)
Definition connection_db_delayed : db :=
  commit (connection_db 29) (delay_target 1 30 (connection_db 29)).

Definition connection_db_checked : db :=
  commit connection_db_delayed
         (connection_check 1 (Some (minutes 150)) connection_db_delayed).

(** [long_rotation_db] after a delay of 10 minutes of flight 1. *)
Definition long_rotation_db_delayed : db :=
  commit long_rotation_db (trigger_delay 1 10 None long_rotation_db).

(** [rotation_db] with the actual times set, and then flight 1 delayed by 60
    minutes. *)
Definition rotation_db_initialized : db :=
  run_operation rotation_db InitializeFlightTimes.

Definition rotation_db_disrupted : db :=
  run_operation rotation_db_initialized (TriggerDelay 1 60 None).

(** The primary keys of the schema. *)
Definition flights_pkey (st : db) : Prop := NoDup (map Flight.id (flights st)).

(** What a cascade started on flight [p] with a delay of [d] minutes does to a
    flight [f] of the database [st]: the target is delayed by [d]; another
    flight is left alone, or it shares the target's aircraft, was neither
    landed nor cancelled, left no earlier than the target now does, and is
    delayed once, by a positive number of minutes. *)
Definition cascade_footprint (p d : Z) (st : db) (f f' : Flight.row) : Prop :=
  (Flight.id f = p -> delay_flight d f = Ok f')
  /\ (Flight.id f <> p ->
      f' = f
      \/ exists target target' forced,
           In target (flights st) /\ Flight.id target = p
           /\ delay_flight d target = Ok target'
           /\ Flight.aircraft_id target <> None
           /\ Flight.aircraft_id f = Flight.aircraft_id target
           /\ Flight.dep target' <= Flight.dep f
           /\ Flight.status f <> LANDED /\ Flight.status f <> CANCELLED
           /\ 0 < forced /\ delay_flight forced f = Ok f').

(** The same, seen from the database as STEP 1 left it: [a] and [D] are the
    aircraft and the new departure that were fetched for the target. *)
Definition cascade_step (a : option Z) (D : option timestamp) (p : Z)
  (f f' : Flight.row) : Prop :=
  (Flight.id f = p -> f' = f)
  /\ (Flight.id f <> p ->
      f' = f
      \/ exists a0 D0 forced,
           a = Some a0 /\ D = Some D0
           /\ Flight.aircraft_id f = Some a0
           /\ D0 <= Flight.dep f
           /\ Flight.status f <> LANDED /\ Flight.status f <> CANCELLED
           /\ 0 < forced /\ delay_flight forced f = Ok f').

(** A row the cascade wrote for a flight further down the rotation: it names
    the flight it was handed down from, in the cause too, and delays by a
    positive number of minutes. *)
Definition cascade_row (r : DisruptionLog.row) : Prop :=
  exists k,
    DisruptionLog.cascaded_from_flight_id r = Some k
    /\ DisruptionLog.cause r = Some (turnaround_cause k)
    /\ 0 < DisruptionLog.delay_minutes r.

(** What no operation of the engine writes of a flight: its id, number,
    aircraft, route and schedule. *)
Definition same_flight (f f' : Flight.row) : Prop :=
  Flight.id f' = Flight.id f
  /\ Flight.flight_number f' = Flight.flight_number f
  /\ Flight.aircraft_id f' = Flight.aircraft_id f
  /\ Flight.origin_code f' = Flight.origin_code f
  /\ Flight.destination_code f' = Flight.destination_code f
  /\ Flight.scheduled_dep f' = Flight.scheduled_dep f
  /\ Flight.scheduled_arr f' = Flight.scheduled_arr f.

(** What the engine writes of a booking: its status only. *)
Definition same_booking (b b' : Booking.row) : Prop :=
  Booking.id b' = Booking.id b
  /\ Booking.passenger_id b' = Booking.passenger_id b
  /\ Booking.flight_id b' = Booking.flight_id b
  /\ Booking.next_booking_id b' = Booking.next_booking_id b.

(** A booking a cascade has passed over: untouched, or marked as missed. *)
Definition kept_or_missed (b b' : Booking.row) : Prop :=
  b' = b \/ b' = Booking.set_status MISSED_CONNECTION b.

(** A flight a cascade has passed over: untouched, or delayed. *)
Definition kept_or_delayed (f f' : Flight.row) : Prop :=
  same_flight f f' /\ (f' = f \/ Flight.status f' = DELAYED).


(** One tick on one flight: no change, or one step of the lifecycle, taken
    when its condition on the effective times holds. *)
Definition lifecycle_step (now : timestamp) (f f' : Flight.row) : Prop :=
  f' = f
  \/ (Flight.status f = SCHEDULED /\ f' = Flight.set_status BOARDING f
      /\ now < Flight.dep f <= plus_minutes now 30)
  \/ ((Flight.status f = BOARDING \/ Flight.status f = DELAYED)
      /\ f' = Flight.set_status ACTIVE f
      /\ Flight.dep f <= now < Flight.arr f)
  \/ (Flight.status f = ACTIVE /\ f' = Flight.set_status LANDED f
      /\ Flight.arr f <= now).

(** What an operation keeps: the reference tables and snapshots, and the
    identity of every flight and booking. *)
Definition same_network (st st' : db) : Prop :=
  aircraft st' = aircraft st
  /\ passengers st' = passengers st
  /\ simulation_snapshots st' = simulation_snapshots st
  /\ Forall2 same_flight (flights st) (flights st')
  /\ Forall2 same_booking (bookings st) (bookings st').

(** What a run of delays leaves behind: the reference tables and the
    snapshots as they were, every flight untouched or delayed and with no
    less delay, every booking untouched or marked as missed. *)
Definition delays_only (st st' : db) : Prop :=
  aircraft st' = aircraft st
  /\ passengers st' = passengers st
  /\ simulation_snapshots st' = simulation_snapshots st
  /\ Forall2 delay_grows (flights st) (flights st')
  /\ Forall2 kept_or_delayed (flights st) (flights st')
  /\ Forall2 kept_or_missed (bookings st) (bookings st').

(** A flight a scenario may call on in the database [st]. *)
Definition scenario_target (config : Scenario.config) (st : db) (f : Flight.row) : Prop :=
  In f (flights st) /\ can_be_delayed f = true
  /\ (Flight.origin_code f = Scenario.airport config
      \/ Flight.destination_code f = Scenario.airport config).

(** Between two states of the flights table, the flight with the id of [fc]
    ends DELAYED with at least [d] more minutes of cumulative delay. *)
Definition delayed_by (fc : Flight.row) (d : Z) (g g' : Flight.row) : Prop :=
  Flight.id g' = Flight.id g
  /\ (Flight.id g = Flight.id fc ->
      Flight.status g' = DELAYED /\ cumulative_delay g + d <= cumulative_delay g').

(** The first scenario of the catalog. *)
Definition snowstorm_jfk : Scenario.config :=
  Scenario.mk "Snowstorm at JFK" "JFK" [120; 180; 240]
    "Heavy snowstorm — JFK ground stop".



(* ================================================================= *)
(** ** Lemmas on the SQL layer *)

Lemma rbind_Ok {A B} (r : result A) (k : A -> result B) (b : B) :
  rbind r k = Ok b -> exists a, r = Ok a /\ k a = Ok b.
Proof.
  destruct r as [a|e]; simpl; intros H; [exists a; auto | discriminate].
Qed.

Lemma bind_Returned {A B} (m : M A) (k : A -> M B) st b st' :
  bind m k st = Returned b st' ->
  exists a st1, m st = Returned a st1 /\ k a st1 = Returned b st'.
Proof.
  unfold bind. destruct (m st) as [a st1|e st1|]; intros H; try discriminate.
  exists a, st1. auto.
Qed.

Lemma to_int4_Ok n m : to_int4 n = Ok m -> m = n /\ int4_min <= n <= int4_max.
Proof.
  unfold to_int4, in_int4. destruct (int4_min <=? n) eqn:E1; simpl; try discriminate.
  destruct (n <=? int4_max) eqn:E2; try discriminate.
  intros H; inversion H; subst. apply Z.leb_le in E1, E2. lia.
Qed.

Lemma timestamp_pl_minutes_Ok t n r :
  timestamp_pl_minutes t n = Ok r -> r = t + n * USECS_PER_MINUTE.
Proof.
  unfold timestamp_pl_minutes. destruct (IS_VALID_TIMESTAMP _); intros H;
    inversion H; reflexivity.
Qed.

(** Whole minutes apart, within the 32-bit range of seconds, are counted
    exactly. *)
Lemma minutes_between_whole t n :
  -35000000 <= n <= 35000000 ->
  minutes_between (t + minutes n) t = Ok n.
Proof.
  intros Hn. unfold minutes_between, timestamp_mi, minutes, USECS_PER_MINUTE.
  replace (t + n * 60000000 - t) with (60 * n * 1000000) by lia.
  unfold int8_min, int8_max.
  replace (-9223372036854775808 <=? 60 * n * 1000000) with true
    by (symmetry; apply Z.leb_le; lia).
  replace (60 * n * 1000000 <=? 9223372036854775807) with true
    by (symmetry; apply Z.leb_le; lia).
  cbn [andb rbind].
  assert (Hr : numeric_round (60 * n * 1000000) = 60 * n).
  { unfold numeric_round, USECS_PER_SEC.
    destruct (0 <=? 60 * n * 1000000) eqn:E.
    - apply Z.leb_le in E.
      replace (2 * (60 * n * 1000000) + 1000000) with (1000000 + (60 * n) * (2 * 1000000)) by lia.
      rewrite Z.div_add by lia. reflexivity.
    - apply Z.leb_gt in E.
      replace (2 * - (60 * n * 1000000) + 1000000) with (1000000 + (- (60 * n)) * (2 * 1000000)) by lia.
      rewrite Z.div_add by lia. simpl. lia. }
  rewrite Hr. unfold to_int4, in_int4, int4_min, int4_max.
  replace (-2147483648 <=? 60 * n) with true by (symmetry; apply Z.leb_le; lia).
  replace (60 * n <=? 2147483647) with true by (symmetry; apply Z.leb_le; lia).
  cbn [andb rbind]. f_equal. replace (60 * n) with (n * 60) by lia. apply Z.quot_mul. lia.
Qed.

(** *** ORDER BY *)

Lemma insert_by_perm {A} (key : A -> Z) x l : Permutation (x :: l) (insert_by key x l).
Proof.
  induction l as [|y l IH]; simpl; [reflexivity|].
  destruct (key x <=? key y); [reflexivity|].
  rewrite perm_swap. constructor. exact IH.
Qed.

Lemma order_by_perm {A} (key : A -> Z) l : Permutation l (order_by key l).
Proof.
  induction l as [|x l IH]; simpl; [constructor|].
  rewrite <- insert_by_perm. constructor. exact IH.
Qed.

Lemma order_by_In {A} (key : A -> Z) l x : In x (order_by key l) <-> In x l.
Proof.
  split; apply Permutation_in; [symmetry|]; apply order_by_perm.
Qed.

Lemma insert_by_sorted {A} (key : A -> Z) x l :
  Sorted (key_le key) l -> Sorted (key_le key) (insert_by key x l).
Proof.
  induction 1 as [|y l Hs IH Hhd]; simpl.
  - repeat constructor.
  - destruct (key x <=? key y) eqn:E.
    + apply Z.leb_le in E. repeat constructor; auto.
    + apply Z.leb_gt in E. constructor; auto.
      destruct l as [|z l]; simpl in *.
      * repeat constructor. unfold key_le. lia.
      * destruct (key x <=? key z) eqn:E2.
        -- constructor. unfold key_le. lia.
        -- inversion Hhd; subst. constructor. assumption.
Qed.

Lemma order_by_sorted {A} (key : A -> Z) l : Sorted (key_le key) (order_by key l).
Proof.
  induction l as [|x l IH]; simpl; [constructor|].
  apply insert_by_sorted. exact IH.
Qed.

Lemma order_by_strongly_sorted {A} (key : A -> Z) l :
  StronglySorted (key_le key) (order_by key l).
Proof.
  apply Sorted_StronglySorted; [|apply order_by_sorted].
  intros x y z; unfold key_le; lia.
Qed.

(** The first row of an ordered result has the least key. *)
Lemma order_by_head_least {A} (key : A -> Z) l x rest :
  order_by key l = x :: rest -> forall y, In y l -> key x <= key y.
Proof.
  intros H y Hy. pose proof (order_by_strongly_sorted key l) as Hs.
  rewrite H in Hs. inversion Hs as [|? ? _ Hall]; subst.
  apply (order_by_In key) in Hy. rewrite H in Hy. destruct Hy as [->|Hy]; [lia|].
  rewrite Forall_forall in Hall. exact (Hall y Hy).
Qed.

Lemma order_by_nil {A} (key : A -> Z) l : order_by key l = [] -> l = [].
Proof.
  intros H. pose proof (order_by_perm key l) as P. rewrite H in P.
  apply Permutation_sym, Permutation_nil in P. exact P.
Qed.

Lemma order_by_length {A} (key : A -> Z) l : List.length (order_by key l) = List.length l.
Proof. symmetry. apply Permutation_length, order_by_perm. Qed.

(* ================================================================= *)
(** ** STEP 2: the turnaround candidate *)

Lemma not_landed_or_cancelled_spec s :
  not_landed_or_cancelled s = true <-> s <> LANDED /\ s <> CANCELLED.
Proof.
  destruct s; simpl; split; intros H; try discriminate; try (split; discriminate);
    destruct H as [H1 H2]; congruence.
Qed.

Lemma opt_Z_eqb_spec x v : opt_Z_eqb x v = true <-> x = Some v.
Proof.
  destruct x as [a|]; simpl; [|split; discriminate].
  rewrite Z.eqb_eq. split; [intros ->; reflexivity | intros H; inversion H; reflexivity].
Qed.

Lemma next_flight_where_spec a p d f :
  next_flight_where (Some a) p (Some d) f = true <-> turnaround_eligible a p d f.
Proof.
  unfold next_flight_where, turnaround_eligible.
  rewrite !andb_true_iff, negb_true_iff, Z.eqb_neq, Z.leb_le,
    opt_Z_eqb_spec, not_landed_or_cancelled_spec. tauto.
Qed.

(** C1, as the code has it: given the values STEP 1 fetched for the updated
    flight (its aircraft [a], its new departure [d]), the candidate of the
    turnaround cascade is an eligible flight (same aircraft, another flight,
    neither LANDED nor CANCELLED) whose effective departure is at or after the
    updated flight's new DEPARTURE, and no eligible flight departs earlier;
    there is no candidate exactly when no flight is eligible. *)
Theorem next_flight_earliest_after_new_departure :
  forall st p (v_new_arr : option timestamp) d a,
    fetch_updated p st = (v_new_arr, Some d, Some a) ->
    match next_flight (Some a) p (Some d) st with
    | Some (v_next_flight_id, v_next_dep) =>
        exists f, In f (flights st)
          /\ turnaround_eligible a p d f
          /\ v_next_flight_id = Flight.id f
          /\ v_next_dep = Flight.dep f
          /\ forall g, In g (flights st) -> turnaround_eligible a p d g ->
               Flight.dep f <= Flight.dep g
    | None => forall g, In g (flights st) -> ~ turnaround_eligible a p d g
    end.
Proof.
  intros st p v_new_arr d a _. unfold next_flight.
  destruct (order_by Flight.dep _) as [|f rest] eqn:E.
  - apply order_by_nil in E. intros g Hg He.
    apply next_flight_where_spec in He.
    assert (Hin : In g (filter (next_flight_where (Some a) p (Some d)) (flights st)))
      by (apply filter_In; auto).
    rewrite E in Hin. contradiction.
  - assert (Hf : In f (filter (next_flight_where (Some a) p (Some d)) (flights st))).
    { apply (order_by_In Flight.dep). rewrite E. left; reflexivity. }
    apply filter_In in Hf. destruct Hf as [Hin Hw].
    exists f. repeat split; auto.
    + apply next_flight_where_spec in Hw. apply Hw.
    + apply next_flight_where_spec in Hw. apply Hw.
    + apply next_flight_where_spec in Hw. apply Hw.
    + apply next_flight_where_spec in Hw. apply Hw.
    + apply next_flight_where_spec in Hw. apply Hw.
    + intros g Hg He. apply (order_by_head_least Flight.dep _ _ _ E).
      apply filter_In. split; [exact Hg|]. apply next_flight_where_spec. exact He.
Qed.

Lemma next_flight_earliest_after_new_departure_witness :
  match next_flight (Some 1) 1 (Some (minutes 60)) rotation_db_delayed with
  | Some (v_next_flight_id, v_next_dep) =>
      exists f, In f (flights rotation_db_delayed)
        /\ turnaround_eligible 1 1 (minutes 60) f
        /\ v_next_flight_id = Flight.id f
        /\ v_next_dep = Flight.dep f
        /\ forall g, In g (flights rotation_db_delayed) ->
             turnaround_eligible 1 1 (minutes 60) g ->
             Flight.dep f <= Flight.dep g
  | None => forall g, In g (flights rotation_db_delayed) ->
              ~ turnaround_eligible 1 1 (minutes 60) g
  end.
Proof.
  apply (next_flight_earliest_after_new_departure
           rotation_db_delayed 1 (Some (minutes 180)) (minutes 60) 1).
  reflexivity.
Defined.

(** C1 as worded fails: with flight 1 of [rotation_db] delayed by 60 minutes
    (new departure at minute 60, new arrival at minute 180), the cascade picks
    flight 2, which leaves at minute 150, before that arrival; the earliest
    flight leaving at or after the new arrival would be flight 3. *)
Lemma turnaround_candidate_departs_before_new_arrival :
  delay_target 1 60 rotation_db = Returned tt rotation_db_delayed
  /\ fetch_updated 1 rotation_db_delayed
     = (Some (minutes 180), Some (minutes 60), Some 1)
  /\ next_flight (Some 1) 1 (Some (minutes 60)) rotation_db_delayed
     = Some (2, minutes 150)
  /\ minutes 150 < minutes 180
  /\ spec_next_flight (Some 1) 1 (Some (minutes 180)) rotation_db_delayed
     = Some (3, minutes 400)
  /\ log_summary (commit rotation_db (trigger_delay 1 60 None rotation_db))
     = [(3, 20, Some 2, 0); (2, 75, Some 1, 1); (1, 60, None, 1)].
Proof. repeat split; reflexivity. Qed.

(** C4: the forced delay is 45 minus the minutes from the updated arrival to
    the next flight's effective departure, and the cascade recurses exactly
    when it is positive: a departure 45 minutes after the updated arrival is
    left alone, one 44 minutes after it is delayed by 1 minute. *)
Theorem forced_delay_turnaround :
  (forall v_next_flight_id v_next_dep v_new_arr m,
      minutes_between v_next_dep v_new_arr = Ok m ->
      forced_delay v_next_dep (Some v_new_arr) = Ok (Some (45 - m))
      /\ turnaround_cascade (Some (v_next_flight_id, v_next_dep)) (Some v_new_arr)
         = Ok (if 0 <? 45 - m then Some (v_next_flight_id, 45 - m) else None))
  /\ (forall v_next_flight_id v_new_arr,
        turnaround_cascade (Some (v_next_flight_id, v_new_arr + minutes 45)) (Some v_new_arr)
        = Ok None
        /\ turnaround_cascade (Some (v_next_flight_id, v_new_arr + minutes 44)) (Some v_new_arr)
           = Ok (Some (v_next_flight_id, 1)))
  /\ (let st := commit (turnaround_db 45) (trigger_delay 1 30 None (turnaround_db 45)) in
      delays st = [(1, Some 30); (2, None)]
      /\ log_summary st = [(1, 30, None, 0)])
  /\ (let st := commit (turnaround_db 44) (trigger_delay 1 30 None (turnaround_db 44)) in
      delays st = [(1, Some 30); (2, Some 1)]
      /\ log_summary st = [(2, 1, Some 1, 0); (1, 30, None, 1)]).
Proof.
  split; [|split; [|split]].
  - intros id d a m Hm. unfold turnaround_cascade, forced_delay, v_min_turnaround.
    rewrite Hm. cbn [rbind]. split; [reflexivity|]. destruct (0 <? 45 - m); reflexivity.
  - intros id a. unfold turnaround_cascade, forced_delay, v_min_turnaround.
    rewrite !minutes_between_whole by lia. cbn [rbind]. split; reflexivity.
  - split; reflexivity.
  - split; reflexivity.
Qed.

Lemma forced_delay_turnaround_witness :
  forced_delay (minutes 194) (Some (minutes 150)) = Ok (Some (45 - 44))
  /\ turnaround_cascade (Some (2, minutes 194)) (Some (minutes 150))
     = Ok (if 0 <? 45 - 44 then Some (2, 45 - 44) else None).
Proof.
  exact (proj1 forced_delay_turnaround 2 (minutes 194) (minutes 150) 44 eq_refl).
Defined.

(* ================================================================= *)
(** ** STEP 3: the connection check *)

Lemma booking_flight_ext n st st' :
  flights st' = flights st ->
  map booking_key (bookings st') = map booking_key (bookings st) ->
  booking_flight n st' = booking_flight n st.
Proof.
  unfold booking_flight. intros Hf. rewrite Hf. clear Hf.
  generalize (bookings st) (bookings st'). clear.
  intros bs bs'. revert bs. induction bs' as [|b' bs' IH]; intros [|b bs] H;
    simpl in *; try discriminate; [reflexivity|].
  inversion H as [[H1 H2 H3]]. rewrite H1, H2. f_equal. apply IH. exact H3.
Qed.

Lemma update_rows_set_status_key p s bs :
  map booking_key (update_rows p (Booking.set_status s) bs) = map booking_key bs.
Proof.
  unfold update_rows. rewrite map_map. apply map_ext. intros b.
  destruct (p b); reflexivity.
Qed.

Lemma connecting_departure_mark_missed n id st :
  connecting_departure n (mark_missed id st) = connecting_departure n st.
Proof.
  unfold connecting_departure. rewrite (booking_flight_ext n st (mark_missed id st));
    [reflexivity | reflexivity | apply update_rows_set_status_key].
Qed.

Lemma broken_link_ext a st st' bk :
  flights st' = flights st ->
  map booking_key (bookings st') = map booking_key (bookings st) ->
  broken_link a st' bk = broken_link a st bk.
Proof.
  intros Hf Hb. unfold broken_link, connecting_departure.
  rewrite (booking_flight_ext _ st st' Hf Hb). reflexivity.
Qed.

(** [mark_missed] marks every row with the id and keeps the others. *)
Lemma mark_missed_rows id st :
  Forall2 (fun b b' =>
             (Booking.id b = id -> b' = Booking.set_status MISSED_CONNECTION b)
             /\ (Booking.id b <> id -> b' = b))
          (bookings st) (bookings (mark_missed id st)).
Proof.
  unfold mark_missed, set_bookings, update_rows; simpl.
  induction (bookings st) as [|b bs IH]; simpl; constructor; auto.
  destruct (Booking.id b =? id) eqn:E.
  - apply Z.eqb_eq in E. split; [reflexivity | intros; contradiction].
  - apply Z.eqb_neq in E. split; [intros; contradiction | reflexivity].
Qed.

Lemma Forall2_compose {A} (P Q R : A -> A -> Prop) l1 l2 l3 :
  (forall x y z, P x y -> Q y z -> R x z) ->
  Forall2 P l1 l2 -> Forall2 Q l2 l3 -> Forall2 R l1 l3.
Proof.
  intros H H1. revert l3. induction H1; intros l3 H2; inversion H2; subst;
    constructor; eauto.
Qed.

Lemma Forall2_refl {A} (P : A -> A -> Prop) l : (forall x, P x x) -> Forall2 P l l.
Proof. intros H. induction l; constructor; auto. Qed.

Lemma Forall2_impl {A B} (P Q : A -> B -> Prop) l1 l2 :
  (forall x y, P x y -> Q x y) -> Forall2 P l1 l2 -> Forall2 Q l1 l2.
Proof. intros H. induction 1; constructor; auto. Qed.

Lemma Forall2_map_eq {A B} (f : A -> B) (P : A -> A -> Prop) l1 l2 :
  (forall x y, P x y -> f y = f x) -> Forall2 P l1 l2 -> map f l2 = map f l1.
Proof. intros H. induction 1; simpl; [reflexivity|]. f_equal; auto. Qed.

(** One pass of the loop: either the connection holds and nothing is written,
    or it is broken and both bookings are marked. *)
Lemma check_connection_Returned a bk k st n st' :
  check_connection a bk k st = Returned n st' ->
  (broken_link a st bk = false /\ st' = st /\ n = k)
  \/ (broken_link a st bk = true
      /\ st' = mark_missed (snd bk) (mark_missed (fst bk) st)
      /\ int4pl k 1 = Ok n).
Proof.
  unfold check_connection, bind, query, eval, exec, ret, broken_link.
  destruct (connection_broken (connecting_departure (snd bk) st) a) as [[|]|e];
    try discriminate.
  - destruct (int4pl k 1) as [n'|e] eqn:E; try discriminate.
    intros H; inversion H; subst. right. auto.
  - intros H; inversion H; subst. left. auto.
Qed.

Lemma mark_missed_twice_rows x y st :
  Forall2 (fun b b' =>
             (Booking.id b = x \/ Booking.id b = y ->
              b' = Booking.set_status MISSED_CONNECTION b)
             /\ (Booking.id b <> x -> Booking.id b <> y -> b' = b))
          (bookings st) (bookings (mark_missed y (mark_missed x st))).
Proof.
  eapply Forall2_compose; [|apply (mark_missed_rows x st)|apply (mark_missed_rows y _)].
  simpl. intros b b1 b2 [H1 H1'] [H2 H2'].
  destruct (Z.eq_dec (Booking.id b) x) as [Ex|Ex].
  - rewrite (H1 Ex) in *. split; [|intros; contradiction].
    intros _. destruct (Z.eq_dec (Booking.id b) y) as [Ey|Ey].
    + rewrite (H2 Ey). reflexivity.
    + rewrite (H2' Ey). reflexivity.
  - rewrite (H1' Ex) in *. split.
    + intros [E|E]; [contradiction|]. apply H2. exact E.
    + intros _ Ey. apply H2'. exact Ey.
Qed.

Lemma connection_loop_spec a rows : forall k st n st',
  connection_loop a rows k st = Returned n st' ->
  flights st' = flights st
  /\ aircraft st' = aircraft st
  /\ passengers st' = passengers st
  /\ disruption_log st' = disruption_log st
  /\ simulation_snapshots st' = simulation_snapshots st
  /\ Forall2 (marked_or_kept (hit_by a st rows)) (bookings st) (bookings st')
  /\ (forall bk b', In bk rows -> broken_link a st bk = true ->
        In b' (bookings st') ->
        Booking.id b' = fst bk \/ Booking.id b' = snd bk ->
        Booking.status b' = MISSED_CONNECTION).
Proof.
  induction rows as [|bk rest IH]; intros k st n st' H.
  - simpl in H. inversion H; subst. repeat split; auto.
    + apply Forall2_refl. intros b. left. reflexivity.
    + intros bk b' [].
  - simpl in H. apply bind_Returned in H. destruct H as (n1 & st1 & H1 & H2).
    apply IH in H2. destruct H2 as (Hf & Ha & Hp & Hl & Hs & Hb & Hm).
    assert (Hkey : flights st1 = flights st
                   /\ aircraft st1 = aircraft st /\ passengers st1 = passengers st
                   /\ disruption_log st1 = disruption_log st
                   /\ simulation_snapshots st1 = simulation_snapshots st
                   /\ map booking_key (bookings st1) = map booking_key (bookings st)).
    { apply check_connection_Returned in H1.
      destruct H1 as [(_ & -> & _)|(_ & -> & _)]; repeat split; try reflexivity.
      unfold mark_missed; simpl. rewrite !update_rows_set_status_key. reflexivity. }
    destruct Hkey as (Hf1 & Ha1 & Hp1 & Hl1 & Hs1 & Hk1).
    assert (Hbl : forall x, broken_link a st1 x = broken_link a st x)
      by (intros x; apply broken_link_ext; assumption).
    repeat split; try congruence.
    + apply check_connection_Returned in H1.
      destruct H1 as [(Hbk & -> & _)|(Hbk & -> & _)].
      * eapply Forall2_impl; [|exact Hb].
        intros b b' [E|[E (x & Hx & Hbx & Hid)]]; [left; exact E|].
        right. split; [exact E|]. exists x. split; [right; exact Hx|].
        first [solve [auto] | rewrite <- Hbl; solve [auto]].
      * eapply Forall2_compose; [|apply (mark_missed_twice_rows (fst bk) (snd bk) st)|exact Hb].
        simpl. intros b b1 b2 [Hm1 Hm2] [E|[E (x & Hx & Hbx & Hid)]].
        -- subst b2.
           destruct (Z.eq_dec (Booking.id b) (fst bk)) as [E1|E1];
             [|destruct (Z.eq_dec (Booking.id b) (snd bk)) as [E2|E2]].
           ++ right. split; [apply Hm1; auto|]. exists bk. split; [left; reflexivity|].
              first [solve [auto] | rewrite <- Hbl; solve [auto]].
           ++ right. split; [apply Hm1; auto|]. exists bk. split; [left; reflexivity|].
              first [solve [auto] | rewrite <- Hbl; solve [auto]].
           ++ left. apply Hm2; assumption.
        -- right.
           assert (Hid1 : Booking.id b1 = Booking.id b).
           { destruct (Z.eq_dec (Booking.id b) (fst bk)) as [E1|E1];
               [|destruct (Z.eq_dec (Booking.id b) (snd bk)) as [E2|E2]].
             - rewrite (Hm1 (or_introl E1)). reflexivity.
             - rewrite (Hm1 (or_intror E2)). reflexivity.
             - rewrite (Hm2 E1 E2). reflexivity. }
           split.
           ++ subst b2.
              destruct (Z.eq_dec (Booking.id b) (fst bk)) as [E1|E1];
                [|destruct (Z.eq_dec (Booking.id b) (snd bk)) as [E2|E2]].
              ** rewrite (Hm1 (or_introl E1)). reflexivity.
              ** rewrite (Hm1 (or_intror E2)). reflexivity.
              ** rewrite (Hm2 E1 E2). reflexivity.
           ++ exists x. split; [right; exact Hx|]. rewrite <- Hid1. first [solve [auto] | rewrite <- Hbl; solve [auto]].
    + intros x b' [<-|Hx] Hbx Hin Hid.
      * (* the head of the loop: marked at once, and marks are never undone *)
        apply check_connection_Returned in H1.
        destruct H1 as [(Hbk & _)|(_ & -> & _)]; [congruence|].
        pose proof (mark_missed_twice_rows (fst bk) (snd bk) st) as Hmk.
        assert (Hall : Forall2 (fun b b2 =>
                   Booking.id b2 = Booking.id b
                   /\ (Booking.id b = fst bk \/ Booking.id b = snd bk ->
                       Booking.status b2 = MISSED_CONNECTION))
                 (bookings st) (bookings st')).
        { eapply Forall2_compose; [|exact Hmk|exact Hb].
          simpl. intros b b1 b2 [Hm1 Hm2] Hk.
          assert (Hid1 : Booking.id b1 = Booking.id b).
          { destruct (Z.eq_dec (Booking.id b) (fst bk)) as [E1|E1];
              [|destruct (Z.eq_dec (Booking.id b) (snd bk)) as [E2|E2]].
            - rewrite (Hm1 (or_introl E1)). reflexivity.
            - rewrite (Hm1 (or_intror E2)). reflexivity.
            - rewrite (Hm2 E1 E2). reflexivity. }
          destruct Hk as [E|[E _]]; subst b2.
          - split; [exact Hid1|]. intros Hor. rewrite (Hm1 Hor). reflexivity.
          - split; [exact Hid1|]. intros _. reflexivity. }
        clear - Hall Hin Hid.
        induction Hall as [|b b2 l l2 [Hi Hst] _ IHl]; [contradiction|].
        destruct Hin as [->|Hin]; [apply Hst; congruence | apply IHl; exact Hin].
      * apply (Hm x b' Hx); [rewrite Hbl; exact Hbx | exact Hin | exact Hid].
Qed.

Lemma connecting_bookings_In p st b nb :
  In b (bookings st) -> Booking.flight_id b = p -> Booking.status b = CONFIRMED ->
  Booking.next_booking_id b = Some nb ->
  In (Booking.id b, nb) (connecting_bookings p st).
Proof.
  intros Hin Hp Hs Hn. unfold connecting_bookings. apply in_flat_map.
  exists b. split; [exact Hin|]. rewrite Hn, Hp, Hs, Z.eqb_refl. simpl. auto.
Qed.

(** C3: STEP 3 on a flight whose updated arrival is [v_new_arr].  For every
    CONFIRMED booking on the flight with a forward link, with [m] the minutes
    from the updated arrival to the linked flight's effective departure: if
    [m < 30] the booking and its linked booking end as MISSED_CONNECTION; if
    [30 <= m] the pass over this booking writes nothing.  A booking row is
    changed only by being marked, and only when a broken connection of the loop
    names it.  A gap of exactly 30 minutes is not broken, one of 29 is. *)
Theorem connection_broken_below_30_minutes :
  (forall p v_new_arr st n st',
      connection_check p (Some v_new_arr) st = Returned n st' ->
      (forall b nb d m,
          In b (bookings st) -> Booking.flight_id b = p ->
          Booking.status b = CONFIRMED -> Booking.next_booking_id b = Some nb ->
          connecting_departure nb st = Some d ->
          minutes_between d v_new_arr = Ok m ->
          (m < 30 ->
           forall b', In b' (bookings st') ->
             Booking.id b' = Booking.id b \/ Booking.id b' = nb ->
             Booking.status b' = MISSED_CONNECTION)
          /\ (30 <= m ->
              forall k s, connecting_departure nb s = Some d ->
                check_connection (Some v_new_arr) (Booking.id b, nb) k s = Returned k s))
      /\ Forall2 (marked_or_kept
                    (hit_by (Some v_new_arr) st (connecting_bookings p st)))
                 (bookings st) (bookings st')
      /\ flights st' = flights st)
  /\ (forall t,
        connection_broken (Some (t + minutes 30)) (Some t) = Ok false
        /\ connection_broken (Some (t + minutes 29)) (Some t) = Ok true)
  /\ booking_statuses (commit (connection_db 30) (trigger_delay 1 30 None (connection_db 30)))
     = [(1, CONFIRMED); (2, CONFIRMED)]
  /\ booking_statuses (commit (connection_db 29) (trigger_delay 1 30 None (connection_db 29)))
     = [(1, MISSED_CONNECTION); (2, MISSED_CONNECTION)].
Proof.
  split; [|split; [|split; reflexivity]].
  - intros p a st n st' H. unfold connection_check in H.
    apply bind_Returned in H. destruct H as (rows & st0 & Hq & Hloop).
    unfold query in Hq. inversion Hq; subst. clear Hq.
    apply connection_loop_spec in Hloop.
    destruct Hloop as (Hf & _ & _ & _ & _ & Hb & Hm).
    split; [|split; assumption].
    intros b nb d m Hin Hp Hs Hn Hd Hmin. split.
    + intros Hlt b' Hb' Hid.
      apply (Hm (Booking.id b, nb) b'); auto.
      * apply connecting_bookings_In; assumption.
      * unfold broken_link, connection_broken. simpl. rewrite Hd, Hmin.
        cbn [rbind]. unfold v_min_connection.
        replace (m <? 30) with true by (symmetry; apply Z.ltb_lt; lia). reflexivity.
    + intros Hge k s Hds.
      unfold check_connection, bind, query, eval, connection_broken. simpl.
      rewrite Hds, Hmin. cbn [rbind]. unfold v_min_connection.
      replace (m <? 30) with false by (symmetry; apply Z.ltb_ge; lia). reflexivity.
  - intros t. unfold connection_broken, v_min_connection.
    rewrite !minutes_between_whole by lia. split; reflexivity.
Qed.

Lemma connection_broken_below_30_minutes_witness :
  Forall2 (marked_or_kept
             (hit_by (Some (minutes 150)) connection_db_delayed
                     (connecting_bookings 1 connection_db_delayed)))
          (bookings connection_db_delayed) (bookings connection_db_checked)
  /\ flights connection_db_checked = flights connection_db_delayed.
Proof.
  exact (proj2 (proj1 connection_broken_below_30_minutes 1 (minutes 150)
                  connection_db_delayed 1 connection_db_checked eq_refl)).
Defined.

(* ================================================================= *)
(** ** The recursion of calculate_blast_radius *)

Lemma bind_finished {A B} (m : M A) (k : A -> M B) st :
  finished (m st) = true ->
  (forall a s, finished (k a s) = true) ->
  finished (bind m k st) = true.
Proof.
  unfold bind. destruct (m st); simpl; intros H Hk; auto; discriminate.
Qed.

Lemma bind_ext {A B} (m : M A) (k k' : A -> M B) st :
  (forall a s, k a s = k' a s) -> bind m k st = bind m k' st.
Proof. intros H. unfold bind. destruct (m st); auto. Qed.

Lemma delay_target_finished p d st : finished (delay_target p d st) = true.
Proof. unfold delay_target. destruct (update_where _ _ _); reflexivity. Qed.

Lemma eval_finished {A} (r : result A) st : finished (eval r st) = true.
Proof. destruct r; reflexivity. Qed.

Lemma check_connection_finished a bk k st : finished (check_connection a bk k st) = true.
Proof.
  unfold check_connection. apply bind_finished; [reflexivity|]. intros d s.
  apply bind_finished; [apply eval_finished|]. intros [|] s'; [|reflexivity].
  apply bind_finished; [reflexivity|]. intros _ s1.
  apply bind_finished; [reflexivity|]. intros _ s2. apply eval_finished.
Qed.

Lemma connection_loop_finished a rows : forall k st,
  finished (connection_loop a rows k st) = true.
Proof.
  induction rows as [|bk rest IH]; intros k st; simpl; [reflexivity|].
  apply bind_finished; [apply check_connection_finished|]. intros n s. apply IH.
Qed.

Lemma connection_check_finished p a st : finished (connection_check p a st) = true.
Proof.
  unfold connection_check. apply bind_finished; [reflexivity|].
  intros rows s. apply connection_loop_finished.
Qed.

Lemma insert_disruption_log_finished r st : finished (insert_disruption_log r st) = true.
Proof. unfold insert_disruption_log. destruct (_ && _); reflexivity. Qed.

(** With a unit of fuel for each possible level of nesting the model never
    runs out. *)
Lemma calculate_blast_radius_finished fuel : forall p d c from depth st,
  (Z.to_nat (21 - depth) < fuel)%nat ->
  finished (calculate_blast_radius fuel p d c from depth st) = true.
Proof.
  induction fuel as [|fuel IH]; intros p d c from depth st Hf; [lia|].
  simpl. destruct (20 <? depth) eqn:E; [reflexivity|]. apply Z.ltb_ge in E.
  apply bind_finished; [apply delay_target_finished|]. intros _ s1.
  apply bind_finished; [reflexivity|]. intros [[arr dep] a] s2.
  apply bind_finished; [reflexivity|]. intros next s3.
  apply bind_finished; [apply eval_finished|]. intros casc s4.
  apply bind_finished.
  - destruct casc as [[nf fd]|]; [|reflexivity].
    apply bind_finished; [|reflexivity]. apply IH. lia.
  - intros fi s5. apply bind_finished; [apply connection_check_finished|].
    intros pax s6. apply insert_disruption_log_finished.
Qed.

(** More fuel than that changes nothing. *)
Lemma calculate_blast_radius_fuel fuel : forall fuel' p d c from depth st,
  (Z.to_nat (21 - depth) < fuel)%nat -> (Z.to_nat (21 - depth) < fuel')%nat ->
  calculate_blast_radius fuel p d c from depth st
  = calculate_blast_radius fuel' p d c from depth st.
Proof.
  induction fuel as [|fuel IH]; intros fuel' p d c from depth st Hf Hf'; [lia|].
  destruct fuel' as [|fuel']; [lia|].
  simpl. destruct (20 <? depth) eqn:E; [reflexivity|]. apply Z.ltb_ge in E.
  apply bind_ext. intros _ s1. apply bind_ext. intros [[arr dep] a] s2.
  apply bind_ext. intros next s3. apply bind_ext. intros casc s4.
  destruct casc as [[nf fd]|]; [|reflexivity].
  unfold bind. rewrite (IH fuel') by lia. reflexivity.
Qed.

(** One activation that returns, taken apart. *)
Lemma calculate_blast_radius_Returned fuel p d c from depth st st' :
  calculate_blast_radius (S fuel) p d c from depth st = Returned tt st' ->
  (20 < depth /\ st' = st)
  \/ (depth <= 20 /\
      exists st1 st2 st3 arr dep a casc fi pax,
        delay_target p d st = Returned tt st1
        /\ fetch_updated p st1 = (arr, dep, a)
        /\ turnaround_cascade (next_flight a p dep st1) arr = Ok casc
        /\ match casc with
           | Some (nf, fd) =>
               calculate_blast_radius fuel nf fd (Some (turnaround_cause p)) (Some p)
                 (depth + 1) st1 = Returned tt st2
               /\ fi = 1 /\ 0 < fd
           | None => st2 = st1 /\ fi = 0
           end
        /\ connection_check p arr st2 = Returned pax st3
        /\ insert_disruption_log (DisruptionLog.mk p d c from pax fi) st3
           = Returned tt st').
Proof.
  simpl. destruct (20 <? depth) eqn:E.
  - apply Z.ltb_lt in E. intros H. inversion H. left. auto.
  - apply Z.ltb_ge in E. intros H. right. split; [exact E|].
    apply bind_Returned in H. destruct H as ([] & st1 & H1 & H).
    apply bind_Returned in H. destruct H as ([[arr dep] a] & s2 & Hq2 & H).
    unfold query in Hq2. injection Hq2 as Hq2 <-.
    apply bind_Returned in H. destruct H as (next & s3 & Hq3 & H).
    unfold query in Hq3. injection Hq3 as <- <-.
    apply bind_Returned in H. destruct H as (casc & s4 & Hq4 & H).
    unfold eval in Hq4.
    destruct (turnaround_cascade (next_flight a p dep st1) arr) as [casc'|e] eqn:Ec;
      [|discriminate].
    injection Hq4 as <- <-.
    apply bind_Returned in H. destruct H as (fi & st2 & H5 & H).
    apply bind_Returned in H. destruct H as (pax & st3 & H6 & H7).
    exists st1, st2, st3, arr, dep, a, casc', fi, pax.
    repeat split; try assumption; try (symmetry; assumption).
    + destruct casc' as [[nf fd]|].
      * apply bind_Returned in H5. destruct H5 as ([] & s5 & H5 & H5').
        unfold ret in H5'. inversion H5'; subst. repeat split; try assumption.
        unfold turnaround_cascade in Ec.
        destruct (next_flight a p dep st1) as [[id nd]|]; [|discriminate].
        apply rbind_Ok in Ec. destruct Ec as (v & _ & Ec).
        destruct v as [v|]; [|discriminate].
        destruct (0 <? v) eqn:Ev; [|discriminate].
        inversion Ec; subst. apply Z.ltb_lt. exact Ev.
      * unfold ret in H5. inversion H5; subst. auto.
Qed.

(** *** What each step writes *)

Lemma update_where_Ok {A} (p : A -> bool) (set : A -> result A) rows : forall rows',
  update_where p set rows = Ok rows' ->
  Forall2 (fun r r' => if p r then set r = Ok r' else r' = r) rows rows'.
Proof.
  induction rows as [|r rest IH]; intros rows' H; simpl in H.
  - inversion H. constructor.
  - apply rbind_Ok in H. destruct H as (r' & Hr & H).
    apply rbind_Ok in H. destruct H as (rest' & Hrest & H).
    inversion H; subst. constructor; [|apply IH; exact Hrest].
    destruct (p r); [exact Hr | inversion Hr; reflexivity].
Qed.

Lemma delay_target_Returned p d st st1 :
  delay_target p d st = Returned tt st1 ->
  aircraft st1 = aircraft st /\ passengers st1 = passengers st
  /\ bookings st1 = bookings st /\ disruption_log st1 = disruption_log st
  /\ simulation_snapshots st1 = simulation_snapshots st
  /\ Forall2 (fun f f' => if Flight.id f =? p then delay_flight d f = Ok f' else f' = f)
             (flights st) (flights st1).
Proof.
  unfold delay_target.
  destruct (update_where _ _ (flights st)) as [fs|e] eqn:E; [|discriminate].
  intros H. inversion H; subst. simpl. repeat split.
  apply update_where_Ok in E. exact E.
Qed.

Lemma connection_check_Returned p a st n st' :
  connection_check p a st = Returned n st' ->
  flights st' = flights st /\ aircraft st' = aircraft st
  /\ passengers st' = passengers st /\ disruption_log st' = disruption_log st
  /\ simulation_snapshots st' = simulation_snapshots st
  /\ Forall2 (marked_or_kept (hit_by a st (connecting_bookings p st)))
             (bookings st) (bookings st').
Proof.
  unfold connection_check. intros H.
  apply bind_Returned in H. destruct H as (rows & s & Hq & H).
  unfold query in Hq. injection Hq as <- <-.
  apply connection_loop_spec in H. tauto.
Qed.

Lemma insert_disruption_log_Returned r st st' :
  insert_disruption_log r st = Returned tt st' ->
  st' = set_disruption_log (disruption_log st ++ [r]) st
  /\ flight_exists (DisruptionLog.flight_id r) st = true.
Proof.
  unfold insert_disruption_log.
  destruct (flight_exists (DisruptionLog.flight_id r) st); simpl; [|discriminate].
  destruct (match DisruptionLog.cascaded_from_flight_id r with
            | Some c => flight_exists c st | None => true end); [|discriminate].
  intros H. inversion H. auto.
Qed.

(** *** A relation every step keeps is kept by the whole cascade *)

Section Preservation.

Variable R : db -> db -> Prop.
Variable admissible : Z -> Prop.

Hypothesis R_refl : forall st, R st st.
Hypothesis R_trans : forall st1 st2 st3, R st1 st2 -> R st2 st3 -> R st1 st3.
Hypothesis forced_admissible : forall d, 0 < d -> admissible d.
Hypothesis R_delay : forall p d st st',
  admissible d -> delay_target p d st = Returned tt st' -> R st st'.
Hypothesis R_check : forall p a st n st',
  connection_check p a st = Returned n st' -> R st st'.
Hypothesis R_log : forall r st st',
  insert_disruption_log r st = Returned tt st' -> R st st'.

Lemma calculate_blast_radius_preserves fuel : forall p d c from depth st st',
  admissible d ->
  calculate_blast_radius fuel p d c from depth st = Returned tt st' ->
  R st st'.
Proof.
  induction fuel as [|fuel IH]; intros p d c from depth st st' Hd H;
    [discriminate|].
  apply calculate_blast_radius_Returned in H.
  destruct H as [[_ ->]|(_ & st1 & st2 & st3 & arr & dep & a & casc & fi & pax
                          & H1 & _ & _ & H4 & H5 & H6)]; [apply R_refl|].
  apply R_trans with st1; [eapply R_delay; eassumption|].
  apply R_trans with st2.
  { destruct casc as [[nf fd]|].
    - destruct H4 as (H4 & _ & Hpos). eapply IH; [|exact H4].
      apply forced_admissible. exact Hpos.
    - destruct H4 as [-> _]. apply R_refl. }
  apply R_trans with st3; [eapply R_check; eassumption|].
  eapply R_log; eassumption.
Qed.

End Preservation.

(** The log grows by one row per activation that ran, at most [21 - depth]. *)
Lemma calculate_blast_radius_log fuel : forall p d c from depth st st',
  calculate_blast_radius fuel p d c from depth st = Returned tt st' ->
  (List.length (disruption_log st')
   <= List.length (disruption_log st) + Z.to_nat (21 - depth))%nat.
Proof.
  induction fuel as [|fuel IH]; intros p d c from depth st st' H; [discriminate|].
  apply calculate_blast_radius_Returned in H.
  destruct H as [[_ ->]|(Hle & st1 & st2 & st3 & arr & dep & a & casc & fi & pax
                          & H1 & _ & _ & H4 & H5 & H6)]; [lia|].
  apply delay_target_Returned in H1. destruct H1 as (_ & _ & _ & Hl1 & _).
  apply connection_check_Returned in H5. destruct H5 as (_ & _ & _ & Hl3 & _).
  apply insert_disruption_log_Returned in H6. destruct H6 as [-> _].
  cbn [disruption_log set_disruption_log]. rewrite length_app, Hl3.
  cbn [List.length].
  assert (H2 : (List.length (disruption_log st2)
                <= List.length (disruption_log st1) + Z.to_nat (21 - (depth + 1)))%nat).
  { destruct casc as [[nf fd]|].
    - destruct H4 as (H4 & _). apply IH in H4. exact H4.
    - destruct H4 as [-> _]. lia. }
  rewrite Hl1 in H2. lia.
Qed.

(** C2: an activation with [p_depth > 20] returns at once and leaves the
    database as it is.  Hence every call terminates (the model, given one unit
    of fuel per level of nesting, never runs out, and more fuel changes
    nothing), and a call that returns has run at most [21 - p_depth]
    activations, each logging one row: from depth 0, the root and 20 hops.  In
    [long_rotation_db] the cascade from flight 1 stops after flight 21; in
    [cyclic_db], where each flight is the other's next, it stops after two
    activations. *)
Theorem cascade_stops_at_depth_20 :
  (forall fuel p d c from depth st,
      20 < depth ->
      calculate_blast_radius (S fuel) p d c from depth st = Returned tt st)
  /\ (forall fuel p d c from depth st,
        (enough_fuel depth <= fuel)%nat ->
        finished (calculate_blast_radius fuel p d c from depth st) = true
        /\ calculate_blast_radius fuel p d c from depth st
           = calculate_blast_radius (enough_fuel depth) p d c from depth st)
  /\ (forall fuel p d c from depth st st',
        calculate_blast_radius fuel p d c from depth st = Returned tt st' ->
        (List.length (disruption_log st')
         <= List.length (disruption_log st) + Z.to_nat (21 - depth))%nat)
  /\ (let st := commit long_rotation_db (trigger_delay 1 10 None long_rotation_db) in
      delays st = map (fun k => (Z.of_nat k, Some 10)) (seq 1 21)
                  ++ map (fun k => (Z.of_nat k, None)) (seq 22 4)
      /\ List.length (disruption_log st) = 21%nat)
  /\ (next_flight (Some 1) 1 (Some 0) cyclic_db = Some (2, 0)
      /\ next_flight (Some 1) 2 (Some 0) cyclic_db = Some (1, 0)
      /\ log_summary (commit cyclic_db (trigger_delay 1 0 None cyclic_db))
         = [(2, 145, Some 1, 0); (1, 0, None, 1)]).
Proof.
  split; [|split; [|split; [|split]]].
  - intros fuel p d c from depth st H. simpl.
    replace (20 <? depth) with true by (symmetry; apply Z.ltb_lt; exact H).
    reflexivity.
  - intros fuel p d c from depth st H. unfold enough_fuel in *. split.
    + apply calculate_blast_radius_finished. lia.
    + apply calculate_blast_radius_fuel; lia.
  - intros fuel p d c from depth st st'. apply calculate_blast_radius_log.
  - split; vm_compute; reflexivity.
  - repeat split; vm_compute; reflexivity.
Qed.

Lemma cascade_stops_at_depth_20_witness :
  (List.length (disruption_log long_rotation_db_delayed)
   <= List.length (disruption_log long_rotation_db) + Z.to_nat (21 - 0))%nat.
Proof.
  apply (proj1 (proj2 (proj2 cascade_stops_at_depth_20))
           (enough_fuel 0) 1 10 None None 0 long_rotation_db long_rotation_db_delayed).
  vm_compute. reflexivity.
Defined.

(* ================================================================= *)
(** ** An unknown flight id *)

Lemma update_where_none {A} (p : A -> bool) (set : A -> result A) rows :
  existsb p rows = false -> update_where p set rows = Ok rows.
Proof.
  induction rows as [|r rest IH]; simpl; [reflexivity|].
  intros H. apply orb_false_iff in H. destruct H as [H1 H2].
  rewrite H1, (IH H2). reflexivity.
Qed.

Lemma find_none_existsb {A} (p : A -> bool) rows :
  existsb p rows = false -> find p rows = None.
Proof.
  induction rows as [|r rest IH]; simpl; [reflexivity|].
  intros H. apply orb_false_iff in H. destruct H as [H1 H2].
  rewrite H1. apply IH. exact H2.
Qed.

Lemma filter_false {A} (l : list A) : filter (fun _ => false) l = [].
Proof. induction l; simpl; auto. Qed.

Lemma set_flights_same st : set_flights (flights st) st = st.
Proof. destruct st; reflexivity. Qed.

Lemma connection_broken_null_arrival d : connection_broken d None = Ok false.
Proof. destruct d; reflexivity. Qed.

(** With no arrival time to compare with, the loop writes nothing. *)
Lemma connection_loop_null_arrival rows : forall k st,
  connection_loop None rows k st = Returned k st.
Proof.
  induction rows as [|bk rest IH]; intros k st; simpl; [reflexivity|].
  unfold bind at 1. unfold check_connection, bind, query, eval.
  rewrite connection_broken_null_arrival. unfold ret. apply IH.
Qed.

(** C9: a delay triggered on a flight id that no row of [flights] has is
    answered by an error (the foreign key of [disruption_log] finds no such
    flight), raised on a database in which nothing has been written: flights,
    bookings and log are as they were before the call, and so they are
    after it. *)
Theorem unknown_flight_reported_before_any_write :
  forall flightId delayMinutes cause st,
    flight_exists flightId st = false ->
    trigger_delay flightId delayMinutes cause st = Raised foreign_key_violation st
    /\ rpc_trigger_delay st (flightId, delayMinutes, cause) = st.
Proof.
  intros p d c st H.
  assert (Ht : trigger_delay p d c st = Raised foreign_key_violation st).
  { unfold trigger_delay, enough_fuel, flight_exists in *.
    change (Z.to_nat (21 - 0)) with 21%nat.
    cbn [calculate_blast_radius]. change (20 <? 0) with false. cbv iota.
    unfold bind at 1. unfold delay_target. rewrite (update_where_none _ _ _ H).
    rewrite set_flights_same.
    unfold bind at 1. unfold query at 1. unfold fetch_updated.
    rewrite (find_none_existsb _ _ H).
    unfold bind at 1. unfold query at 1.
    unfold next_flight, next_flight_where.
    rewrite filter_false. cbn [order_by].
    unfold bind at 1. cbn [turnaround_cascade eval].
    unfold bind at 1. unfold ret at 1.
    unfold bind at 1. unfold connection_check, bind at 1, query.
    rewrite connection_loop_null_arrival.
    unfold insert_disruption_log, flight_exists. cbn [DisruptionLog.flight_id].
    rewrite H. reflexivity. }
  split; [exact Ht|]. unfold rpc_trigger_delay. rewrite Ht. reflexivity.
Qed.

Lemma unknown_flight_reported_before_any_write_witness :
  trigger_delay 99 60 (Some "Weather delay"%string) rotation_db
  = Raised foreign_key_violation rotation_db
  /\ rpc_trigger_delay rotation_db (99, 60, Some "Weather delay"%string) = rotation_db.
Proof.
  apply (unknown_flight_reported_before_any_write 99 60
           (Some "Weather delay"%string) rotation_db).
  reflexivity.
Defined.

(* ================================================================= *)
(** ** reset_simulation *)

Lemma count_rows_none {A} (p : A -> bool) rows :
  Forall (fun r => p r = false) rows -> filter p rows = [].
Proof.
  induction 1 as [|r rest Hr _ IH]; simpl; [reflexivity|]. rewrite Hr. exact IH.
Qed.

(** C7: from any database [reset_simulation] returns, and then every flight
    has its actual times equal to its scheduled times, delay 0 and status
    SCHEDULED (and is otherwise the flight it was), every booking is CONFIRMED,
    the disruption log is empty and the snapshots are those saved before; the
    world state read next counts no DELAYED flight and no MISSED_CONNECTION
    booking. *)
Theorem reset_simulation_restores :
  forall st, exists st',
    reset_simulation st = Returned tt st'
    /\ Forall2 (fun f f' =>
                  Flight.id f' = Flight.id f
                  /\ Flight.scheduled_dep f' = Flight.scheduled_dep f
                  /\ Flight.scheduled_arr f' = Flight.scheduled_arr f
                  /\ Flight.aircraft_id f' = Flight.aircraft_id f
                  /\ Flight.actual_dep f' = Some (Flight.scheduled_dep f')
                  /\ Flight.actual_arr f' = Some (Flight.scheduled_arr f')
                  /\ Flight.delay_minutes f' = Some 0
                  /\ Flight.status f' = SCHEDULED)
               (flights st) (flights st')
    /\ Forall2 (fun b b' => b' = Booking.set_status CONFIRMED b)
               (bookings st) (bookings st')
    /\ disruption_log st' = []
    /\ simulation_snapshots st' = simulation_snapshots st
    /\ aircraft st' = aircraft st
    /\ passengers st' = passengers st
    /\ Metrics.delayed_flights (WorldState.metrics (fetchWorldState st')) = 0
    /\ Metrics.missed_connections (WorldState.metrics (fetchWorldState st')) = 0
    /\ WorldState.missedConnections (fetchWorldState st') = [].
Proof.
  intros st. eexists. split; [reflexivity|].
  cbn [flights bookings disruption_log simulation_snapshots aircraft passengers
       set_flights set_bookings set_disruption_log].
  assert (Hf : filter is_delayed (map reset_flight (flights st)) = []).
  { apply count_rows_none. apply Forall_forall. intros f Hin.
    apply in_map_iff in Hin. destruct Hin as (f0 & <- & _). reflexivity. }
  assert (Hb : forall q, filter (fun b => is_missed b && q b)
                 (map (Booking.set_status CONFIRMED) (bookings st)) = []).
  { intros q. apply count_rows_none. apply Forall_forall. intros b Hin.
    apply in_map_iff in Hin. destruct Hin as (b0 & <- & _). reflexivity. }
  assert (Hb' : filter is_missed (map (Booking.set_status CONFIRMED) (bookings st)) = []).
  { apply count_rows_none. apply Forall_forall. intros b Hin.
    apply in_map_iff in Hin. destruct Hin as (b0 & <- & _). reflexivity. }
  repeat split.
  - induction (flights st) as [|f fs IH]; simpl; constructor; auto.
    repeat split.
  - induction (bookings st) as [|b bs IH]; simpl; constructor; auto.
  - unfold fetchWorldState, count_rows; simpl. rewrite Hf. reflexivity.
  - unfold fetchWorldState, count_rows; simpl. rewrite Hb'. reflexivity.
  - unfold fetchWorldState; simpl. rewrite Hb. reflexivity.
Qed.

(** On [disrupted_db]: one flight was DELAYED, two bookings missed. *)
Example reset_disrupted_db :
  Metrics.delayed_flights (WorldState.metrics (fetchWorldState disrupted_db)) = 1
  /\ Metrics.missed_connections (WorldState.metrics (fetchWorldState disrupted_db)) = 2
  /\ fetchWorldState (commit disrupted_db (reset_simulation disrupted_db))
     = WorldState.mk
         [Flight.mk 1 "FL1" (Some 1) "JFK" "LHR" (minutes 0) (minutes 120)
            (Some (minutes 0)) (Some (minutes 120)) (Some 0) SCHEDULED;
          Flight.mk 2 "FL" None "JFK" "LHR" (minutes 150) (minutes 300)
            (Some (minutes 150)) (Some (minutes 300)) (Some 0) SCHEDULED]
         [] (Metrics.mk 0 0 0 0)
  /\ simulation_snapshots (commit disrupted_db (reset_simulation disrupted_db))
     = simulation_snapshots disrupted_db.
Proof. repeat split; reflexivity. Qed.

(* ================================================================= *)
(** ** update_flight_statuses *)

Lemma update_flight_statuses_Returned now st :
  update_flight_statuses now st
  = Returned tt
      (set_flights
         (update_rows (to_landed now) (Flight.set_status LANDED)
            (update_rows (to_active now) (Flight.set_status ACTIVE)
               (update_rows (to_boarding now) (Flight.set_status BOARDING)
                  (flights st)))) st).
Proof. destruct st; reflexivity. Qed.

Lemma update_flight_statuses_rows now st :
  flights (commit st (update_flight_statuses now st)) = map (tick_flight now) (flights st).
Proof.
  rewrite update_flight_statuses_Returned. cbn [commit flights set_flights].
  unfold update_rows. rewrite !map_map. reflexivity.
Qed.

Lemma tick_flight_overdue now f :
  Flight.status f = SCHEDULED -> Flight.dep f <= now -> tick_flight now f = f.
Proof.
  intros Hs Hd. unfold tick_flight.
  assert (H1 : to_boarding now f = false).
  { unfold to_boarding. replace (now <? Flight.dep f) with false
      by (symmetry; apply Z.ltb_ge; exact Hd).
    apply andb_false_r. }
  rewrite H1.
  assert (H2 : to_active now f = false) by (unfold to_active; rewrite Hs; reflexivity).
  rewrite H2.
  assert (H3 : to_landed now f = false) by (unfold to_landed; rewrite Hs; reflexivity).
  rewrite H3. reflexivity.
Qed.

(** C10: a flight that is SCHEDULED while its effective departure is not
    after [now] is left as it is by [update_flight_statuses], and so by every
    later tick (all at times not before that departure): it stays SCHEDULED
    and reaches neither ACTIVE nor LANDED.  In [overdue_db], flight 1 stays
    SCHEDULED through ticks that take flight 2 to BOARDING and flight 3 to
    ACTIVE and LANDED. *)
Theorem overdue_scheduled_flight_stays_scheduled :
  (forall now st,
      Forall2 (fun f f' =>
                 Flight.status f = SCHEDULED -> Flight.dep f <= now -> f' = f)
              (flights st) (flights (commit st (update_flight_statuses now st))))
  /\ (forall ticks st,
        Forall2 (fun f f' =>
                   Flight.status f = SCHEDULED ->
                   Forall (fun now => Flight.dep f <= now) ticks ->
                   f' = f /\ Flight.status f' = SCHEDULED)
                (flights st) (flights (run_ticks ticks st)))
  /\ flight_statuses (run_ticks [minutes 10; minutes 80; minutes 95] overdue_db)
     = [(1, SCHEDULED); (2, BOARDING); (3, LANDED)].
Proof.
  split; [|split; [|reflexivity]].
  - intros now st. rewrite update_flight_statuses_rows.
    induction (flights st) as [|f fs IH]; simpl; constructor; auto.
    intros Hs Hd. apply tick_flight_overdue; assumption.
  - intros ticks. induction ticks as [|now ticks IH]; intros st.
    + simpl. apply Forall2_refl. auto.
    + cbn [run_ticks fold_left]. fold (run_ticks ticks (commit st (update_flight_statuses now st))).
      eapply Forall2_compose; [| |apply IH].
      2:{ rewrite update_flight_statuses_rows.
          instantiate (1 := fun f f1 => f1 = tick_flight now f).
          induction (flights st); simpl; constructor; auto. }
      simpl. intros f f1 f' -> H Hs Hall. inversion Hall; subst.
      rewrite tick_flight_overdue in H by assumption.
      destruct (H Hs) as [-> _]; auto.
Qed.

(* ================================================================= *)
(** ** Invariants of the flights table *)

Lemma delay_flight_Ok d f f' :
  delay_flight d f = Ok f' ->
  Flight.id f' = Flight.id f
  /\ Flight.scheduled_dep f' = Flight.scheduled_dep f
  /\ Flight.scheduled_arr f' = Flight.scheduled_arr f
  /\ Flight.actual_dep f' = Some (Flight.dep f + minutes d)
  /\ Flight.actual_arr f' = Some (Flight.arr f + minutes d)
  /\ Flight.delay_minutes f' = Some (cumulative_delay f + d)
  /\ Flight.status f' = DELAYED.
Proof.
  unfold delay_flight. intros H.
  apply rbind_Ok in H. destruct H as (nd & Hd & H).
  apply rbind_Ok in H. destruct H as (na & Ha & H).
  apply rbind_Ok in H. destruct H as (nm & Hm & H).
  apply timestamp_pl_minutes_Ok in Hd, Ha.
  unfold int4pl in Hm. apply to_int4_Ok in Hm. destruct Hm as [-> _].
  inversion H; subst. simpl. repeat split.
Qed.

Lemma keeps_invariant_refl f : keeps_invariant f f.
Proof. unfold keeps_invariant. auto. Qed.

Lemma keeps_invariant_trans f g h :
  keeps_invariant f g -> keeps_invariant g h -> keeps_invariant f h.
Proof.
  unfold keeps_invariant. intros (H1 & H2 & H3 & H4) (G1 & G2 & G3 & G4).
  repeat split; try congruence. auto.
Qed.

Lemma delay_flight_keeps_invariant d f f' :
  delay_flight d f = Ok f' -> keeps_invariant f f'.
Proof.
  intros H. apply delay_flight_Ok in H.
  destruct H as (Hi & Hsd & Hsa & Hd & Ha & Hm & _).
  repeat split; try assumption.
  intros (dd & aa & Hdd & Haa & Hdep & Hdur).
  exists (Flight.dep f + minutes d), (Flight.arr f + minutes d).
  repeat split; try assumption.
  - unfold cumulative_delay at 1. rewrite Hm, Hsd. unfold Flight.dep.
    rewrite Hdd. simpl. unfold minutes in *. lia.
  - rewrite Hsd, Hsa. unfold Flight.dep, Flight.arr. rewrite Hdd, Haa. simpl. lia.
Qed.

Lemma delay_grows_refl f : delay_grows f f.
Proof. unfold delay_grows. split; [reflexivity | lia]. Qed.

Lemma delay_grows_trans f g h : delay_grows f g -> delay_grows g h -> delay_grows f h.
Proof. unfold delay_grows. intros [H1 H2] [G1 G2]. split; [congruence | lia]. Qed.

Lemma delay_flight_delay_grows d f f' :
  0 <= d -> delay_flight d f = Ok f' -> delay_grows f f'.
Proof.
  intros Hd H. apply delay_flight_Ok in H.
  destruct H as (Hi & _ & _ & _ & _ & Hm & _).
  split; [exact Hi|]. unfold cumulative_delay at 2. rewrite Hm. simpl. lia.
Qed.

(** A relation on flight rows that every written row satisfies holds, row by
    row, between the flights before and after a cascade. *)
Lemma calculate_blast_radius_flights (P : Flight.row -> Flight.row -> Prop)
  (admissible : Z -> Prop) :
  (forall f, P f f) ->
  (forall f g h, P f g -> P g h -> P f h) ->
  (forall d, 0 < d -> admissible d) ->
  (forall d f f', admissible d -> delay_flight d f = Ok f' -> P f f') ->
  forall fuel p d c from depth st st',
    admissible d ->
    calculate_blast_radius fuel p d c from depth st = Returned tt st' ->
    Forall2 P (flights st) (flights st').
Proof.
  intros Prefl Ptrans Hadm Pdelay fuel p d c from depth st st' Hd H.
  apply (calculate_blast_radius_preserves
           (fun s s' => Forall2 P (flights s) (flights s')) admissible)
    with (fuel := fuel) (p := p) (d := d) (c := c) (from := from) (depth := depth);
    try assumption.
  - intros s. apply Forall2_refl. exact Prefl.
  - intros s1 s2 s3. apply Forall2_compose. exact Ptrans.
  - intros p0 d0 s s' Hd0 H0. apply delay_target_Returned in H0.
    destruct H0 as (_ & _ & _ & _ & _ & H0).
    eapply Forall2_impl; [|exact H0]. simpl. intros f f'.
    destruct (Flight.id f =? p0); [apply Pdelay; exact Hd0 | intros ->; apply Prefl].
  - intros p0 a s n s' H0. apply connection_check_Returned in H0.
    destruct H0 as (-> & _). apply Forall2_refl. exact Prefl.
  - intros r s s' H0. apply insert_disruption_log_Returned in H0.
    destruct H0 as [-> _]. apply Forall2_refl. exact Prefl.
Qed.

Lemma trigger_random_delay_Returned choice u_delay u_cause st r st' :
  trigger_random_delay choice u_delay u_cause st = Returned r st' ->
  st' = st
  \/ exists f, calculate_blast_radius (enough_fuel 0) (Flight.id f) (15 + u_delay)
                 (nth_error v_causes u_cause) None 0 st = Returned tt st'.
Proof.
  unfold trigger_random_delay. intros H.
  apply bind_Returned in H. destruct H as (picked & s & Hq & H).
  unfold query in Hq. injection Hq as <- <-.
  destruct (random_flight choice st) as [f|].
  - apply bind_Returned in H. destruct H as ([] & s1 & H1 & H2).
    unfold ret in H2. injection H2 as _ <-. right. exists f. exact H1.
  - unfold ret in H. injection H as _ <-. left. reflexivity.
Qed.

Lemma commit_flights {A} (P : Flight.row -> Flight.row -> Prop) st (o : outcome A) :
  (forall f, P f f) ->
  (forall a st', o = Returned a st' -> Forall2 P (flights st) (flights st')) ->
  Forall2 P (flights st) (flights (commit st o)).
Proof.
  intros Prefl H. destruct o as [a st'|e st'|]; simpl;
    [apply (H a); reflexivity | apply Forall2_refl; exact Prefl
     | apply Forall2_refl; exact Prefl].
Qed.

Lemma tick_flight_fields now f :
  Flight.id (tick_flight now f) = Flight.id f
  /\ Flight.scheduled_dep (tick_flight now f) = Flight.scheduled_dep f
  /\ Flight.scheduled_arr (tick_flight now f) = Flight.scheduled_arr f
  /\ Flight.actual_dep (tick_flight now f) = Flight.actual_dep f
  /\ Flight.actual_arr (tick_flight now f) = Flight.actual_arr f
  /\ Flight.delay_minutes (tick_flight now f) = Flight.delay_minutes f.
Proof.
  unfold tick_flight.
  destruct (to_boarding now f); destruct (to_active now _); destruct (to_landed now _);
    simpl; repeat split.
Qed.

Lemma Forall2_map_r {A} (P : A -> A -> Prop) (g : A -> A) l :
  (forall x, P x (g x)) -> Forall2 P l (map g l).
Proof. intros H. induction l; simpl; constructor; auto. Qed.

Lemma reset_simulation_flights st :
  flights (commit st (reset_simulation st)) = map reset_flight (flights st).
Proof. reflexivity. Qed.

Lemma initialize_flight_times_flights st :
  flights (commit st (initialize_flight_times st))
  = map (fun f => if is_null (Flight.actual_dep f)
                  then Flight.set_actual (Some (Flight.scheduled_dep f))
                                         (Some (Flight.scheduled_arr f)) f
                  else f) (flights st).
Proof. reflexivity. Qed.

(** C5: every activation of the delay propagation, and every operation of the
    engine run as a transaction (a triggered delay of any size, a random
    delay, a lifecycle tick, a reset, the initialization of the actual times),
    keeps, flight by flight, the invariant of an initialized flight:
    [actual_dep] is [scheduled_dep] plus [delay_minutes] minutes and
    [actual_arr - actual_dep] is the scheduled duration.  A reset establishes
    it for every flight. *)
Theorem flight_times_invariant_preserved :
  (forall fuel p d c from depth st st',
      calculate_blast_radius fuel p d c from depth st = Returned tt st' ->
      Forall2 keeps_invariant (flights st) (flights st'))
  /\ (forall op st,
        Forall2 keeps_invariant (flights st) (flights (run_operation st op)))
  /\ (forall ops st,
        Forall2 keeps_invariant (flights st) (flights (run_operations ops st)))
  /\ (forall st, Forall flight_invariant (flights (run_operation st ResetSimulation))).
Proof.
  assert (Hcalc : forall fuel p d c from depth st st',
      calculate_blast_radius fuel p d c from depth st = Returned tt st' ->
      Forall2 keeps_invariant (flights st) (flights st')).
  { intros fuel p d c from depth st st' H.
    apply (calculate_blast_radius_flights keeps_invariant (fun _ => True))
      with (fuel := fuel) (p := p) (d := d) (c := c) (from := from) (depth := depth);
      auto.
    - apply keeps_invariant_refl.
    - apply keeps_invariant_trans.
    - intros d0 f f' _. apply delay_flight_keeps_invariant. }
  assert (Hop : forall op st,
      Forall2 keeps_invariant (flights st) (flights (run_operation st op))).
  { intros [p d c|choice u k|now| |] st; cbn [run_operation].
    - unfold rpc_trigger_delay. apply commit_flights; [apply keeps_invariant_refl|].
      intros [] st'. apply Hcalc.
    - apply commit_flights; [apply keeps_invariant_refl|].
      intros r st' H. apply trigger_random_delay_Returned in H.
      destruct H as [->|(f & H)];
        [apply Forall2_refl; apply keeps_invariant_refl | exact (Hcalc _ _ _ _ _ _ _ _ H)].
    - rewrite update_flight_statuses_rows. apply Forall2_map_r. intros f.
      destruct (tick_flight_fields now f) as (H1 & H2 & H3 & H4 & H5 & H6).
      repeat split; try assumption.
      intros (dd & aa & Hd & Ha & Hdep & Hdur). exists dd, aa.
      unfold cumulative_delay. rewrite H2, H3, H4, H5, H6. auto.
    - rewrite reset_simulation_flights. apply Forall2_map_r. intros f.
      repeat split. intros _.
      exists (Flight.scheduled_dep f), (Flight.scheduled_arr f).
      simpl. unfold cumulative_delay, minutes. simpl. repeat split; lia.
    - rewrite initialize_flight_times_flights. apply Forall2_map_r. intros f.
      destruct (is_null (Flight.actual_dep f)) eqn:E; [|apply keeps_invariant_refl].
      repeat split. intros (dd & aa & Hd & _). rewrite Hd in E. discriminate. }
  split; [exact Hcalc|]. split; [exact Hop|]. split.
  - intros ops. induction ops as [|op ops IH]; intros st.
    + apply Forall2_refl. apply keeps_invariant_refl.
    + cbn [run_operations fold_left]. fold (run_operations ops (run_operation st op)).
      eapply Forall2_compose; [apply keeps_invariant_trans|apply Hop|apply IH].
  - intros st. cbn [run_operation]. rewrite reset_simulation_flights.
    apply Forall_forall. intros f' Hin. apply in_map_iff in Hin.
    destruct Hin as (f & <- & _).
    exists (Flight.scheduled_dep f), (Flight.scheduled_arr f).
    simpl. unfold cumulative_delay, minutes. simpl. repeat split; lia.
Qed.

Lemma flight_times_invariant_preserved_witness :
  Forall2 keeps_invariant (flights rotation_db_initialized) (flights rotation_db_disrupted).
Proof.
  apply (proj1 flight_times_invariant_preserved
           (enough_fuel 0) 1 60 None None 0 rotation_db_initialized rotation_db_disrupted).
  vm_compute. reflexivity.
Defined.





(** The precondition matters: the function takes a negative delay as it
    comes. *)
Example negative_delay_is_applied :
  delays (run_operation rotation_db (TriggerDelay 1 (-10) None))
  = [(1, Some (-10)); (2, Some 5); (3, None)].
Proof. reflexivity. Qed.

(* ================================================================= *)
(** ** suggest_rebookings *)

Lemma candidate_where_spec missed now f :
  candidate_where missed now f = true <-> on_route missed now f.
Proof.
  unfold candidate_where, on_route.
  rewrite !andb_true_iff, negb_true_iff, Z.eqb_neq, Z.ltb_lt, !String.eqb_eq,
    not_landed_or_cancelled_spec. tauto.
Qed.

Lemma candidate_rows_In missed now st c :
  In c (candidate_rows missed now st) <-> is_candidate missed now st c.
Proof.
  unfold candidate_rows, is_candidate. rewrite in_flat_map. split.
  - intros (f & Hf & H). apply in_flat_map in H. destruct H as (a & Ha & H).
    destruct (opt_Z_eqb (Flight.aircraft_id f) (Aircraft.id a)) eqn:E1; [|contradiction].
    destruct (candidate_where missed now f) eqn:E2; [|contradiction].
    simpl in H. destruct H as [<-|[]]. simpl.
    split; [exact Hf|]. split; [apply candidate_where_spec; exact E2|].
    exists a. split; [exact Ha|]. split; [apply opt_Z_eqb_spec; exact E1 | reflexivity].
  - intros (Hf & Hr & a & Ha & Hid & Hcap). exists (fst c). split; [exact Hf|].
    apply in_flat_map. exists a. split; [exact Ha|].
    apply opt_Z_eqb_spec in Hid. apply candidate_where_spec in Hr.
    rewrite Hid, Hr. simpl. left. destruct c; simpl in *. congruence.
Qed.

(** The inner loop is a first fit. *)
Lemma first_available_spec v_booking missed st candidates : forall o,
  first_available v_booking missed candidates st = Ok o ->
  match o with
  | Some s =>
      exists pre c post,
        candidates = pre ++ c :: post
        /\ Forall (fun c' => available c' st <= 0) pre
        /\ 0 < available c st
        /\ minutes_between (Flight.arr missed) (Flight.arr (fst c))
           = Ok (Suggestion.time_saved_minutes s)
        /\ s = Suggestion.mk
                 (Booking.id (fst v_booking)) (snd v_booking)
                 (Booking.passenger_id (fst v_booking))
                 (Flight.flight_number missed) (Flight.origin_code missed)
                 (Flight.destination_code missed)
                 (Flight.id (fst c)) (Flight.flight_number (fst c))
                 (Flight.dep (fst c)) (Flight.arr (fst c))
                 (available c st) (Suggestion.time_saved_minutes s)
  | None => Forall (fun c => available c st <= 0) candidates
  end.
Proof.
  induction candidates as [|c rest IH]; intros o H; simpl in H.
  - inversion H. constructor.
  - destruct (0 <? available c st) eqn:E.
    + apply Z.ltb_lt in E. apply rbind_Ok in H. destruct H as (saved & Hs & H).
      inversion H; subst. exists [], c, rest. simpl. repeat split; auto.
    + apply Z.ltb_ge in E. specialize (IH o H). destruct o as [s|].
      * destruct IH as (pre & c' & post & -> & Hpre & Hrest).
        exists (c :: pre), c', post. split; [reflexivity|]. split; [|exact Hrest].
        constructor; assumption.
      * constructor; assumption.
Qed.

Lemma suggest_loop_spec now st rows : forall l,
  suggest_loop now st rows = Ok l ->
  exists os, Forall2 (fun row o => suggest_for now st row = Ok o) rows os
             /\ l = flat_map option_list os.
Proof.
  induction rows as [|row rest IH]; intros l H; simpl in H.
  - inversion H. exists []. split; [constructor | reflexivity].
  - apply rbind_Ok in H. destruct H as (o & Ho & H).
    apply rbind_Ok in H. destruct H as (l' & Hl & H).
    destruct (IH l' Hl) as (os & Hos & ->).
    exists (o :: os). split; [constructor; assumption|].
    inversion H. destruct o; reflexivity.
Qed.

Lemma stranded_bookings_In st b name :
  In (b, name) (stranded_bookings st) ->
  In b (bookings st)
  /\ Booking.status b = MISSED_CONNECTION
  /\ (exists n, Booking.next_booking_id b = Some n)
  /\ exists p, In p (passengers st) /\ Passenger.id p = Booking.passenger_id b.
Proof.
  unfold stranded_bookings. intros H. apply in_flat_map in H.
  destruct H as (b0 & Hb & H). apply in_flat_map in H. destruct H as (p & Hp & H).
  destruct (Booking.passenger_id b0 =? Passenger.id p) eqn:E1; [|contradiction].
  destruct (booking_status_eqb (Booking.status b0) MISSED_CONNECTION) eqn:E2;
    [|contradiction].
  destruct (Booking.next_booking_id b0) as [n|] eqn:E3; [|contradiction].
  simpl in H. destruct H as [H|[]]. inversion H; subst b0.
  split; [exact Hb|]. split; [destruct (Booking.status b); try discriminate; reflexivity|].
  split; [exists n; exact E3|]. exists p. split; [exact Hp|].
  apply Z.eqb_eq in E1. auto.
Qed.

Lemma suggest_for_spec now st b name o :
  suggest_for now st (b, name) = Ok o ->
  match o with
  | Some s =>
      exists n missed tl,
        Booking.next_booking_id b = Some n
        /\ booking_flight n st = missed :: tl
        /\ first_available (b, name) missed (rebooking_candidates missed now st) st
           = Ok (Some s)
        /\ Suggestion.booking_id s = Booking.id b
  | None => True
  end.
Proof.
  unfold suggest_for. cbn [fst snd]. destruct o as [s|]; [|trivial].
  destruct (Booking.next_booking_id b) as [n|]; [|discriminate].
  destruct (booking_flight n st) as [|missed tl] eqn:E; [discriminate|].
  intros H. exists n, missed, tl. repeat split; auto.
  apply first_available_spec in H.
  destruct H as (pre & c & post & _ & _ & _ & _ & ->). reflexivity.
Qed.

(** With the primary keys of [passengers] and [bookings], the outer loop
    visits a booking once. *)
Lemma stranded_bookings_NoDup st :
  NoDup (map Passenger.id (passengers st)) ->
  NoDup (map Booking.id (bookings st)) ->
  NoDup (map (fun row => Booking.id (fst row)) (stranded_bookings st)).
Proof.
  intros Hp Hb. unfold stranded_bookings.
  induction (bookings st) as [|b bs IH]; simpl; [constructor|].
  inversion Hb as [|? ? Hnin Hb']; subst.
  rewrite map_app. apply NoDup_app.
  - clear - Hp. induction (passengers st) as [|p ps IHp]; simpl; [constructor|].
    inversion Hp as [|? ? Hpn Hp']; subst.
    destruct (Booking.passenger_id b =? Passenger.id p) eqn:E; simpl;
      [|apply IHp; exact Hp'].
    destruct (booking_status_eqb (Booking.status b) MISSED_CONNECTION
              && negb (is_null (Booking.next_booking_id b))); simpl;
      [|apply IHp; exact Hp'].
    constructor; [|apply IHp; exact Hp'].
    intros Hin. apply in_map_iff in Hin. destruct Hin as ([b' nm] & _ & Hin).
    apply in_flat_map in Hin. destruct Hin as (p' & Hp'in & Hin).
    destruct (Booking.passenger_id b =? Passenger.id p') eqn:E'; [|contradiction].
    apply Z.eqb_eq in E, E'. apply Hpn. apply in_map_iff. exists p'.
    split; [congruence | exact Hp'in].
  - apply IH. exact Hb'.
  - intros x Hx Hx'. apply Hnin.
    apply in_map_iff in Hx. destruct Hx as ([b1 nm1] & <- & Hin1).
    apply in_flat_map in Hin1. destruct Hin1 as (p1 & _ & Hin1).
    destruct (_ && _) in Hin1; [|contradiction].
    destruct Hin1 as [Heq|[]]. inversion Heq; subst b1. simpl in *.
    apply in_map_iff in Hx'. destruct Hx' as ([b2 nm2] & Hid & Hin2).
    apply in_flat_map in Hin2. destruct Hin2 as (b3 & Hb3 & Hin2).
    apply in_flat_map in Hin2. destruct Hin2 as (p2 & _ & Hin2).
    destruct (_ && _) in Hin2; [|contradiction].
    destruct Hin2 as [Heq2|[]]. inversion Heq2; subst b3. simpl in Hid.
    apply in_map_iff. exists b2. split; [exact Hid | exact Hb3].
Qed.

Lemma suggestions_NoDup now st rows : forall os,
  Forall2 (fun row o => suggest_for now st row = Ok o) rows os ->
  NoDup (map (fun row => Booking.id (fst row)) rows) ->
  NoDup (map Suggestion.booking_id (flat_map option_list os))
  /\ forall x, In x (map Suggestion.booking_id (flat_map option_list os)) ->
               In x (map (fun row => Booking.id (fst row)) rows).
Proof.
  induction rows as [|[b name] rows IH]; intros os H Hnd; inversion H; subst.
  - simpl. split; [constructor | auto].
  - inversion Hnd as [|? ? Hnin Hnd']; subst.
    match goal with Hf : Forall2 _ rows _ |- _ => destruct (IH _ Hf Hnd') as [IH1 IH2] end.
    match goal with Hs : suggest_for _ _ _ = Ok ?o |- _ =>
      apply suggest_for_spec in Hs; destruct o as [s|] end.
    + match goal with Hs : exists _, _ |- _ =>
        destruct Hs as (n & missed & tl & _ & _ & _ & Hid) end.
      simpl. rewrite Hid. split.
      * constructor; [|exact IH1]. intros Hin. apply Hnin. apply IH2. exact Hin.
      * intros x [<-|Hx]; [left; reflexivity | right; apply IH2; exact Hx].
    + simpl. split; [exact IH1|]. intros x Hx. right. apply IH2. exact Hx.
Qed.

(** C8: [suggest_rebookings] makes one pass per stranded booking (status
    MISSED_CONNECTION, with a forward link), and a pass yields at most one
    suggestion, so no booking is suggested twice.  For the missed flight (the
    flight of the linked booking), the candidates are the flights on its
    origin and destination leaving after [now], neither LANDED nor CANCELLED
    and other than the missed flight, each with the capacity of its aircraft,
    in the order of their effective departure, the first three at most.  The
    suggestion is the first of these with capacity minus CONFIRMED and
    REBOOKED bookings above 0; it reports that difference as seats available
    and the minutes from the candidate's arrival to the missed arrival as time
    saved, whatever its sign.  When none of the candidates has a seat the pass
    yields nothing.  In [rebooking_db] the first two candidates are full and
    the third, with one seat, is suggested, 400 minutes slower.  A stranded
    booking whose linked booking has no flight yields nothing. *)
Theorem rebooking_first_fit_of_three :
  (forall now st l,
      suggest_rebookings now st = Ok l ->
      (exists os,
          Forall2 (fun row o => suggest_for now st row = Ok o) (stranded_bookings st) os
          /\ l = flat_map option_list os)
      /\ (NoDup (map Passenger.id (passengers st)) ->
          NoDup (map Booking.id (bookings st)) ->
          NoDup (map Suggestion.booking_id l)))
  /\ (forall st b name,
        In (b, name) (stranded_bookings st) ->
        In b (bookings st) /\ Booking.status b = MISSED_CONNECTION
        /\ exists n, Booking.next_booking_id b = Some n)
  /\ (forall now st b name n missed tl o,
        Booking.next_booking_id b = Some n ->
        booking_flight n st = missed :: tl ->
        suggest_for now st (b, name) = Ok o ->
        exists candidates rest,
          order_by candidate_dep (candidate_rows missed now st) = candidates ++ rest
          /\ (List.length candidates <= 3)%nat
          /\ (rest <> [] -> List.length candidates = 3%nat)
          /\ (forall c, In c (candidates ++ rest) <-> is_candidate missed now st c)
          /\ StronglySorted (key_le candidate_dep) (candidates ++ rest)
          /\ (forall c, available c st
                        = snd c - Z.of_nat (List.length (filter (fun b' =>
                            (Booking.flight_id b' =? Flight.id (fst c))
                            && (booking_status_eqb (Booking.status b') CONFIRMED
                                || booking_status_eqb (Booking.status b') REBOOKED))
                            (bookings st))))
          /\ match o with
             | Some s =>
                 exists pre c post,
                   candidates = pre ++ c :: post
                   /\ Forall (fun c' => available c' st <= 0) pre
                   /\ 0 < available c st
                   /\ Suggestion.booking_id s = Booking.id b
                   /\ Suggestion.suggested_flight_id s = Flight.id (fst c)
                   /\ Suggestion.seats_available s = available c st
                   /\ minutes_between (Flight.arr missed) (Flight.arr (fst c))
                      = Ok (Suggestion.time_saved_minutes s)
             | None => Forall (fun c => available c st <= 0) candidates
             end)
  /\ (forall now st b name n,
        Booking.next_booking_id b = Some n ->
        booking_flight n st = [] ->
        suggest_for now st (b, name) = Ok None)
  /\ suggest_rebookings (minutes 150) rebooking_db
     = Ok [Suggestion.mk 1 "Ada Byron" 1 "FL20" "JFK" "LHR" 23 "FL23"
             (minutes 400) (minutes 900) 1 (-400)].
Proof.
  split; [|split; [|split; [|split; [|reflexivity]]]];
    [| | |intros now st b name n Hn Hm; unfold suggest_for; cbn [fst];
          rewrite Hn, Hm; reflexivity].
  - intros now st l H. unfold suggest_rebookings in H.
    apply suggest_loop_spec in H. destruct H as (os & Hos & ->).
    split; [exists os; auto|]. intros Hp Hb.
    apply (suggestions_NoDup now st (stranded_bookings st) os Hos).
    apply stranded_bookings_NoDup; assumption.
  - intros st b name H. apply stranded_bookings_In in H. tauto.
  - intros now st b name n missed tl o Hn Hm H.
    unfold suggest_for in H. cbn [fst] in H. rewrite Hn, Hm in H.
    unfold rebooking_candidates in H.
    set (sorted := order_by candidate_dep (candidate_rows missed now st)) in *.
    exists (firstn 3 sorted), (skipn 3 sorted).
    split; [symmetry; apply firstn_skipn|].
    split; [apply firstn_le_length|].
    split.
    { intros Hrest. rewrite length_firstn. apply Nat.min_l.
      destruct (Nat.le_gt_cases 3 (List.length sorted)) as [Hle|Hgt]; [exact Hle|].
      exfalso. apply Hrest. apply skipn_all2. lia. }
    rewrite firstn_skipn.
    split.
    { intros c. unfold sorted. rewrite order_by_In. apply candidate_rows_In. }
    split; [apply order_by_strongly_sorted|].
    split; [reflexivity|].
    apply first_available_spec in H. destruct o as [s|]; [|exact H].
    destruct H as (pre & c & post & Hc & Hpre & Hav & Hmin & Hs).
    exists pre, c, post. rewrite Hs. simpl. repeat split; auto.
Qed.

Lemma rebooking_first_fit_of_three_witness :
  let b := Booking.mk 1 1 10 (Some 2) MISSED_CONNECTION in
  let missed := Flight.mk 20 "FL20" (Some 1) "JFK" "LHR" (minutes 100) (minutes 500)
                  None None None ACTIVE in
  let o := Some (Suggestion.mk 1 "Ada Byron" 1 "FL20" "JFK" "LHR" 23 "FL23"
                   (minutes 400) (minutes 900) 1 (-400)) in
  exists candidates rest,
    order_by candidate_dep (candidate_rows missed (minutes 150) rebooking_db)
    = candidates ++ rest
    /\ (List.length candidates <= 3)%nat
    /\ (rest <> [] -> List.length candidates = 3%nat)
    /\ (forall c, In c (candidates ++ rest)
                  <-> is_candidate missed (minutes 150) rebooking_db c)
    /\ StronglySorted (key_le candidate_dep) (candidates ++ rest)
    /\ (forall c, available c rebooking_db
                  = snd c - Z.of_nat (List.length (filter (fun b' =>
                      (Booking.flight_id b' =? Flight.id (fst c))
                      && (booking_status_eqb (Booking.status b') CONFIRMED
                          || booking_status_eqb (Booking.status b') REBOOKED))
                      (bookings rebooking_db))))
    /\ match o with
       | Some s =>
           exists pre c post,
             candidates = pre ++ c :: post
             /\ Forall (fun c' => available c' rebooking_db <= 0) pre
             /\ 0 < available c rebooking_db
             /\ Suggestion.booking_id s = Booking.id b
             /\ Suggestion.suggested_flight_id s = Flight.id (fst c)
             /\ Suggestion.seats_available s = available c rebooking_db
             /\ minutes_between (Flight.arr missed) (Flight.arr (fst c))
                = Ok (Suggestion.time_saved_minutes s)
       | None => Forall (fun c => available c rebooking_db <= 0) candidates
       end.
Proof.
  intros b missed o.
  apply (proj1 (proj2 (proj2 rebooking_first_fit_of_three))
           (minutes 150) rebooking_db b "Ada Byron"%string 2 missed [] o).
  - reflexivity.
  - reflexivity.
  - vm_compute. reflexivity.
Defined.

(* ================================================================= *)
(** ** More on calculate_blast_radius: the footprint of a cascade *)

Lemma Forall2_In_l {A B} (R : A -> B -> Prop) l l' :
  Forall2 R l l' -> Forall2 (fun x y => In x l /\ R x y) l l'.
Proof.
  induction 1 as [|x y l l' Hxy _ IH]; constructor.
  - split; [left; reflexivity | exact Hxy].
  - eapply Forall2_impl; [|exact IH]. simpl. intros a b [Ha Hab].
    split; [right; exact Ha | exact Hab].
Qed.

Lemma Forall2_exists_l {A B} (R : A -> B -> Prop) l l' y :
  Forall2 R l l' -> In y l' -> exists x, In x l /\ R x y.
Proof.
  induction 1 as [|x y0 l l' Hxy _ IH]; intros Hin; [contradiction|].
  destruct Hin as [<-|Hin].
  - exists x. split; [left; reflexivity | exact Hxy].
  - destruct (IH Hin) as (x' & Hx' & Hr). exists x'. split; [right|]; assumption.
Qed.

Lemma Forall2_exists_r {A B} (R : A -> B -> Prop) l l' x :
  Forall2 R l l' -> In x l -> exists y, In y l' /\ R x y.
Proof.
  induction 1 as [|x0 y l l' Hxy _ IH]; intros Hin; [contradiction|].
  destruct Hin as [<-|Hin].
  - exists y. split; [left; reflexivity | exact Hxy].
  - destruct (IH Hin) as (y' & Hy' & Hr). exists y'. split; [right|]; assumption.
Qed.

Lemma pkey_unique (l : list Flight.row) f g :
  NoDup (map Flight.id l) -> In f l -> In g l -> Flight.id f = Flight.id g -> f = g.
Proof.
  induction l as [|x l IH]; intros Hnd Hf Hg Hid; [contradiction|].
  inversion Hnd as [|? ? Hnin Hnd']; subst.
  destruct Hf as [<-|Hf]; destruct Hg as [<-|Hg]; auto.
  - exfalso. apply Hnin. rewrite Hid. apply in_map. exact Hg.
  - exfalso. apply Hnin. rewrite <- Hid. apply in_map. exact Hf.
Qed.

Lemma pkey_find (l : list Flight.row) f :
  NoDup (map Flight.id l) -> In f l ->
  find (fun g => Flight.id g =? Flight.id f) l = Some f.
Proof.
  intros Hnd Hin.
  destruct (find (fun g => Flight.id g =? Flight.id f) l) as [g|] eqn:E.
  - apply find_some in E. destruct E as [Hg Hid]. apply Z.eqb_eq in Hid.
    f_equal. apply (pkey_unique l); assumption.
  - exfalso. apply (find_none _ _ E f) in Hin. rewrite Z.eqb_refl in Hin. discriminate.
Qed.

Lemma delay_flight_aircraft d f f' :
  delay_flight d f = Ok f' -> Flight.aircraft_id f' = Flight.aircraft_id f.
Proof.
  unfold delay_flight. intros H.
  apply rbind_Ok in H. destruct H as (nd & _ & H).
  apply rbind_Ok in H. destruct H as (na & _ & H).
  apply rbind_Ok in H. destruct H as (nm & _ & H).
  inversion H. reflexivity.
Qed.

Lemma delay_target_ids p d st st1 :
  delay_target p d st = Returned tt st1 ->
  map Flight.id (flights st1) = map Flight.id (flights st).
Proof.
  intros H. apply delay_target_Returned in H. destruct H as (_ & _ & _ & _ & _ & H).
  eapply Forall2_map_eq; [|exact H]. simpl. intros f f'.
  destruct (Flight.id f =? p); [|intros ->; reflexivity].
  intros Hd. apply delay_flight_Ok in Hd. apply Hd.
Qed.

Lemma next_flight_Some a p D st nf E :
  next_flight a p D st = Some (nf, E) ->
  exists a0 D0 f,
    a = Some a0 /\ D = Some D0 /\ In f (flights st)
    /\ turnaround_eligible a0 p D0 f /\ Flight.id f = nf /\ Flight.dep f = E.
Proof.
  unfold next_flight. intros H.
  destruct (order_by Flight.dep (filter (next_flight_where a p D) (flights st)))
    as [|f rest] eqn:Eo; [discriminate|].
  inversion H; subst.
  assert (Hf : In f (filter (next_flight_where a p D) (flights st))).
  { apply (order_by_In Flight.dep). rewrite Eo. left. reflexivity. }
  apply filter_In in Hf. destruct Hf as [Hin Hw].
  destruct a as [a0|]; [|discriminate]. destruct D as [D0|]; [|discriminate].
  exists a0, D0, f. repeat split; auto; apply next_flight_where_spec in Hw; apply Hw.
Qed.

Lemma turnaround_cascade_Some next arr nf fd :
  turnaround_cascade next arr = Ok (Some (nf, fd)) ->
  exists E, next = Some (nf, E) /\ 0 < fd.
Proof.
  unfold turnaround_cascade. destruct next as [[id E]|]; [|discriminate].
  intros H. apply rbind_Ok in H. destruct H as (v & _ & H).
  destruct v as [v|]; [|discriminate].
  destruct (0 <? v) eqn:Ev; [|discriminate].
  inversion H; subst. exists E. split; [reflexivity | apply Z.ltb_lt; exact Ev].
Qed.

Lemma minutes_pos n : 0 < n -> 0 < minutes n.
Proof. unfold minutes, USECS_PER_MINUTE. lia. Qed.

Lemma cascade_step_refl a D p f : cascade_step a D p f f.
Proof. split; intros _; [reflexivity | left; reflexivity]. Qed.

(** The rows of [flights] after an activation, against the rows STEP 1 left. *)
Lemma calculate_blast_radius_steps fuel : forall p d c from depth st st',
  calculate_blast_radius fuel p d c from depth st = Returned tt st' ->
  flights_pkey st ->
  (20 < depth /\ st' = st)
  \/ (depth <= 20 /\
      exists st1 arr D a,
        delay_target p d st = Returned tt st1
        /\ fetch_updated p st1 = (arr, D, a)
        /\ Forall2 (cascade_step a D p) (flights st1) (flights st')).
Proof.
  induction fuel as [|fuel IH]; intros p d c from depth st st' H Hpk; [discriminate|].
  apply calculate_blast_radius_Returned in H.
  destruct H as [[Hd ->]|(Hle & st1 & st2 & st3 & arr & D & a & casc & fi & pax
                          & H1 & Hfetch & Hc & H4 & H5 & H6)]; [left; auto|].
  right. split; [exact Hle|]. exists st1, arr, D, a.
  split; [exact H1|]. split; [exact Hfetch|].
  assert (Hpk1 : flights_pkey st1).
  { unfold flights_pkey. rewrite (delay_target_ids _ _ _ _ H1). exact Hpk. }
  apply connection_check_Returned in H5. destruct H5 as (Hf3 & _).
  apply insert_disruption_log_Returned in H6. destruct H6 as [-> _].
  cbn [flights set_disruption_log]. rewrite Hf3.
  destruct casc as [[nf fd]|].
  2:{ destruct H4 as [-> _]. apply Forall2_refl. apply cascade_step_refl. }
  destruct H4 as (H4 & _ & Hfd).
  apply turnaround_cascade_Some in Hc. destruct Hc as (E & Hnext & _).
  apply next_flight_Some in Hnext.
  destruct Hnext as (a0 & D0 & fn & -> & -> & Hfn & Hel & Hidn & HE).
  destruct Hel as (Hac & Hnp & Hs1 & Hs2 & HD).
  apply IH in H4; [|exact Hpk1].
  destruct H4 as [[_ ->]|(_ & st1c & arrc & Dc & ac & H1c & Hfc & Hrel)];
    [apply Forall2_refl; apply cascade_step_refl|].
  (* the target's row in [st1] departs at [D0] *)
  assert (Htarget : forall f1, In f1 (flights st1) -> Flight.id f1 = p ->
                               Flight.dep f1 = D0).
  { intros f1 Hin Hid. unfold fetch_updated in Hfetch.
    rewrite <- Hid in Hfetch. rewrite (pkey_find _ _ Hpk1 Hin) in Hfetch.
    inversion Hfetch as [[Ha Hd Hc]]. unfold Flight.dep. rewrite Hd. reflexivity. }
  (* the child's row, delayed *)
  pose proof (delay_target_Returned _ _ _ _ H1c) as (_ & _ & _ & _ & _ & Hrows).
  destruct (Forall2_exists_r _ _ _ fn Hrows Hfn) as (fnc & Hfnc & Hdel).
  rewrite Hidn, Z.eqb_refl in Hdel.
  assert (Hpk1c : flights_pkey st1c).
  { unfold flights_pkey. rewrite (delay_target_ids _ _ _ _ H1c). exact Hpk1. }
  pose proof (delay_flight_Ok _ _ _ Hdel) as (Hidc & _ & _ & Hdepc & _).
  assert (Hac_c : ac = Some a0 /\ Dc = Some (E + minutes fd)).
  { unfold fetch_updated in Hfc. rewrite <- Hidn, <- Hidc in Hfc.
    rewrite (pkey_find _ _ Hpk1c Hfnc) in Hfc. inversion Hfc as [[Ha Hd Hc]].
    rewrite (delay_flight_aircraft _ _ _ Hdel), Hac, Hdepc, HE. auto. }
  destruct Hac_c as [-> ->].
  pose proof (minutes_pos fd Hfd) as Hmin.
  eapply Forall2_compose; [|apply Forall2_In_l; exact Hrows|exact Hrel].
  simpl. intros f1 f1c f2 [Hin1 Hstep] [Hc1 Hc2]. split.
  - intros Hid. assert (Hne : Flight.id f1 <> nf) by congruence.
    apply Z.eqb_neq in Hne. rewrite Hne in Hstep. subst f1c.
    assert (Hne' : Flight.id f1 <> nf) by (apply Z.eqb_neq; exact Hne).
    destruct (Hc2 Hne') as [->|(a1 & D1 & fd1 & Ha1 & HD1 & _ & Hle1 & _)];
      [reflexivity|].
    exfalso. inversion HD1; subst D1. rewrite (Htarget f1 Hin1 Hid) in Hle1. lia.
  - intros Hnp1. destruct (Flight.id f1 =? nf) eqn:En.
    + apply Z.eqb_eq in En.
      assert (f1 = fn) by (apply (pkey_unique (flights st1)); auto; congruence).
      subst f1. pose proof (delay_flight_Ok _ _ _ Hstep) as (Hid1c & _).
      rewrite (Hc1 (eq_trans Hid1c En)).
      right. exists a0, D0, fd. repeat split; auto.
    + subst f1c. apply Z.eqb_neq in En.
      destruct (Hc2 En) as [->|(a1 & D1 & fd1 & Ha1 & HD1 & Hac1 & Hle1 & Hs1' & Hs2'
                                 & Hfd1 & Hdel1)]; [left; reflexivity|].
      right. inversion Ha1; subst a1. inversion HD1; subst D1.
      exists a0, D0, fd1. repeat split; auto. lia.
Qed.

Lemma calculate_blast_radius_footprint fuel p d c from depth st st' :
  depth <= 20 -> flights_pkey st ->
  calculate_blast_radius fuel p d c from depth st = Returned tt st' ->
  Forall2 (cascade_footprint p d st) (flights st) (flights st').
Proof.
  intros Hle Hpk H. apply calculate_blast_radius_steps in H; [|exact Hpk].
  destruct H as [[Hgt _]|(_ & st1 & arr & D & a & H1 & Hfetch & Hrel)]; [lia|].
  pose proof (delay_target_Returned _ _ _ _ H1) as (_ & _ & _ & _ & _ & Hrows).
  assert (Hpk1 : flights_pkey st1).
  { unfold flights_pkey. rewrite (delay_target_ids _ _ _ _ H1). exact Hpk. }
  eapply Forall2_compose; [|exact Hrows|exact Hrel].
  simpl. intros f f1 f' Hstep [Hc1 Hc2]. split.
  - intros Hid. apply Z.eqb_eq in Hid. rewrite Hid in Hstep.
    pose proof (delay_flight_Ok _ _ _ Hstep) as (Hid1 & _).
    apply Z.eqb_eq in Hid. rewrite (Hc1 (eq_trans Hid1 Hid)). exact Hstep.
  - intros Hne. apply Z.eqb_neq in Hne. rewrite Hne in Hstep. subst f1.
    apply Z.eqb_neq in Hne.
    destruct (Hc2 Hne) as [->|(a0 & D0 & fd & -> & -> & Hac & HD & Hs1 & Hs2 & Hfd & Hdel)];
      [left; reflexivity|].
    right. unfold fetch_updated in Hfetch.
    destruct (find (fun g => Flight.id g =? p) (flights st1)) as [t1|] eqn:Ef;
      [|discriminate].
    apply find_some in Ef. destruct Ef as [Ht1 Hidt1]. apply Z.eqb_eq in Hidt1.
    inversion Hfetch as [[Harr Hdep Hair]].
    destruct (Forall2_exists_l _ _ _ t1 Hrows Ht1) as (t & Ht & Hstept).
    simpl in Hstept. destruct (Flight.id t =? p) eqn:Et.
    + apply Z.eqb_eq in Et. exists t, t1, fd.
      pose proof (delay_flight_aircraft _ _ _ Hstept) as Hat.
      repeat split; auto.
      * rewrite <- Hat, Hair. discriminate.
      * rewrite <- Hat, Hair. exact Hac.
      * unfold Flight.dep at 1. rewrite Hdep. exact HD.
    + subst t1. apply Z.eqb_neq in Et. contradiction.
Qed.

(** X1: under the primary key of [flights], a cascade that returns has
    delayed its target exactly once and by exactly the minutes asked for,
    whatever the target's status was: the actual times are the effective times
    plus the delay, the cumulative delay has grown by it, the status is
    DELAYED.  The cascade never comes back to the flight it started from. *)
Theorem cascade_delays_target_once :
  forall fuel p d c from depth st st',
    depth <= 20 -> flights_pkey st ->
    calculate_blast_radius fuel p d c from depth st = Returned tt st' ->
    Forall2 (fun f f' =>
               Flight.id f = p ->
               Flight.actual_dep f' = Some (Flight.dep f + minutes d)
               /\ Flight.actual_arr f' = Some (Flight.arr f + minutes d)
               /\ Flight.delay_minutes f' = Some (cumulative_delay f + d)
               /\ Flight.status f' = DELAYED
               /\ Flight.id f' = Flight.id f)
            (flights st) (flights st').
Proof.
  intros fuel p d c from depth st st' Hle Hpk H.
  eapply Forall2_impl; [|exact (calculate_blast_radius_footprint _ _ _ _ _ _ _ _ Hle Hpk H)].
  simpl. intros f f' [Ht _] Hid. specialize (Ht Hid).
  apply delay_flight_Ok in Ht. tauto.
Qed.

Lemma rotation_db_initialized_pkey : flights_pkey rotation_db_initialized.
Proof.
  unfold flights_pkey. simpl. repeat constructor; simpl; intuition discriminate.
Defined.

Lemma rotation_db_disrupted_Returned :
  calculate_blast_radius (enough_fuel 0) 1 60 None None 0 rotation_db_initialized
  = Returned tt rotation_db_disrupted.
Proof. vm_compute. reflexivity. Defined.

Lemma cascade_delays_target_once_witness :
  Forall2 (fun f f' =>
             Flight.id f = 1 ->
             Flight.actual_dep f' = Some (Flight.dep f + minutes 60)
             /\ Flight.actual_arr f' = Some (Flight.arr f + minutes 60)
             /\ Flight.delay_minutes f' = Some (cumulative_delay f + 60)
             /\ Flight.status f' = DELAYED
             /\ Flight.id f' = Flight.id f)
          (flights rotation_db_initialized) (flights rotation_db_disrupted).
Proof.
  apply (cascade_delays_target_once (enough_fuel 0) 1 60 None None 0
           rotation_db_initialized rotation_db_disrupted).
  - lia.
  - exact rotation_db_initialized_pkey.
  - exact rotation_db_disrupted_Returned.
Defined.

(** X2: under the primary key of [flights], a cascade that returns changes a
    flight other than its target only if that flight is on the target's
    aircraft, was neither LANDED nor CANCELLED and left no earlier than the
    target leaves once delayed; such a flight is delayed once, by a positive
    number of minutes.  Flights of other aircraft, flights of a target without
    aircraft, landed, cancelled and earlier flights are as they were. *)
Theorem cascade_stays_on_the_aircraft :
  forall fuel p d c from depth st st',
    depth <= 20 -> flights_pkey st ->
    calculate_blast_radius fuel p d c from depth st = Returned tt st' ->
    Forall2 (fun f f' =>
               Flight.id f <> p ->
               f' = f
               \/ exists target target' forced,
                    In target (flights st) /\ Flight.id target = p
                    /\ delay_flight d target = Ok target'
                    /\ Flight.aircraft_id target <> None
                    /\ Flight.aircraft_id f = Flight.aircraft_id target
                    /\ Flight.dep target' <= Flight.dep f
                    /\ Flight.status f <> LANDED /\ Flight.status f <> CANCELLED
                    /\ 0 < forced /\ delay_flight forced f = Ok f')
            (flights st) (flights st').
Proof.
  intros fuel p d c from depth st st' Hle Hpk H.
  eapply Forall2_impl; [|exact (calculate_blast_radius_footprint _ _ _ _ _ _ _ _ Hle Hpk H)].
  simpl. intros f f' [_ Ho]. exact Ho.
Qed.

Lemma cascade_stays_on_the_aircraft_witness :
  Forall2 (fun f f' =>
             Flight.id f <> 1 ->
             f' = f
             \/ exists target target' forced,
                  In target (flights rotation_db_initialized) /\ Flight.id target = 1
                  /\ delay_flight 60 target = Ok target'
                  /\ Flight.aircraft_id target <> None
                  /\ Flight.aircraft_id f = Flight.aircraft_id target
                  /\ Flight.dep target' <= Flight.dep f
                  /\ Flight.status f <> LANDED /\ Flight.status f <> CANCELLED
                  /\ 0 < forced /\ delay_flight forced f = Ok f')
          (flights rotation_db_initialized) (flights rotation_db_disrupted).
Proof.
  apply (cascade_stays_on_the_aircraft (enough_fuel 0) 1 60 None None 0
           rotation_db_initialized rotation_db_disrupted).
  - lia.
  - exact rotation_db_initialized_pkey.
  - exact rotation_db_disrupted_Returned.
Defined.

(* ================================================================= *)
(** ** More on calculate_blast_radius: the log and the counters *)

Lemma connection_loop_count a rows : forall k st n st',
  connection_loop a rows k st = Returned n st' ->
  n = k + Z.of_nat (List.length (filter (broken_link a st) rows)).
Proof.
  induction rows as [|bk rest IH]; intros k st n st' H.
  - simpl in H. inversion H. simpl. lia.
  - simpl in H. apply bind_Returned in H. destruct H as (n1 & st1 & H1 & H2).
    apply IH in H2. apply check_connection_Returned in H1.
    destruct H1 as [(Hbk & -> & ->)|(Hbk & -> & Hn1)].
    + simpl. rewrite Hbk. exact H2.
    + simpl. rewrite Hbk.
      unfold int4pl in Hn1. apply to_int4_Ok in Hn1. destruct Hn1 as [-> _].
      rewrite (filter_ext (broken_link a (mark_missed (snd bk) (mark_missed (fst bk) st)))
                          (broken_link a st)) in H2.
      * cbn [List.length]. lia.
      * intros x. apply broken_link_ext; [reflexivity|].
        unfold mark_missed; simpl. rewrite !update_rows_set_status_key. reflexivity.
Qed.

Lemma connecting_bookings_spec p st id nb :
  In (id, nb) (connecting_bookings p st) <->
  exists b, In b (bookings st) /\ Booking.id b = id /\ Booking.flight_id b = p
            /\ Booking.status b = CONFIRMED /\ Booking.next_booking_id b = Some nb.
Proof.
  unfold connecting_bookings. rewrite in_flat_map. split.
  - intros (b & Hb & H). destruct (Booking.next_booking_id b) as [n|] eqn:En; [|contradiction].
    destruct (Booking.flight_id b =? p) eqn:Ep; [|contradiction].
    destruct (booking_status_eqb (Booking.status b) CONFIRMED) eqn:Es; [|contradiction].
    simpl in H. destruct H as [H|[]]. inversion H; subst.
    exists b. apply Z.eqb_eq in Ep. repeat split; auto.
    destruct (Booking.status b); try discriminate; reflexivity.
  - intros (b & Hb & <- & Hp & Hs & Hn). exists b. split; [exact Hb|].
    rewrite Hn, Hp, Hs, Z.eqb_refl. simpl. auto.
Qed.

(** X3: the number STEP 3 returns, logged as [passengers_impacted], is the
    number of bookings it found broken: CONFIRMED bookings on the flight whose
    forward link leads to a flight leaving less than 30 minutes after the
    updated arrival.  It counts bookings, one per broken connection of the
    loop, and is never negative. *)
Theorem passengers_impacted_counts_broken_connections :
  forall p v_new_arr st n st',
    connection_check p v_new_arr st = Returned n st' ->
    n = Z.of_nat (List.length (filter (broken_link v_new_arr st) (connecting_bookings p st)))
    /\ 0 <= n
    /\ (forall id nb,
          In (id, nb) (filter (broken_link v_new_arr st) (connecting_bookings p st)) <->
          exists b d a m,
            In b (bookings st) /\ Booking.id b = id /\ Booking.flight_id b = p
            /\ Booking.status b = CONFIRMED /\ Booking.next_booking_id b = Some nb
            /\ connecting_departure nb st = Some d /\ v_new_arr = Some a
            /\ minutes_between d a = Ok m /\ m < 30).
Proof.
  intros p a st n st' H. unfold connection_check in H.
  apply bind_Returned in H. destruct H as (rows & s & Hq & H).
  unfold query in Hq. injection Hq as <- <-.
  apply connection_loop_count in H. split; [lia|]. split; [lia|].
  intros id nb. rewrite filter_In, connecting_bookings_spec.
  unfold broken_link, connection_broken, v_min_connection. cbn [snd]. split.
  - intros [(b & Hb & Hid & Hp & Hs & Hn) Hbr]. exists b.
    destruct (connecting_departure nb st) as [d|]; [|discriminate].
    destruct a as [a|]; [|discriminate].
    destruct (minutes_between d a) as [m|e] eqn:Emin; [|discriminate].
    cbn [rbind] in Hbr. destruct (m <? 30) eqn:Em; [|discriminate].
    apply Z.ltb_lt in Em. exists d, a, m. repeat split; auto.
  - intros (b & d & a0 & m & Hb & Hid & Hp & Hs & Hn & Hd & -> & Hm & Hlt).
    split; [exists b; auto|]. rewrite Hd, Hm. cbn [rbind].
    replace (m <? 30) with true by (symmetry; apply Z.ltb_lt; exact Hlt). reflexivity.
Qed.

Lemma passengers_impacted_counts_broken_connections_witness :
  1 = Z.of_nat (List.length (filter (broken_link (Some (minutes 150)) connection_db_delayed)
                               (connecting_bookings 1 connection_db_delayed)))
  /\ 0 <= 1
  /\ (forall id nb,
        In (id, nb) (filter (broken_link (Some (minutes 150)) connection_db_delayed)
                            (connecting_bookings 1 connection_db_delayed)) <->
        exists b d a m,
          In b (bookings connection_db_delayed) /\ Booking.id b = id
          /\ Booking.flight_id b = 1
          /\ Booking.status b = CONFIRMED /\ Booking.next_booking_id b = Some nb
          /\ connecting_departure nb connection_db_delayed = Some d
          /\ Some (minutes 150) = Some a
          /\ minutes_between d a = Ok m /\ m < 30).
Proof.
  exact (passengers_impacted_counts_broken_connections 1 (Some (minutes 150))
           connection_db_delayed 1 connection_db_checked eq_refl).
Defined.

(** The log after an activation that ran. *)
Lemma calculate_blast_radius_log_rows fuel : forall p d c from depth st st',
  calculate_blast_radius fuel p d c from depth st = Returned tt st' ->
  (20 < depth /\ st' = st)
  \/ (depth <= 20 /\
      exists sub pax fi,
        disruption_log st' = disruption_log st ++ sub ++ [DisruptionLog.mk p d c from pax fi]
        /\ Forall cascade_row sub
        /\ (fi = 0 \/ fi = 1) /\ (fi = 0 -> sub = [])
        /\ 0 <= pax).
Proof.
  induction fuel as [|fuel IH]; intros p d c from depth st st' H; [discriminate|].
  apply calculate_blast_radius_Returned in H.
  destruct H as [[Hd ->]|(Hle & st1 & st2 & st3 & arr & D & a & casc & fi & pax
                          & H1 & _ & _ & H4 & H5 & H6)]; [left; auto|].
  right. split; [exact Hle|].
  apply delay_target_Returned in H1. destruct H1 as (_ & _ & _ & Hl1 & _).
  assert (Hpax : 0 <= pax).
  { unfold connection_check in H5. apply bind_Returned in H5.
    destruct H5 as (rows & s & Hq & H5). apply connection_loop_count in H5. lia. }
  apply connection_check_Returned in H5. destruct H5 as (_ & _ & _ & Hl3 & _).
  apply insert_disruption_log_Returned in H6. destruct H6 as [-> _].
  cbn [disruption_log set_disruption_log]. rewrite Hl3.
  destruct casc as [[nf fd]|].
  - destruct H4 as (H4 & -> & Hfd). apply IH in H4.
    destruct H4 as [[_ ->]|(_ & subc & paxc & fic & Hlc & Hsub & _)].
    + exists [], pax, 1. rewrite Hl1. repeat split; auto; try lia.
    + exists (subc ++ [DisruptionLog.mk nf fd (Some (turnaround_cause p)) (Some p) paxc fic]),
             pax, 1.
      rewrite Hlc, Hl1, <- !app_assoc. repeat split; auto; try lia.
      apply Forall_app. split; [exact Hsub|]. constructor; [|constructor].
      exists p. simpl. auto.
  - destruct H4 as [-> ->]. exists [], pax, 0. rewrite Hl1. repeat split; auto; lia.
Qed.

(** X4: the log is append-only under a cascade, and a call that ran
    ([p_depth <= 20]) writes its own row last, after the rows of the flights it
    cascaded to: those all name the flight they were handed down from, carry
    the turnaround cause and a positive delay, and there are at most
    [20 - p_depth] of them.  So a delay triggered from outside leaves exactly
    one new row without [cascaded_from_flight_id], the one of the flight that
    was named. *)
Theorem disruption_log_appended_root_last :
  forall fuel p d c from depth st st',
    depth <= 20 ->
    calculate_blast_radius fuel p d c from depth st = Returned tt st' ->
    exists sub pax fi,
      disruption_log st' = disruption_log st ++ sub ++ [DisruptionLog.mk p d c from pax fi]
      /\ Forall cascade_row sub
      /\ (List.length sub <= Z.to_nat (20 - depth))%nat
      /\ (fi = 0 \/ fi = 1) /\ (fi = 0 -> sub = [])
      /\ 0 <= pax.
Proof.
  intros fuel p d c from depth st st' Hle H.
  pose proof (calculate_blast_radius_log _ _ _ _ _ _ _ _ H) as Hlen.
  apply calculate_blast_radius_log_rows in H.
  destruct H as [[Hgt _]|(_ & sub & pax & fi & Hl & Hsub & Hfi & Hnil & Hpax)]; [lia|].
  exists sub, pax, fi. repeat split; auto.
  rewrite Hl, !length_app in Hlen. cbn [List.length] in Hlen. lia.
Qed.

Lemma disruption_log_appended_root_last_witness :
  exists sub pax fi,
    disruption_log rotation_db_disrupted
    = disruption_log rotation_db_initialized ++ sub ++ [DisruptionLog.mk 1 60 None None pax fi]
    /\ Forall cascade_row sub
    /\ (List.length sub <= Z.to_nat (20 - 0))%nat
    /\ (fi = 0 \/ fi = 1) /\ (fi = 0 -> sub = [])
    /\ 0 <= pax.
Proof.
  apply (disruption_log_appended_root_last (enough_fuel 0) 1 60 None None 0
           rotation_db_initialized rotation_db_disrupted).
  - lia.
  - exact rotation_db_disrupted_Returned.
Defined.

(* ================================================================= *)
(** ** More on calculate_blast_radius: what it leaves alone, how it fails *)

Lemma same_flight_refl f : same_flight f f.
Proof. unfold same_flight. repeat split. Qed.

Lemma same_flight_trans f g h : same_flight f g -> same_flight g h -> same_flight f h.
Proof.
  unfold same_flight. intros (A1 & A2 & A3 & A4 & A5 & A6 & A7) (B1 & B2 & B3 & B4 & B5 & B6 & B7).
  repeat split; congruence.
Qed.

Lemma delay_flight_same_flight d f f' : delay_flight d f = Ok f' -> same_flight f f'.
Proof.
  unfold delay_flight. intros H.
  apply rbind_Ok in H. destruct H as (nd & _ & H).
  apply rbind_Ok in H. destruct H as (na & _ & H).
  apply rbind_Ok in H. destruct H as (nm & _ & H).
  inversion H. unfold same_flight. simpl. repeat split.
Qed.

Lemma kept_or_delayed_trans f g h :
  kept_or_delayed f g -> kept_or_delayed g h -> kept_or_delayed f h.
Proof.
  intros [S1 H1] [S2 H2]. split; [eapply same_flight_trans; eassumption|].
  destruct H2 as [->|H2]; [exact H1 | right; exact H2].
Qed.

Lemma kept_or_missed_trans b c e :
  kept_or_missed b c -> kept_or_missed c e -> kept_or_missed b e.
Proof.
  unfold kept_or_missed. intros [-> | ->] [-> | ->]; auto.
Qed.

Lemma marked_or_kept_kept_or_missed hit b b' :
  marked_or_kept hit b b' -> kept_or_missed b b'.
Proof. unfold marked_or_kept, kept_or_missed. tauto. Qed.

Lemma calculate_blast_radius_frame :
  forall fuel p d c from depth st st',
    calculate_blast_radius fuel p d c from depth st = Returned tt st' ->
    aircraft st' = aircraft st
    /\ passengers st' = passengers st
    /\ simulation_snapshots st' = simulation_snapshots st
    /\ Forall2 kept_or_delayed (flights st) (flights st')
    /\ Forall2 kept_or_missed (bookings st) (bookings st')
    /\ exists rows, disruption_log st' = disruption_log st ++ rows.
Proof.
  intros fuel p d c from depth st st' H.
  apply (calculate_blast_radius_preserves
           (fun s s' =>
              aircraft s' = aircraft s
              /\ passengers s' = passengers s
              /\ simulation_snapshots s' = simulation_snapshots s
              /\ Forall2 kept_or_delayed (flights s) (flights s')
              /\ Forall2 kept_or_missed (bookings s) (bookings s')
              /\ exists rows, disruption_log s' = disruption_log s ++ rows)
           (fun _ => True))
    with (fuel := fuel) (p := p) (d := d) (c := c) (from := from) (depth := depth);
    auto.
  - intros s. repeat split; auto.
    + apply Forall2_refl. intros f. split; [apply same_flight_refl | left; reflexivity].
    + apply Forall2_refl. intros b. left. reflexivity.
    + exists []. rewrite app_nil_r. reflexivity.
  - intros s1 s2 s3 (A1 & A2 & A3 & A4 & A5 & r1 & A6) (B1 & B2 & B3 & B4 & B5 & r2 & B6).
    repeat split; try congruence.
    + eapply Forall2_compose; [apply kept_or_delayed_trans| |]; eassumption.
    + eapply Forall2_compose; [apply kept_or_missed_trans| |]; eassumption.
    + exists (r1 ++ r2). rewrite B6, A6, app_assoc. reflexivity.
  - intros p0 d0 s s' _ H0. apply delay_target_Returned in H0.
    destruct H0 as (Ha & Hp & Hb & Hl & Hs & Hf). repeat split; auto.
    + eapply Forall2_impl; [|exact Hf]. simpl. intros f f'.
      destruct (Flight.id f =? p0).
      * intros Hd. split; [eapply delay_flight_same_flight; exact Hd|].
        right. apply delay_flight_Ok in Hd. apply Hd.
      * intros ->. split; [apply same_flight_refl | left; reflexivity].
    + rewrite Hb. apply Forall2_refl. intros b. left. reflexivity.
    + exists []. rewrite app_nil_r. exact Hl.
  - intros p0 a s n s' H0. apply connection_check_Returned in H0.
    destruct H0 as (Hf & Ha & Hp & Hl & Hs & Hb). repeat split; auto.
    + rewrite Hf. apply Forall2_refl. intros f.
      split; [apply same_flight_refl | left; reflexivity].
    + eapply Forall2_impl; [|exact Hb]. intros b b'. apply marked_or_kept_kept_or_missed.
    + exists []. rewrite app_nil_r. exact Hl.
  - intros r s s' H0. apply insert_disruption_log_Returned in H0.
    destruct H0 as [-> _]. simpl. repeat split; auto.
    + apply Forall2_refl. intros f. split; [apply same_flight_refl | left; reflexivity].
    + apply Forall2_refl. intros b. left. reflexivity.
    + exists [r]. reflexivity.
Qed.

(** X5: what a cascade never does.  It writes no aircraft, passenger or
    snapshot; of a flight it keeps the id, number, aircraft, route and
    schedule, and a flight it changes ends DELAYED; a booking is left as it is
    or set to MISSED_CONNECTION, never set back or to another status; the log
    only grows. *)
Theorem cascade_writes_only_delays_and_missed_connections :
  forall fuel p d c from depth st st',
    calculate_blast_radius fuel p d c from depth st = Returned tt st' ->
    aircraft st' = aircraft st
    /\ passengers st' = passengers st
    /\ simulation_snapshots st' = simulation_snapshots st
    /\ Forall2 kept_or_delayed (flights st) (flights st')
    /\ Forall2 kept_or_missed (bookings st) (bookings st')
    /\ exists rows, disruption_log st' = disruption_log st ++ rows.
Proof. exact calculate_blast_radius_frame. Qed.

Lemma cascade_writes_only_delays_and_missed_connections_witness :
  aircraft rotation_db_disrupted = aircraft rotation_db_initialized
  /\ passengers rotation_db_disrupted = passengers rotation_db_initialized
  /\ simulation_snapshots rotation_db_disrupted = simulation_snapshots rotation_db_initialized
  /\ Forall2 kept_or_delayed (flights rotation_db_initialized) (flights rotation_db_disrupted)
  /\ Forall2 kept_or_missed (bookings rotation_db_initialized) (bookings rotation_db_disrupted)
  /\ exists rows, disruption_log rotation_db_disrupted
                  = disruption_log rotation_db_initialized ++ rows.
Proof.
  exact (cascade_writes_only_delays_and_missed_connections (enough_fuel 0) 1 60 None None 0
           rotation_db_initialized rotation_db_disrupted rotation_db_disrupted_Returned).
Defined.

(** *** Errors *)

















(* ================================================================= *)
(** ** More on update_flight_statuses *)

Lemma tick_flight_step now f : lifecycle_step now f (tick_flight now f).
Proof.
  unfold lifecycle_step, tick_flight.
  destruct (to_boarding now f) eqn:E1.
  - unfold to_boarding in E1. apply andb_true_iff in E1. destruct E1 as [E1 E1c].
    apply andb_true_iff in E1. destruct E1 as [E1a E1b].
    apply Z.leb_le in E1b. apply Z.ltb_lt in E1c.
    assert (Hs : Flight.status f = SCHEDULED)
      by (destruct (Flight.status f); try discriminate; reflexivity).
    assert (H2 : to_active now (Flight.set_status BOARDING f) = false).
    { unfold to_active. cbn [Flight.status Flight.set_status].
      change (Flight.dep (Flight.set_status BOARDING f)) with (Flight.dep f).
      replace (Flight.dep f <=? now) with false by (symmetry; apply Z.leb_gt; lia).
      reflexivity. }
    rewrite H2.
    assert (H3 : to_landed now (Flight.set_status BOARDING f) = false) by reflexivity.
    rewrite H3. right. left. auto.
  - destruct (to_active now f) eqn:E2.
    + unfold to_active in E2. apply andb_true_iff in E2. destruct E2 as [E2 E2c].
      apply andb_true_iff in E2. destruct E2 as [E2a E2b].
      apply Z.leb_le in E2b. apply Z.ltb_lt in E2c.
      assert (H3 : to_landed now (Flight.set_status ACTIVE f) = false).
      { unfold to_landed.
        change (Flight.arr (Flight.set_status ACTIVE f)) with (Flight.arr f).
        replace (Flight.arr f <=? now) with false by (symmetry; apply Z.leb_gt; lia).
        apply andb_false_r. }
      rewrite H3. right. right. left. repeat split; auto.
      destruct (Flight.status f); try discriminate; auto.
    + destruct (to_landed now f) eqn:E3; [|left; reflexivity].
      unfold to_landed in E3. apply andb_true_iff in E3. destruct E3 as [E3a E3b].
      apply Z.leb_le in E3b. right. right. right. repeat split; auto.
      destruct (Flight.status f); try discriminate; reflexivity.
Qed.

Lemma tick_flight_idempotent now f :
  tick_flight now (tick_flight now f) = tick_flight now f.
Proof.
  destruct (tick_flight_step now f) as [H|[(Hs & H & Ht)|[(Hs & H & Ht)|(Hs & H & Ht)]]];
    rewrite H; [exact H| | |].
  - unfold tick_flight.
    assert (E1 : to_boarding now (Flight.set_status BOARDING f) = false) by reflexivity.
    rewrite E1.
    assert (E2 : to_active now (Flight.set_status BOARDING f) = false).
    { unfold to_active. change (Flight.dep (Flight.set_status BOARDING f)) with (Flight.dep f).
      replace (Flight.dep f <=? now) with false by (symmetry; apply Z.leb_gt; lia).
      rewrite andb_false_r. reflexivity. }
    rewrite E2. reflexivity.
  - unfold tick_flight.
    assert (E1 : to_boarding now (Flight.set_status ACTIVE f) = false) by reflexivity.
    rewrite E1.
    assert (E2 : to_active now (Flight.set_status ACTIVE f) = false) by reflexivity.
    rewrite E2.
    assert (E3 : to_landed now (Flight.set_status ACTIVE f) = false).
    { unfold to_landed. change (Flight.arr (Flight.set_status ACTIVE f)) with (Flight.arr f).
      replace (Flight.arr f <=? now) with false by (symmetry; apply Z.leb_gt; lia).
      apply andb_false_r. }
    rewrite E3. reflexivity.
  - reflexivity.
Qed.

(** X7: one call of [update_flight_statuses] moves a flight by at most one
    step of the lifecycle (its three UPDATEs never chain on a row), writes
    nothing but the status, leaves LANDED and CANCELLED flights as they are,
    and a second call at the same time changes nothing more. *)
Theorem lifecycle_tick_one_step_idempotent :
  forall now st,
    Forall2 (fun f f' =>
               lifecycle_step now f f'
               /\ (Flight.status f = LANDED \/ Flight.status f = CANCELLED -> f' = f))
            (flights st) (flights (run_operation st (AdvanceLifecycle now)))
    /\ run_operation (run_operation st (AdvanceLifecycle now)) (AdvanceLifecycle now)
       = run_operation st (AdvanceLifecycle now).
Proof.
  intros now st. split.
  - cbn [run_operation]. rewrite update_flight_statuses_rows. apply Forall2_map_r.
    intros f. split; [apply tick_flight_step|].
    intros Hs. destruct (tick_flight_step now f)
      as [H|[(Hs' & _)|[(Hs' & _)|(Hs' & _)]]]; [exact H| | |];
      destruct Hs as [Hs|Hs]; try destruct Hs' as [Hs'|Hs']; congruence.
  - cbn [run_operation]. rewrite !update_flight_statuses_Returned. cbn [commit].
    destruct st as [ac fl pa bo lo sn]. unfold set_flights. cbn.
    f_equal. unfold update_rows. rewrite !map_map.
    apply map_ext. intros f. apply (tick_flight_idempotent now f).
Qed.

(** X8: a BOARDING or DELAYED flight whose effective arrival is not after
    [now] is passed over by [update_flight_statuses], at this tick and at
    every later one: it is taken for a flight in the air only while the
    arrival is still ahead, and it is landed only from ACTIVE. *)
Theorem flight_past_arrival_never_lands :
  forall ticks st,
    Forall2 (fun f f' =>
               Flight.status f = BOARDING \/ Flight.status f = DELAYED ->
               Forall (fun now => Flight.arr f <= now) ticks ->
               f' = f)
            (flights st) (flights (run_ticks ticks st)).
Proof.
  intros ticks. induction ticks as [|now ticks IH]; intros st.
  - simpl. apply Forall2_refl. auto.
  - cbn [run_ticks fold_left].
    fold (run_ticks ticks (commit st (update_flight_statuses now st))).
    eapply Forall2_compose; [| |apply IH].
    2:{ rewrite update_flight_statuses_rows.
        instantiate (1 := fun f f1 => f1 = tick_flight now f).
        apply Forall2_map_r. reflexivity. }
    simpl. intros f f1 f' -> H Hs Hall. inversion Hall; subst.
    assert (Hstay : tick_flight now f = f).
    { destruct (tick_flight_step now f)
        as [Hk|[(Hs' & _)|[(_ & _ & Ht)|(Hs' & _)]]]; [exact Hk| | |];
        try (destruct Hs; congruence). lia. }
    rewrite Hstay in H. apply H; assumption.
Qed.

(* ================================================================= *)
(** ** More on initialize_flight_times and reset_simulation *)

(** X9: [initialize_flight_times] leaves every flight with an actual
    departure; a flight that had one is not touched; no flight's effective
    departure, status or delay changes (an actual arrival recorded without a
    departure is overwritten by the schedule); and a second call changes
    nothing. *)
Theorem initialize_flight_times_sets_missing_times_once :
  forall st,
    Forall2 (fun f f' =>
               same_flight f f'
               /\ Flight.status f' = Flight.status f
               /\ Flight.delay_minutes f' = Flight.delay_minutes f
               /\ Flight.actual_dep f' <> None
               /\ Flight.dep f' = Flight.dep f
               /\ (Flight.actual_dep f <> None -> f' = f)
               /\ (Flight.actual_dep f = None ->
                   Flight.actual_dep f' = Some (Flight.scheduled_dep f)
                   /\ Flight.actual_arr f' = Some (Flight.scheduled_arr f)))
            (flights st) (flights (run_operation st InitializeFlightTimes))
    /\ run_operation (run_operation st InitializeFlightTimes) InitializeFlightTimes
       = run_operation st InitializeFlightTimes.
Proof.
  intros st. split.
  - cbn [run_operation]. rewrite initialize_flight_times_flights.
    apply Forall2_map_r. intros f.
    destruct (Flight.actual_dep f) as [d|] eqn:E; cbn [is_null].
    + repeat split; try congruence; try (rewrite E; discriminate).
    + unfold Flight.dep. cbn. rewrite E.
      repeat split; try discriminate; try (intros H; contradiction).
  - destruct st as [ac fl pa bo lo sn]. cbn. unfold set_flights. cbn. f_equal.
    unfold update_rows. rewrite map_map. apply map_ext. intros f.
    destruct (Flight.actual_dep f) as [d|] eqn:E; cbn [is_null]; rewrite ?E; reflexivity.
Qed.

Lemma same_booking_refl b : same_booking b b.
Proof. unfold same_booking. repeat split. Qed.

Lemma same_booking_trans b c e : same_booking b c -> same_booking c e -> same_booking b e.
Proof.
  unfold same_booking. intros (A1 & A2 & A3 & A4) (B1 & B2 & B3 & B4).
  repeat split; congruence.
Qed.

Lemma same_network_refl st : same_network st st.
Proof.
  repeat split; auto; apply Forall2_refl;
    [apply same_flight_refl | apply same_booking_refl].
Qed.

Lemma same_network_trans s1 s2 s3 :
  same_network s1 s2 -> same_network s2 s3 -> same_network s1 s3.
Proof.
  intros (A1 & A2 & A3 & A4 & A5) (B1 & B2 & B3 & B4 & B5).
  repeat split; try congruence.
  - eapply Forall2_compose; [apply same_flight_trans| |]; eassumption.
  - eapply Forall2_compose; [apply same_booking_trans| |]; eassumption.
Qed.

Lemma calculate_blast_radius_same_network fuel p d c from depth st st' :
  calculate_blast_radius fuel p d c from depth st = Returned tt st' ->
  same_network st st'.
Proof.
  intros H. apply calculate_blast_radius_frame in H.
  destruct H as (Ha & Hp & Hs & Hf & Hb & _). repeat split; auto.
  - eapply Forall2_impl; [|exact Hf]. intros f f' [H _]. exact H.
  - eapply Forall2_impl; [|exact Hb]. intros b b' [->| ->];
      [apply same_booking_refl | unfold same_booking; repeat split].
Qed.

Lemma tick_flight_same_flight now f : same_flight f (tick_flight now f).
Proof.
  unfold tick_flight.
  destruct (to_boarding now f); destruct (to_active now _); destruct (to_landed now _);
    unfold same_flight; simpl; repeat split.
Qed.

Lemma run_operation_same_network op st : same_network st (run_operation st op).
Proof.
  destruct op as [p d c|choice u k|now| |]; cbn [run_operation].
  - unfold rpc_trigger_delay, trigger_delay.
    destruct (calculate_blast_radius _ _ _ _ _ _ st) as [[] st'|e s|] eqn:E;
      cbn [commit]; [|apply same_network_refl|apply same_network_refl].
    eapply calculate_blast_radius_same_network. exact E.
  - destruct (trigger_random_delay choice u k st) as [r st'|e s|] eqn:E;
      cbn [commit]; [|apply same_network_refl|apply same_network_refl].
    apply trigger_random_delay_Returned in E. destruct E as [->|(f & E)];
      [apply same_network_refl|].
    eapply calculate_blast_radius_same_network. exact E.
  - rewrite update_flight_statuses_Returned. cbn [commit].
    repeat split; auto; cbn [flights bookings set_flights].
    + unfold update_rows. rewrite !map_map. apply Forall2_map_r.
      intros f. apply (tick_flight_same_flight now f).
    + apply Forall2_refl. apply same_booking_refl.
  - cbn. repeat split; auto.
    + apply Forall2_map_r. intros f. unfold same_flight. simpl. repeat split.
    + apply Forall2_map_r. intros b. unfold same_booking. simpl. repeat split.
  - cbn. repeat split; auto.
    + apply Forall2_map_r. intros f.
      destruct (is_null (Flight.actual_dep f)); unfold same_flight; simpl; repeat split.
    + apply Forall2_refl. apply same_booking_refl.
Qed.

Lemma run_operations_same_network ops : forall st,
  same_network st (run_operations ops st).
Proof.
  induction ops as [|op ops IH]; intros st; [apply same_network_refl|].
  cbn [run_operations fold_left]. fold (run_operations ops (run_operation st op)).
  eapply same_network_trans; [apply run_operation_same_network | apply IH].
Qed.

Lemma reset_same_network st st' :
  same_network st st' ->
  run_operation st' ResetSimulation = run_operation st ResetSimulation.
Proof.
  intros (Ha & Hp & Hs & Hf & Hb).
  destruct st as [ac fl pa bo lo sn]. destruct st' as [ac' fl' pa' bo' lo' sn'].
  cbn in *. unfold set_disruption_log, set_bookings, set_flights. cbn. subst.
  f_equal.
  - clear - Hf. induction Hf as [|f f' l l' Hff _ IH]; simpl; [reflexivity|].
    rewrite IH. f_equal. unfold reset_flight.
    destruct Hff as (H1 & H2 & H3 & H4 & H5 & H6 & H7). congruence.
  - clear - Hb. induction Hb as [|b b' l l' Hbb _ IH]; simpl; [reflexivity|].
    rewrite IH. f_equal. unfold Booking.set_status.
    destruct Hbb as (H1 & H2 & H3 & H4). congruence.
Qed.

(** X10: a reset undoes whatever the engine has done.  After any sequence of
    operations (delays, random delays, lifecycle ticks, resets,
    initializations) the database a reset leaves is the database a reset
    would have left at the start; in particular a second reset changes
    nothing. *)
Theorem reset_undoes_every_operation :
  forall ops st,
    run_operation (run_operations ops st) ResetSimulation
    = run_operation st ResetSimulation.
Proof.
  intros ops st. apply reset_same_network. apply run_operations_same_network.
Qed.

(* ================================================================= *)
(** ** trigger_random_delay *)

Lemma can_be_delayed_spec f :
  can_be_delayed f = true <->
  Flight.status f = SCHEDULED \/ Flight.status f = ACTIVE \/ Flight.status f = BOARDING.
Proof.
  unfold can_be_delayed. destruct (Flight.status f); simpl; split; intros H;
    try discriminate; auto; destruct H as [H|[H|H]]; discriminate.
Qed.

Lemma random_flight_Some choice st f :
  random_flight choice st = Some f -> In f (flights st) /\ can_be_delayed f = true.
Proof.
  unfold random_flight. intros H. apply nth_error_In in H.
  apply filter_In in H. exact H.
Qed.

Lemma random_flight_None choice st :
  random_flight choice st = None ->
  Forall (fun f => can_be_delayed f = false) (flights st).
Proof.
  unfold random_flight. intros H. apply nth_error_None in H.
  destruct (filter can_be_delayed (flights st)) as [|g rest] eqn:E.
  - apply Forall_forall. intros f Hin.
    destruct (can_be_delayed f) eqn:Ec; [|reflexivity].
    assert (Hf : In f (filter can_be_delayed (flights st))) by (apply filter_In; auto).
    rewrite E in Hf. contradiction.
  - exfalso.
    pose proof (Nat.mod_upper_bound choice (List.length (g :: rest))) as Hb.
    cbn [List.length] in *. lia.
Qed.

(** X11: [trigger_random_delay] delays a flight of the database that is
    SCHEDULED, ACTIVE or BOARDING, by 15 minutes plus its draw (15 to 179
    minutes for a draw below 165), as a root call with one of the eight causes;
    under the primary key the flight ends DELAYED, so the next random delay
    cannot fall on it.  It returns no row exactly when it changes nothing
    because every flight is LANDED, DELAYED or CANCELLED. *)
Theorem random_delay_falls_on_an_undelayed_flight :
  forall choice u_delay u_cause st r st',
    trigger_random_delay choice u_delay u_cause st = Returned r st' ->
    match r with
    | Some (v_flight_id, v_delay, v_cause) =>
        (exists f, In f (flights st) /\ Flight.id f = v_flight_id
                   /\ (Flight.status f = SCHEDULED \/ Flight.status f = ACTIVE
                       \/ Flight.status f = BOARDING))
        /\ v_delay = 15 + u_delay
        /\ (0 <= u_delay < 165 -> 15 <= v_delay <= 179)
        /\ ((u_cause < 8)%nat -> exists c, v_cause = Some c /\ In c v_causes)
        /\ calculate_blast_radius (enough_fuel 0) v_flight_id v_delay v_cause None 0 st
           = Returned tt st'
        /\ (flights_pkey st ->
            Forall (fun f' => Flight.id f' = v_flight_id ->
                              Flight.status f' = DELAYED /\ can_be_delayed f' = false)
                   (flights st'))
    | None =>
        st' = st
        /\ Forall (fun f => Flight.status f = LANDED \/ Flight.status f = DELAYED
                            \/ Flight.status f = CANCELLED) (flights st)
    end.
Proof.
  intros choice u k st r st' H. unfold trigger_random_delay in H.
  cbv zeta in H. remember (15 + u) as vd eqn:Hvd.
  apply bind_Returned in H. destruct H as (picked & s & Hq & H).
  unfold query in Hq. injection Hq as <- <-.
  destruct (random_flight choice st) as [f|] eqn:Ef.
  - apply bind_Returned in H. destruct H as ([] & s1 & H1 & H2).
    unfold ret in H2. injection H2 as <- <-.
    apply random_flight_Some in Ef. destruct Ef as [Hin Hcan].
    split; [exists f; repeat split; auto; apply can_be_delayed_spec; exact Hcan|].
    split; [reflexivity|]. split; [lia|]. split.
    { intros Hk. destruct (nth_error v_causes k) as [c0|] eqn:En.
      - exists c0. split; [reflexivity|]. eapply nth_error_In. exact En.
      - apply nth_error_None in En. simpl in En. lia. }
    split; [exact H1|]. intros Hpk.
    apply calculate_blast_radius_footprint in H1; [|lia|exact Hpk].
    apply Forall_forall. intros f' Hf' Hid.
    destruct (Forall2_exists_l _ _ _ f' H1 Hf') as (f0 & Hf0 & [Ht Ho]).
    assert (Hs : Flight.status f' = DELAYED).
    { destruct (Z.eq_dec (Flight.id f0) (Flight.id f)) as [E|E].
      - apply Ht in E. apply delay_flight_Ok in E. apply E.
      - destruct (Ho E) as [->|(t & t' & fd & _ & _ & _ & _ & _ & _ & _ & _ & _ & Hd)].
        + contradiction.
        + apply delay_flight_Ok in Hd. apply Hd. }
    split; [exact Hs|]. unfold can_be_delayed. rewrite Hs. reflexivity.
  - unfold ret in H. injection H as <- <-. split; [reflexivity|].
    apply random_flight_None in Ef. eapply Forall_impl; [|exact Ef].
    intros f Hc. unfold can_be_delayed in Hc.
    destruct (Flight.status f); simpl in Hc; try discriminate; auto.
Qed.

Lemma random_delay_falls_on_an_undelayed_flight_witness :
  (exists f, In f (flights rotation_db) /\ Flight.id f = 2
             /\ (Flight.status f = SCHEDULED \/ Flight.status f = ACTIVE
                 \/ Flight.status f = BOARDING))
  /\ 35 = 15 + 20
  /\ (0 <= 20 < 165 -> 15 <= 35 <= 179)
  /\ ((2 < 8)%nat -> exists c, Some "Mechanical issue"%string = Some c /\ In c v_causes)
  /\ calculate_blast_radius (enough_fuel 0) 2 35 (Some "Mechanical issue"%string) None 0
       rotation_db
     = Returned tt (run_operation rotation_db (TriggerRandomDelay 4 20 2))
  /\ (flights_pkey rotation_db ->
      Forall (fun f' => Flight.id f' = 2 ->
                        Flight.status f' = DELAYED /\ can_be_delayed f' = false)
             (flights (run_operation rotation_db (TriggerRandomDelay 4 20 2)))).
Proof.
  apply (random_delay_falls_on_an_undelayed_flight 4 20 2 rotation_db
           (Some (2, 35, Some "Mechanical issue"%string))
           (run_operation rotation_db (TriggerRandomDelay 4 20 2))).
  vm_compute. reflexivity.
Defined.

(* ================================================================= *)
(** ** save_simulation_snapshot *)

Lemma sql_sum_fold {A} (v : A -> option Z) (l : list A) : forall acc,
  fold_left (fun s x => s + COALESCE (v x) 0) l acc
  = acc + COALESCE (sql_sum (map v l)) 0.
Proof.
  induction l as [|x l IH]; intros acc; cbn [fold_left map sql_sum].
  - unfold COALESCE. lia.
  - rewrite IH. destruct (v x) as [n|], (sql_sum (map v l)) as [s|];
      unfold COALESCE; lia.
Qed.

Lemma snapshot_metrics_fetchWorldState st :
  snapshot_metrics st = WorldState.metrics (fetchWorldState st).
Proof.
  unfold snapshot_metrics, fetchWorldState. cbn [WorldState.metrics].
  rewrite sql_sum_fold. reflexivity.
Qed.

Lemma save_simulation_snapshot_Returned p_label st :
  save_simulation_snapshot p_label st
  = Returned tt
      (mk_db (aircraft st) (flights st) (passengers st) (bookings st)
             (disruption_log st)
             (simulation_snapshots st
              ++ [Snapshot.mk p_label (flights st)
                    (WorldState.metrics (fetchWorldState st))])).
Proof.
  unfold save_simulation_snapshot, exec.
  rewrite snapshot_metrics_fetchWorldState. reflexivity.
Qed.





(* ================================================================= *)
(** ** Scenarios *)

Lemma scenario_calls_rel (R : db -> db -> Prop) (admissible : Z -> Prop) :
  (forall st, R st st) ->
  (forall a b c, R a b -> R b c -> R a c) ->
  (forall p d c st st',
      admissible d -> trigger_delay p d c st = Returned tt st' -> R st st') ->
  forall cause calls st,
    Forall (fun c => admissible (snd c)) calls ->
    R st (fst (scenario_calls cause calls st)).
Proof.
  intros Hrefl Htrans Hstep cause calls.
  induction calls as [|[f d] calls IH]; intros st Hadm; [apply Hrefl|].
  inversion Hadm as [|? ? Hd Hadm']; subst. cbn [scenario_calls].
  destruct (trigger_delay (Flight.id f) d (Some cause) st) as [[] st'| |] eqn:E.
  - specialize (IH st' Hadm').
    destruct (scenario_calls cause calls st') as [st'' res]. cbn [fst] in *.
    eapply Htrans; [|exact IH]. eapply Hstep; [exact Hd|exact E].
  - apply IH. exact Hadm'.
  - apply IH. exact Hadm'.
Qed.

Lemma kept_or_delayed_refl f : kept_or_delayed f f.
Proof. split; [apply same_flight_refl|left; reflexivity]. Qed.

Lemma delays_only_refl st : delays_only st st.
Proof.
  unfold delays_only. repeat split; try reflexivity; apply Forall2_refl.
  - apply delay_grows_refl.
  - apply kept_or_delayed_refl.
  - left; reflexivity.
Qed.

Lemma delays_only_trans a b c : delays_only a b -> delays_only b c -> delays_only a c.
Proof.
  intros (A1 & A2 & A3 & A4 & A5 & A6) (B1 & B2 & B3 & B4 & B5 & B6).
  unfold delays_only. repeat split; try congruence.
  - eapply Forall2_compose; [apply delay_grows_trans|eassumption|eassumption].
  - eapply Forall2_compose; [apply kept_or_delayed_trans|eassumption|eassumption].
  - eapply Forall2_compose; [apply kept_or_missed_trans|eassumption|eassumption].
Qed.

Lemma trigger_delay_delays_only p d c st st' :
  0 <= d -> trigger_delay p d c st = Returned tt st' -> delays_only st st'.
Proof.
  intros Hd H. unfold trigger_delay in H.
  destruct (calculate_blast_radius_frame _ _ _ _ _ _ _ _ H)
    as (H1 & H2 & H3 & H4 & H5 & _).
  unfold delays_only. repeat split; try assumption.
  apply (calculate_blast_radius_flights delay_grows (fun d => 0 <= d))
    with (fuel := enough_fuel 0) (p := p) (d := d) (c := c) (from := None) (depth := 0);
    auto.
  - apply delay_grows_refl.
  - apply delay_grows_trans.
  - intros; lia.
  - intros d0 f f'. apply delay_flight_delay_grows.
Qed.

Lemma scenario_calls_kept cause calls st :
  Forall2 kept_or_delayed (flights st) (flights (fst (scenario_calls cause calls st))).
Proof.
  apply (scenario_calls_rel
           (fun st st' => Forall2 kept_or_delayed (flights st) (flights st'))
           (fun _ => True)).
  - intros st0. apply Forall2_refl. apply kept_or_delayed_refl.
  - intros a b c H1 H2.
    eapply Forall2_compose; [apply kept_or_delayed_trans|eassumption|eassumption].
  - intros p d c st0 st' _ H. unfold trigger_delay in H.
    apply calculate_blast_radius_frame in H. tauto.
  - apply Forall_forall. intros; exact I.
Qed.

Lemma scenario_calls_results cause calls : forall st,
  Forall (fun r => exists f, In (f, snd r) calls /\ fst r = Flight.flight_number f)
         (snd (scenario_calls cause calls st)).
Proof.
  induction calls as [|[f d] calls IH]; intros st; [constructor|].
  cbn [scenario_calls].
  assert (Hw : forall st0,
    Forall (fun r => exists f0, In (f0, snd r) ((f, d) :: calls)
                                /\ fst r = Flight.flight_number f0)
           (snd (scenario_calls cause calls st0))).
  { intros st0. eapply Forall_impl; [|apply IH].
    intros r (f0 & Hin & E). exists f0. split; [right; exact Hin|exact E]. }
  destruct (trigger_delay (Flight.id f) d (Some cause) st) as [[] st'| |] eqn:E;
    [|apply Hw|apply Hw].
  specialize (Hw st'). destruct (scenario_calls cause calls st') as [st'' res].
  cbn [snd] in *. constructor; [|exact Hw].
  exists f. split; [left; reflexivity|reflexivity].
Qed.

Lemma pick_delay_In delays draw : delays <> [] -> In (pick_delay delays draw) delays.
Proof.
  intros Hne. unfold pick_delay. apply nth_In.
  apply Nat.mod_upper_bound. destruct delays; [congruence|discriminate].
Qed.

Lemma SCENARIOS_delays name config :
  In (name, config) SCENARIOS ->
  Scenario.delays config <> []
  /\ Forall (fun d => 60 <= d <= 300) (Scenario.delays config)
  /\ 2 * arrival_hold (Scenario.delays config) = hd 0 (Scenario.delays config).
Proof.
  intros H. cbn [SCENARIOS In] in H.
  repeat (destruct H as [H|H]; [injection H as <- <-;
    (split; [discriminate|split; [repeat constructor; lia|reflexivity]])|]).
  contradiction.
Qed.

Lemma scenario_calls_delays_only cause calls st :
  Forall (fun c => 0 <= snd c) calls ->
  delays_only st (fst (scenario_calls cause calls st)).
Proof.
  apply (scenario_calls_rel delays_only (fun d => 0 <= d)).
  - apply delays_only_refl.
  - apply delays_only_trans.
  - intros p d c st0 st'. apply trigger_delay_delays_only.
Qed.

Lemma departure_calls_delays name config draws (affected : list Flight.row) :
  In (name, config) SCENARIOS ->
  Forall (fun c => In (snd c) (Scenario.delays config))
    (map (fun kf => (snd kf, pick_delay (Scenario.delays config) (draws (fst kf))))
         (combine (seq 0 (List.length affected)) affected)).
Proof.
  intros Hin. destruct (SCENARIOS_delays name config Hin) as (Hne & _ & _).
  apply Forall_forall. intros c Hc. apply in_map_iff in Hc.
  destruct Hc as (kf & <- & _). cbn [snd]. apply pick_delay_In. exact Hne.
Qed.

Lemma arrival_calls_delays (config : Scenario.config) (arrivals : list Flight.row) :
  Forall (fun c => snd c = arrival_hold (Scenario.delays config))
    (map (fun f => (f, arrival_hold (Scenario.delays config))) arrivals).
Proof.
  apply Forall_forall. intros c Hc. apply in_map_iff in Hc.
  destruct Hc as (f & <- & _). reflexivity.
Qed.

Lemma SCENARIOS_hold name config :
  In (name, config) SCENARIOS -> 30 <= arrival_hold (Scenario.delays config) <= 150.
Proof.
  intros Hin. destruct (SCENARIOS_delays name config Hin) as (Hne & Hall & H2).
  destruct (Scenario.delays config) as [|d ds]; [congruence|].
  inversion Hall; subst. cbn [hd] in H2. lia.
Qed.

Lemma scenario_calls_nonnegative name config draws st :
  In (name, config) SCENARIOS ->
  Forall (fun c : Flight.row * Z => 0 <= snd c)
    (map (fun kf => (snd kf, pick_delay (Scenario.delays config) (draws (fst kf))))
         (combine (seq 0 (List.length (scenario_departures config st)))
                  (scenario_departures config st)))
  /\ forall st1,
       Forall (fun c : Flight.row * Z => 0 <= snd c)
         (map (fun f => (f, arrival_hold (Scenario.delays config)))
              (scenario_arrivals config st1)).
Proof.
  intros Hin. destruct (SCENARIOS_delays name config Hin) as (_ & Hall & _).
  pose proof (SCENARIOS_hold name config Hin) as Hh. split.
  - eapply Forall_impl; [|apply (departure_calls_delays name config draws _ Hin)].
    intros c Hc. rewrite Forall_forall in Hall. specialize (Hall _ Hc). cbn in Hall. lia.
  - intros st1. eapply Forall_impl; [|apply arrival_calls_delays].
    intros c Hc. rewrite Hc. lia.
Qed.

(** X14: a scenario of the catalog, run through the endpoint, only adds
    delay: every flight is left as it was or ends DELAYED, none with less
    cumulative delay, every booking is left as it was or marked as a missed
    connection, and the reference tables are not written.  One snapshot is
    appended, labelled after the scenario, holding the flights and the
    metrics of the database the scenario left.  Every delay reported is one
    of the scenario's three, or half the first of them. *)
Theorem catalog_scenario_only_adds_delay :
  forall name config draws st st' results,
    In (name, config) SCENARIOS ->
    simulate_scenario config draws st = (st', results) ->
    aircraft st' = aircraft st
    /\ passengers st' = passengers st
    /\ Forall2 delay_grows (flights st) (flights st')
    /\ Forall2 kept_or_delayed (flights st) (flights st')
    /\ Forall2 kept_or_missed (bookings st) (bookings st')
    /\ simulation_snapshots st'
       = simulation_snapshots st
         ++ [Snapshot.mk ("Scenario: " ++ Scenario.label config)%string (flights st')
               (WorldState.metrics (fetchWorldState st'))]
    /\ Forall (fun r => In (snd r) (Scenario.delays config)
                        \/ 2 * snd r = hd 0 (Scenario.delays config)) results.
Proof.
  intros name config draws st st' results Hin H.
  destruct (scenario_calls_nonnegative name config draws st Hin) as [Hdep Harr].
  unfold simulate_scenario, apply_scenario in H.
  pose proof (scenario_calls_delays_only (Scenario.cause config) _ st Hdep) as H1.
  pose proof (scenario_calls_results (Scenario.cause config)
                (map (fun kf => (snd kf, pick_delay (Scenario.delays config) (draws (fst kf))))
                   (combine (seq 0 (List.length (scenario_departures config st)))
                      (scenario_departures config st))) st) as R1.
  destruct (scenario_calls (Scenario.cause config) _ st) as [st1 r1]. cbn [fst snd] in *.
  pose proof (scenario_calls_delays_only
                (Scenario.cause config ++ " (arrival hold)")%string _ st1 (Harr st1)) as H2.
  pose proof (scenario_calls_results (Scenario.cause config ++ " (arrival hold)")%string
                (map (fun f => (f, arrival_hold (Scenario.delays config)))
                     (scenario_arrivals config st1)) st1) as R2.
  destruct (scenario_calls (Scenario.cause config ++ " (arrival hold)")%string _ st1)
    as [st2 r2]. cbn [fst snd] in *.
  rewrite save_simulation_snapshot_Returned in H. cbn [commit] in H.
  injection H as <- <-.
  destruct (delays_only_trans _ _ _ H1 H2) as (A1 & A2 & A3 & A4 & A5 & A6).
  cbn [aircraft passengers flights bookings simulation_snapshots].
  repeat split; try assumption.
  - rewrite A3. reflexivity.
  - apply Forall_app. split.
    + eapply Forall_impl; [|exact R1]. intros r (f & Hc & _). left.
      pose proof (departure_calls_delays name config draws
                    (scenario_departures config st) Hin) as Hd.
      rewrite Forall_forall in Hd. apply (Hd _ Hc).
    + eapply Forall_impl; [|exact R2]. intros r (f & Hc & _). right.
      pose proof (arrival_calls_delays config (scenario_arrivals config st1)) as Hd.
      rewrite Forall_forall in Hd. specialize (Hd _ Hc). cbn [snd] in Hd. rewrite Hd.
      apply (SCENARIOS_delays name config Hin).
Qed.

Lemma root_rows_app st' st sub root :
  disruption_log st' = disruption_log st ++ sub ++ [root] ->
  Forall cascade_row sub ->
  DisruptionLog.cascaded_from_flight_id root = None ->
  root_rows st' = root_rows st ++ [root].
Proof.
  intros E Hsub Hroot. unfold root_rows. rewrite E, !filter_app.
  replace (filter _ sub) with (@nil DisruptionLog.row).
  - cbn [filter app]. rewrite Hroot. reflexivity.
  - symmetry. clear E. induction Hsub as [|r sub (k & Hk & _) _ IH]; [reflexivity|].
    cbn [filter]. rewrite Hk. exact IH.
Qed.

Lemma trigger_delay_root_rows p d c st st' :
  trigger_delay p d c st = Returned tt st' ->
  exists pax fi, root_rows st' = root_rows st ++ [DisruptionLog.mk p d c None pax fi].
Proof.
  intros H. unfold trigger_delay in H.
  apply calculate_blast_radius_log_rows in H.
  destruct H as [[H _]|(_ & sub & pax & fi & E & Hsub & _)]; [lia|].
  exists pax, fi. apply (root_rows_app _ _ sub); [exact E|exact Hsub|reflexivity].
Qed.

Lemma scenario_calls_root_rows cause calls : forall st,
  exists rows,
    root_rows (fst (scenario_calls cause calls st)) = root_rows st ++ rows
    /\ Forall2 (fun row r =>
                  DisruptionLog.delay_minutes row = snd r
                  /\ DisruptionLog.cause row = Some cause
                  /\ exists f, In (f, snd r) calls
                               /\ DisruptionLog.flight_id row = Flight.id f
                               /\ fst r = Flight.flight_number f)
               rows (snd (scenario_calls cause calls st)).
Proof.
  induction calls as [|[f d] calls IH]; intros st.
  - exists []. cbn [scenario_calls fst snd]. rewrite app_nil_r. split; constructor.
  - cbn [scenario_calls].
    assert (Hw : forall st0, exists rows,
      root_rows (fst (scenario_calls cause calls st0)) = root_rows st0 ++ rows
      /\ Forall2 (fun row r =>
                  DisruptionLog.delay_minutes row = snd r
                  /\ DisruptionLog.cause row = Some cause
                  /\ exists f0, In (f0, snd r) ((f, d) :: calls)
                               /\ DisruptionLog.flight_id row = Flight.id f0
                               /\ fst r = Flight.flight_number f0)
               rows (snd (scenario_calls cause calls st0))).
    { intros st0. destruct (IH st0) as (rows & E & H). exists rows. split; [exact E|].
      eapply Forall2_impl; [|exact H].
      intros row r (H1 & H2 & f0 & Hin & H3). split; [exact H1|]. split; [exact H2|].
      exists f0. split; [right; exact Hin|exact H3]. }
    destruct (trigger_delay (Flight.id f) d (Some cause) st) as [[] st'| |] eqn:E;
      [|apply Hw|apply Hw].
    destruct (trigger_delay_root_rows _ _ _ _ _ E) as (pax & fi & Er).
    destruct (Hw st') as (rows & E' & H).
    destruct (scenario_calls cause calls st') as [st'' res]. cbn [fst snd] in *.
    exists (DisruptionLog.mk (Flight.id f) d (Some cause) None pax fi :: rows). split.
    + rewrite E', Er, <- app_assoc. reflexivity.
    + constructor; [|exact H]. cbn. split; [reflexivity|]. split; [reflexivity|].
      exists f. split; [left; reflexivity|split; reflexivity].
Qed.

Lemma can_be_delayed_not_DELAYED f : can_be_delayed f = true -> Flight.status f <> DELAYED.
Proof.
  unfold can_be_delayed. intros H E. rewrite E in H. discriminate.
Qed.

Lemma scenario_arrivals_unchanged config cause calls st :
  Forall2 (fun f f' =>
             In f' (scenario_arrivals config (fst (scenario_calls cause calls st))) ->
             f' = f /\ can_be_delayed f = true
             /\ Flight.destination_code f = Scenario.airport config)
          (flights st) (flights (fst (scenario_calls cause calls st))).
Proof.
  eapply Forall2_impl; [|apply scenario_calls_kept].
  intros f f' [_ Hk] Hin. unfold scenario_arrivals in Hin.
  apply filter_In in Hin. destruct Hin as [_ Hin].
  apply andb_true_iff in Hin. destruct Hin as [Hd Hc]. apply String.eqb_eq in Hd.
  destruct Hk as [->|Hk]; [auto|].
  exfalso. exact (can_be_delayed_not_DELAYED _ Hc Hk).
Qed.

Lemma scenario_arrivals_target config cause calls st f :
  In f (scenario_arrivals config (fst (scenario_calls cause calls st))) ->
  scenario_target config st f.
Proof.
  intros Hin. assert (Hin' := Hin). unfold scenario_arrivals in Hin'.
  apply filter_In in Hin'. destruct Hin' as [Hf _].
  destruct (Forall2_exists_l _ _ _ _ (scenario_arrivals_unchanged config cause calls st) Hf)
    as (f0 & Hin0 & H). destruct (H Hin) as (-> & Hc & Hd).
  split; [exact Hin0|]. split; [exact Hc|right; exact Hd].
Qed.

Lemma scenario_departures_target config st f :
  In f (scenario_departures config st) -> scenario_target config st f.
Proof.
  intros Hin. unfold scenario_departures in Hin. apply filter_In in Hin.
  destruct Hin as [Hf Hin]. apply andb_true_iff in Hin. destruct Hin as [Ho Hc].
  apply String.eqb_eq in Ho. split; [exact Hf|]. split; [exact Hc|left; exact Ho].
Qed.

(** X15: the [details] a scenario reports and the root rows it appends to the
    disruption log are the same list: one row with no [cascaded_from] per
    call that succeeded, in the order of the calls, with the delay reported,
    the scenario's cause (suffixed for an arrival) and the id of a flight
    that, before the scenario started, was SCHEDULED, BOARDING or ACTIVE and
    left or reached the airport.  [flights_affected] so counts the calls, not
    the flights the cascades went on to delay. *)
Theorem scenario_results_are_the_root_log_rows :
  forall config draws st,
  exists rows,
    root_rows (fst (apply_scenario config draws st)) = root_rows st ++ rows
    /\ Forall2 (fun row r =>
                  DisruptionLog.delay_minutes row = snd r
                  /\ (DisruptionLog.cause row = Some (Scenario.cause config)
                      \/ DisruptionLog.cause row
                         = Some (Scenario.cause config ++ " (arrival hold)")%string)
                  /\ exists f, scenario_target config st f
                               /\ DisruptionLog.flight_id row = Flight.id f
                               /\ fst r = Flight.flight_number f)
               rows (snd (apply_scenario config draws st)).
Proof.
  intros config draws st. unfold apply_scenario.
  destruct (scenario_calls_root_rows (Scenario.cause config)
              (map (fun kf => (snd kf, pick_delay (Scenario.delays config) (draws (fst kf))))
                 (combine (seq 0 (List.length (scenario_departures config st)))
                    (scenario_departures config st))) st) as (rows1 & E1 & H1).
  pose proof (fun f => scenario_arrivals_target config (Scenario.cause config)
              (map (fun kf => (snd kf, pick_delay (Scenario.delays config) (draws (fst kf))))
                 (combine (seq 0 (List.length (scenario_departures config st)))
                    (scenario_departures config st))) st f) as Ht.
  destruct (scenario_calls (Scenario.cause config) _ st) as [st1 r1]. cbn [fst snd] in *.
  destruct (scenario_calls_root_rows (Scenario.cause config ++ " (arrival hold)")%string
              (map (fun f => (f, arrival_hold (Scenario.delays config)))
                   (scenario_arrivals config st1)) st1) as (rows2 & E2 & H2).
  destruct (scenario_calls (Scenario.cause config ++ " (arrival hold)")%string _ st1)
    as [st2 r2]. cbn [fst snd] in *.
  exists (rows1 ++ rows2). split; [rewrite E2, E1, app_assoc; reflexivity|].
  apply Forall2_app.
  - eapply Forall2_impl; [|exact H1].
    intros row r (A & B & f & Hin & C). split; [exact A|]. split; [left; exact B|].
    exists f. split; [|exact C]. apply in_map_iff in Hin.
    destruct Hin as ([k f0] & Ek & Hin). cbn [fst snd] in Ek. injection Ek as -> _.
    apply in_combine_r in Hin. apply scenario_departures_target. exact Hin.
  - eapply Forall2_impl; [|exact H2].
    intros row r (A & B & f & Hin & C). split; [exact A|]. split; [right; exact B|].
    exists f. split; [|exact C]. apply in_map_iff in Hin.
    destruct Hin as (f0 & Ek & Hin). injection Ek as -> _. apply Ht. exact Hin.
Qed.

(** X16: the arrivals loop of a scenario selects its flights after the
    departures loop has run, among the flights that are SCHEDULED, BOARDING or
    ACTIVE: a flight the departures loop delayed, directly or down a
    rotation, is DELAYED by then and is not called on again; every flight the
    arrivals loop calls on is a row the departures loop left exactly as it
    was. *)
Theorem arrivals_loop_skips_flights_already_delayed :
  forall config cause calls st,
    Forall2 (fun f f' =>
               In f' (scenario_arrivals config (fst (scenario_calls cause calls st))) ->
               f' = f /\ can_be_delayed f = true
               /\ Flight.destination_code f = Scenario.airport config)
            (flights st) (flights (fst (scenario_calls cause calls st)))
    /\ Forall (fun f => In f (flights st))
              (scenario_arrivals config (fst (scenario_calls cause calls st))).
Proof.
  intros config cause calls st. split; [apply scenario_arrivals_unchanged|].
  apply Forall_forall. intros f Hin.
  apply (scenario_arrivals_target config cause calls st f Hin).
Qed.

Lemma Forall2_conj {A B} (P Q : A -> B -> Prop) l l' :
  Forall2 P l l' -> Forall2 Q l l' -> Forall2 (fun x y => P x y /\ Q x y) l l'.
Proof.
  induction 1; intros HQ; inversion HQ; subst; constructor; auto.
Qed.

Lemma delays_only_pkey st st' : delays_only st st' -> flights_pkey st -> flights_pkey st'.
Proof.
  intros (_ & _ & _ & H & _) Hpk. unfold flights_pkey in *.
  rewrite (Forall2_map_eq Flight.id delay_grows (flights st) (flights st')); auto.
  intros x y [E _]. exact E.
Qed.

Lemma delays_only_both st st' :
  delays_only st st' ->
  Forall2 (fun g g' => delay_grows g g' /\ kept_or_delayed g g') (flights st) (flights st').
Proof.
  intros (_ & _ & _ & H1 & H2 & _). apply Forall2_conj; assumption.
Qed.

Lemma delayed_by_after fc d st st1 st2 :
  Forall2 (delayed_by fc d) (flights st) (flights st1) ->
  delays_only st1 st2 ->
  Forall2 (delayed_by fc d) (flights st) (flights st2).
Proof.
  intros H1 H2. apply delays_only_both in H2.
  eapply Forall2_compose; [|exact H1|exact H2].
  intros g g1 g2 [E1 Hd] [[E2 Hg] [_ Hk]]. split; [congruence|].
  intros Hid. destruct (Hd Hid) as [Hs Hc]. split; [|lia].
  destruct Hk as [->|Hk]; assumption.
Qed.

Lemma delayed_by_before fc d st st1 st2 :
  delays_only st st1 ->
  Forall2 (delayed_by fc d) (flights st1) (flights st2) ->
  Forall2 (delayed_by fc d) (flights st) (flights st2).
Proof.
  intros H1 H2. apply delays_only_both in H1.
  eapply Forall2_compose; [|exact H1|exact H2].
  intros g g1 g2 [[E1 Hg] _] [E2 Hd]. split; [congruence|].
  intros Hid. destruct Hd as [Hs Hc]; [congruence|]. split; [exact Hs|lia].
Qed.

Lemma trigger_delay_delayed_by fc d c st st' :
  flights_pkey st ->
  trigger_delay (Flight.id fc) d c st = Returned tt st' ->
  Forall2 (delayed_by fc d) (flights st) (flights st').
Proof.
  intros Hpk H. unfold trigger_delay in H.
  assert (Hids := calculate_blast_radius_frame _ _ _ _ _ _ _ _ H).
  destruct Hids as (_ & _ & _ & Hk & _).
  apply calculate_blast_radius_footprint in H; [|lia|exact Hpk].
  eapply Forall2_impl; [|apply (Forall2_conj _ _ _ _ H Hk)].
  intros g g' [[Ht _] [Hs _]]. split; [apply Hs|].
  intros Hid. specialize (Ht Hid). apply delay_flight_Ok in Ht.
  destruct Ht as (_ & _ & _ & _ & _ & Hdm & Hst). split; [exact Hst|].
  unfold cumulative_delay at 2. rewrite Hdm. cbn [COALESCE]. lia.
Qed.

Lemma scenario_calls_delayed cause calls : forall st,
  flights_pkey st ->
  Forall (fun c => 0 <= snd c) calls ->
  Forall (fun r => exists fc,
            In (fc, snd r) calls /\ fst r = Flight.flight_number fc
            /\ Forall2 (delayed_by fc (snd r)) (flights st)
                       (flights (fst (scenario_calls cause calls st))))
         (snd (scenario_calls cause calls st)).
Proof.
  induction calls as [|[f d] calls IH]; intros st Hpk Hnn; [constructor|].
  inversion Hnn as [|? ? Hd Hnn']; subst. cbn [snd] in Hd.
  cbn [scenario_calls].
  assert (Hw : Forall (fun r => exists fc,
            In (fc, snd r) ((f, d) :: calls) /\ fst r = Flight.flight_number fc
            /\ Forall2 (delayed_by fc (snd r)) (flights st)
                       (flights (fst (scenario_calls cause calls st))))
         (snd (scenario_calls cause calls st))).
  { eapply Forall_impl; [|apply (IH st Hpk Hnn')].
    intros r (fc & Hin & E & H). exists fc. split; [right; exact Hin|]. split; assumption. }
  destruct (trigger_delay (Flight.id f) d (Some cause) st) as [[] st'| |] eqn:E;
    [|exact Hw|exact Hw].
  clear Hw.
  pose proof (trigger_delay_delays_only _ _ _ _ _ Hd E) as Hstep.
  pose proof (delays_only_pkey _ _ Hstep Hpk) as Hpk'.
  pose proof (trigger_delay_delayed_by f d (Some cause) st st' Hpk E) as Hown.
  pose proof (scenario_calls_delays_only cause calls st' Hnn') as Hrest.
  specialize (IH st' Hpk' Hnn').
  destruct (scenario_calls cause calls st') as [st'' res]. cbn [fst snd] in *.
  constructor.
  - exists f. cbn [fst snd]. split; [left; reflexivity|]. split; [reflexivity|].
    eapply delayed_by_after; eassumption.
  - eapply Forall_impl; [|exact IH].
    intros r (fc & Hin & En & H). exists fc. split; [right; exact Hin|].
    split; [exact En|]. eapply delayed_by_before; eassumption.
Qed.

(** X17: under the primary key of the flights, every flight a scenario of the
    catalog reports in [details] ends DELAYED: it is a flight that could be
    delayed when the scenario started and that left or reached the airport,
    and in the database the scenario leaves its row is DELAYED, with a
    cumulative delay that has grown by at least the delay reported for it,
    whatever the calls made before and after its own did to it. *)
Theorem reported_flights_end_delayed :
  forall name config draws st st' results,
    In (name, config) SCENARIOS ->
    flights_pkey st ->
    apply_scenario config draws st = (st', results) ->
    Forall (fun r => exists f f',
              scenario_target config st f
              /\ fst r = Flight.flight_number f
              /\ In f' (flights st') /\ Flight.id f' = Flight.id f
              /\ Flight.status f' = DELAYED
              /\ cumulative_delay f + snd r <= cumulative_delay f')
           results.
Proof.
  intros name config draws st st' results Hin Hpk H.
  destruct (scenario_calls_nonnegative name config draws st Hin) as [Hdep Harr].
  unfold apply_scenario in H.
  pose proof (scenario_calls_delays_only (Scenario.cause config) _ st Hdep) as H1.
  pose proof (scenario_calls_delayed (Scenario.cause config) _ st Hpk Hdep) as D1.
  pose proof (fun f => scenario_arrivals_target config (Scenario.cause config)
              (map (fun kf => (snd kf, pick_delay (Scenario.delays config) (draws (fst kf))))
                 (combine (seq 0 (List.length (scenario_departures config st)))
                    (scenario_departures config st))) st f) as Ht.
  destruct (scenario_calls (Scenario.cause config) _ st) as [st1 r1]. cbn [fst snd] in *.
  pose proof (delays_only_pkey _ _ H1 Hpk) as Hpk1.
  pose proof (scenario_calls_delays_only
                (Scenario.cause config ++ " (arrival hold)")%string _ st1 (Harr st1)) as H2.
  pose proof (scenario_calls_delayed (Scenario.cause config ++ " (arrival hold)")%string
                _ st1 Hpk1 (Harr st1)) as D2.
  destruct (scenario_calls (Scenario.cause config ++ " (arrival hold)")%string _ st1)
    as [st2 r2]. cbn [fst snd] in *.
  injection H as <- <-.
  assert (Hfin : forall fc d,
             scenario_target config st fc ->
             Forall2 (delayed_by fc d) (flights st) (flights st2) ->
             exists f', In f' (flights st2) /\ Flight.id f' = Flight.id fc
                        /\ Flight.status f' = DELAYED
                        /\ cumulative_delay fc + d <= cumulative_delay f').
  { intros fc d (Hfc & _) HD.
    destruct (Forall2_exists_r _ _ _ _ HD Hfc) as (f' & Hf' & Hid & Hd).
    exists f'. destruct (Hd eq_refl) as [Hs Hc]. auto. }
  apply Forall_app. split.
  - eapply Forall_impl; [|exact D1].
    intros r (fc & Hc & En & HD).
    assert (Hfc : scenario_target config st fc).
    { apply in_map_iff in Hc. destruct Hc as ([k f0] & Ek & Hc).
      cbn [fst snd] in Ek. injection Ek as -> _.
      apply in_combine_r in Hc. apply scenario_departures_target. exact Hc. }
    destruct (Hfin fc (snd r) Hfc (delayed_by_after _ _ _ _ _ HD H2))
      as (f' & A & B & C & D).
    exists fc, f'. auto 10.
  - eapply Forall_impl; [|exact D2].
    intros r (fc & Hc & En & HD).
    assert (Hfc : scenario_target config st fc).
    { apply in_map_iff in Hc. destruct Hc as (f0 & Ek & Hc).
      injection Ek as -> _. apply Ht. exact Hc. }
    destruct (Hfin fc (snd r) Hfc (delayed_by_before _ _ _ _ _ H1 HD))
      as (f' & A & B & C & D).
    exists fc, f'. auto 10.
Qed.

Lemma rebooking_db_pkey : flights_pkey rebooking_db.
Proof.
  unfold flights_pkey. simpl. repeat constructor; simpl; intuition discriminate.
Defined.


Lemma catalog_scenario_only_adds_delay_witness :
  aircraft (fst (simulate_scenario snowstorm_jfk (fun k => k) rebooking_db))
  = aircraft rebooking_db
  /\ passengers (fst (simulate_scenario snowstorm_jfk (fun k => k) rebooking_db))
     = passengers rebooking_db
  /\ Forall2 delay_grows (flights rebooking_db)
       (flights (fst (simulate_scenario snowstorm_jfk (fun k => k) rebooking_db)))
  /\ Forall2 kept_or_delayed (flights rebooking_db)
       (flights (fst (simulate_scenario snowstorm_jfk (fun k => k) rebooking_db)))
  /\ Forall2 kept_or_missed (bookings rebooking_db)
       (bookings (fst (simulate_scenario snowstorm_jfk (fun k => k) rebooking_db)))
  /\ simulation_snapshots (fst (simulate_scenario snowstorm_jfk (fun k => k) rebooking_db))
     = simulation_snapshots rebooking_db
       ++ [Snapshot.mk ("Scenario: " ++ Scenario.label snowstorm_jfk)%string
             (flights (fst (simulate_scenario snowstorm_jfk (fun k => k) rebooking_db)))
             (WorldState.metrics
                (fetchWorldState
                   (fst (simulate_scenario snowstorm_jfk (fun k => k) rebooking_db))))]
  /\ Forall (fun r => In (snd r) (Scenario.delays snowstorm_jfk)
                      \/ 2 * snd r = hd 0 (Scenario.delays snowstorm_jfk))
            (snd (simulate_scenario snowstorm_jfk (fun k => k) rebooking_db)).
Proof.
  apply (catalog_scenario_only_adds_delay "snowstorm_jfk" snowstorm_jfk (fun k => k)
           rebooking_db).
  - left. reflexivity.
  - vm_compute. reflexivity.
Defined.

Lemma reported_flights_end_delayed_witness :
  Forall (fun r => exists f f',
            scenario_target snowstorm_jfk rebooking_db f
            /\ fst r = Flight.flight_number f
            /\ In f' (flights (fst (apply_scenario snowstorm_jfk (fun k => k) rebooking_db)))
            /\ Flight.id f' = Flight.id f
            /\ Flight.status f' = DELAYED
            /\ cumulative_delay f + snd r <= cumulative_delay f')
         (snd (apply_scenario snowstorm_jfk (fun k => k) rebooking_db)).
Proof.
  apply (reported_flights_end_delayed "snowstorm_jfk" snowstorm_jfk (fun k => k)
           rebooking_db).
  - left. reflexivity.
  - exact rebooking_db_pkey.
  - vm_compute. reflexivity.
Defined.

(* ================================================================= *)
(** ** After a reset *)

Lemma flat_map_nil {A B} (f : A -> list B) (l : list A) :
  (forall x, In x l -> f x = []) -> flat_map f l = [].
Proof.
  induction l as [|a l IH]; intros H; [reflexivity|].
  cbn [flat_map]. rewrite (H a (or_introl eq_refl)), IH; [reflexivity|].
  intros x Hx. apply H. right. exact Hx.
Qed.

Lemma filter_nil {A} (p : A -> bool) (l : list A) :
  (forall x, In x l -> p x = false) -> filter p l = [].
Proof.
  induction l as [|a l IH]; intros H; [reflexivity|].
  cbn [filter]. rewrite (H a (or_introl eq_refl)). apply IH.
  intros x Hx. apply H. right. exact Hx.
Qed.

Lemma no_missed_booking_nothing_stranded st :
  Forall (fun b => is_missed b = false) (bookings st) ->
  stranded_bookings st = [] /\ snapshot_missed_connections st = []
  /\ filter is_missed (bookings st) = [].
Proof.
  intros H. rewrite Forall_forall in H. split; [|split].
  - unfold stranded_bookings. apply flat_map_nil. intros b Hb.
    apply flat_map_nil. intros p _. specialize (H b Hb). unfold is_missed in H.
    rewrite H, andb_false_r. reflexivity.
  - unfold snapshot_missed_connections. apply flat_map_nil. intros b Hb.
    rewrite (H b Hb). reflexivity.
  - apply filter_nil. exact H.
Qed.

(** X18: a reset leaves nothing to rebook and nothing to report: on the
    database it leaves, [suggest_rebookings] returns no row (and cannot
    fail), a snapshot stores no missed connection and metrics that are all
    0, and every flight is again one that a random delay or a scenario may
    pick. *)
Theorem reset_leaves_nothing_to_rebook :
  forall now st,
    suggest_rebookings now (run_operation st ResetSimulation) = Ok []
    /\ snapshot_missed_connections (run_operation st ResetSimulation) = []
    /\ snapshot_metrics (run_operation st ResetSimulation) = Metrics.mk 0 0 0 0
    /\ filter can_be_delayed (flights (run_operation st ResetSimulation))
       = flights (run_operation st ResetSimulation).
Proof.
  intros now st.
  assert (Hb : Forall (fun b => is_missed b = false)
                      (bookings (run_operation st ResetSimulation))).
  { cbn. apply Forall_forall. intros b Hin. apply in_map_iff in Hin.
    destruct Hin as (b0 & <- & _). reflexivity. }
  assert (Hf : forall f, In f (flights (run_operation st ResetSimulation)) ->
                         Flight.status f = SCHEDULED).
  { cbn [run_operation]. rewrite reset_simulation_flights. intros f Hin.
    apply in_map_iff in Hin. destruct Hin as (f0 & <- & _). reflexivity. }
  destruct (no_missed_booking_nothing_stranded _ Hb) as (H1 & H2 & H3).
  split; [unfold suggest_rebookings; rewrite H1; reflexivity|].
  split; [exact H2|]. split.
  - unfold snapshot_metrics, count_rows. rewrite H3.
    rewrite (filter_nil is_delayed); [reflexivity|].
    intros f Hin. unfold is_delayed. rewrite (Hf f Hin). reflexivity.
  - generalize (flights (run_operation st ResetSimulation)) Hf. intros l Hl.
    induction l as [|f l IH]; [reflexivity|].
    cbn [filter]. unfold can_be_delayed at 1.
    rewrite (Hl f (or_introl eq_refl)). cbn. f_equal. apply IH.
    intros g Hg. apply Hl. right. exact Hg.
Qed.
